(** * cloudlinux7to8: migration actions and the action pipeline

    A shallow embedding of the leaf actions of the conversion tool
    (src/actions/common.py, src/actions/mariadb.py,
    src/cloudlinux7to8/actions/postgres.py,
    src/cloudlinux7to8/actions/extensions.py) over an explicit model of
    the host they act on, and of the action pipeline the specification
    describes, followed by the properties established about them. *)

From Stdlib Require Import ZArith Ascii String List Lia DecimalString DecimalZ DecimalPos.
From stdpp Require Import gmap strings list fin_maps.

Local Open Scope string_scope.
Local Open Scope Z_scope.

(** ** Python exceptions and results *)

Inductive exn : Type :=
| ValueError
| IndexError
| TypeError
| OSError (path : string)
| FileNotFoundError (path : string)
| FileExistsError (path : string)
| CalledProcessError (argv : list string)
| RuntimeError (msg : string)
| Exception (msg : string).

Inductive result (A : Type) : Type :=
| Ok (a : A)
| Raise (e : exn).

Arguments Ok {A} a.
Arguments Raise {A} e.

Definition is_ok {A} (r : result A) : bool :=
  match r with Ok _ => true | Raise _ => false end.

Module Pure.
(** Sequencing of computations that may raise but touch no state. *)
Definition bind {A B} (r : result A) (k : A -> result B) : result B :=
  match r with
  | Ok a => k a
  | Raise e => Raise e
  end.
End Pure.

Notation "'let?' x ':=' r 'in' k" := (Pure.bind r (fun x => k))
  (at level 10, x name, r at level 100, k at level 200).

(** ** Python string primitives used by the actions *)

Module Str.

Definition char_in (c : ascii) (codes : list nat) : bool :=
  existsb (Nat.eqb (nat_of_ascii c)) codes.

(** ASCII characters for which [str.isspace] holds. *)
Definition is_space (c : ascii) : bool :=
  char_in c [9; 10; 11; 12; 13; 28; 29; 30; 31; 32]%nat.

(** ASCII line boundaries recognised by [str.splitlines]. *)
Definition is_linebreak (c : ascii) : bool :=
  char_in c [10; 11; 12; 13; 28; 29; 30]%nat.

Definition is_digit (c : ascii) : bool :=
  let n := nat_of_ascii c in (48 <=? n)%nat && (n <=? 57)%nat.

Definition digit_value (c : ascii) : Z := Z.of_nat (nat_of_ascii c) - 48.

Definition is_empty (s : string) : bool :=
  match s with EmptyString => true | String _ _ => false end.

Definition snoc (s : string) (c : ascii) : string := s ++ String c EmptyString.

(** [s.split(sep)] for a one-character separator: never returns the empty
    list, and [split sep ""] is [[""]]. *)
Fixpoint split (sep : ascii) (s : string) : list string :=
  match s with
  | EmptyString => [EmptyString]
  | String c s' =>
      if Ascii.eqb c sep then EmptyString :: split sep s'
      else match split sep s' with
           | [] => [String c EmptyString]
           | w :: ws => String c w :: ws
           end
  end.

(** [s.split()]: maximal runs of non-whitespace characters. *)
Fixpoint split_ws_go (cur : string) (s : string) : list string :=
  match s with
  | EmptyString => if is_empty cur then [] else [cur]
  | String c s' =>
      if is_space c
      then (if is_empty cur then split_ws_go EmptyString s'
            else cur :: split_ws_go EmptyString s')
      else split_ws_go (snoc cur c) s'
  end.

Definition split_ws (s : string) : list string := split_ws_go EmptyString s.

(** [s.splitlines()]: a carriage return followed by a line feed is one
    boundary; a trailing boundary produces no empty last line. *)
Fixpoint splitlines_go (cur : string) (s : string) : list string :=
  match s with
  | EmptyString => if is_empty cur then [] else [cur]
  | String c s' =>
      if Ascii.eqb c "013"
      then match s' with
           | String "010" s'' => cur :: splitlines_go EmptyString s''
           | _ => cur :: splitlines_go EmptyString s'
           end
      else if is_linebreak c then cur :: splitlines_go EmptyString s'
      else splitlines_go (snoc cur c) s'
  end.

Definition splitlines (s : string) : list string := splitlines_go EmptyString s.

Definition startswith (s pre : string) : bool := String.prefix pre s.

Fixpoint lstrip (s : string) : string :=
  match s with
  | String c s' => if is_space c then lstrip s' else s
  | EmptyString => EmptyString
  end.

Fixpoint rstrip (s : string) : string :=
  match s with
  | EmptyString => EmptyString
  | String c s' =>
      match rstrip s' with
      | EmptyString => if is_space c then EmptyString else String c EmptyString
      | r => String c r
      end
  end.

Definition strip (s : string) : string := rstrip (lstrip s).

(** [sub in s] for strings. *)
Fixpoint contains (sub s : string) : bool :=
  String.prefix sub s ||
  match s with
  | EmptyString => false
  | String _ s' => contains sub s'
  end.

Fixpoint drop (n : nat) (s : string) : string :=
  match n, s with
  | O, _ => s
  | S n', String _ s' => drop n' s'
  | S _, EmptyString => EmptyString
  end.

(** [s.replace(old, new)] for a non-empty [old]: occurrences are replaced
    left to right and do not overlap.  The fuel bounds the number of
    characters still to be scanned. *)
Fixpoint replace_go (fuel : nat) (old new s : string) : string :=
  match fuel with
  | O => s
  | S fuel' =>
      match s with
      | EmptyString => EmptyString
      | String c s' =>
          if String.prefix old s
          then new ++ replace_go fuel' old new (drop (String.length old) s)
          else String c (replace_go fuel' old new s')
      end
  end.

Definition replace (old new s : string) : string :=
  replace_go (S (String.length s)) old new s.

(** Digits of a decimal literal, with the single underscores Python
    allows between digits; [prev] tells whether the previous character
    was a digit. *)
Fixpoint digits_go (acc : Z) (prev : bool) (s : string) : option Z :=
  match s with
  | EmptyString => if prev then Some acc else None
  | String c s' =>
      if is_digit c then digits_go (10 * acc + digit_value c) true s'
      else if Ascii.eqb c "_" && prev then digits_go acc false s'
      else None
  end.

Definition of_option (o : option Z) : result Z :=
  match o with Some z => Ok z | None => Raise ValueError end.

(** [int(s)] on ASCII text: surrounding whitespace is ignored, one sign
    is allowed, anything else raises [ValueError]. *)
Definition int (s : string) : result Z :=
  match strip s with
  | String "-" r => let? z := of_option (digits_go 0 false r) in Ok (- z)
  | String "+" r => of_option (digits_go 0 false r)
  | t => of_option (digits_go 0 false t)
  end.

(** A non-empty string of ASCII decimal digits, and the number it
    denotes. *)
Fixpoint all_digits (s : string) : bool :=
  match s with
  | EmptyString => true
  | String c s' => is_digit c && all_digits s'
  end.

Definition numeric (s : string) : bool := negb (is_empty s) && all_digits s.

(** Every character of the string is an ASCII character. *)
Fixpoint is_ascii (s : string) : bool :=
  match s with
  | EmptyString => true
  | String c s' => (nat_of_ascii c <? 128)%nat && is_ascii s'
  end.

Fixpoint has_ascii_nondigit (s : string) : bool :=
  match s with
  | EmptyString => false
  | String c s' => ((nat_of_ascii c <? 128)%nat && negb (is_digit c)) || has_ascii_nondigit s'
  end.

(** [s.isnumeric()], where the text decides it: an ASCII string is numeric
    exactly when it is a non-empty string of digits, and a string with an
    ASCII character that is not a digit is not numeric.  For any other
    string the answer depends on Unicode tables that are not represented:
    [None]. *)
Definition isnumeric (s : string) : option bool :=
  if is_ascii s then Some (numeric s)
  else if has_ascii_nondigit s then Some false
  else None.

Fixpoint decimal_go (acc : Z) (s : string) : Z :=
  match s with
  | EmptyString => acc
  | String c s' => decimal_go (10 * acc + digit_value c) s'
  end.

Definition decimal (s : string) : Z := decimal_go 0 s.

(** [str(z)] and the decimal text of an f-string field. *)
Definition of_int (z : Z) : string := NilZero.string_of_int (Z.to_int z).

Definition nl : string := String "010" EmptyString.

(** [s.split(sep)] for a separator of several characters. *)
Fixpoint split_str_go (fuel : nat) (sep cur s : string) : list string :=
  match fuel with
  | O => [cur ++ s]
  | S fuel' =>
      match s with
      | EmptyString => [cur]
      | String c s' =>
          if String.prefix sep s
          then cur :: split_str_go fuel' sep EmptyString (drop (String.length sep) s)
          else split_str_go fuel' sep (snoc cur c) s'
      end
  end.

Definition split_str (sep s : string) : list string :=
  split_str_go (S (String.length s)) sep EmptyString s.

(** [f.readlines()]: lines keep their terminating line feed. *)
Fixpoint readlines_go (cur s : string) : list string :=
  match s with
  | EmptyString => if is_empty cur then [] else [cur]
  | String c s' =>
      if Ascii.eqb c "010" then snoc cur c :: readlines_go EmptyString s'
      else readlines_go (snoc cur c) s'
  end.

Definition readlines (s : string) : list string := readlines_go EmptyString s.

(** [s.find(c)] for a character: [None] stands for -1. *)
Fixpoint find_char (c : ascii) (s : string) : option nat :=
  match s with
  | EmptyString => None
  | String d s' => if Ascii.eqb d c then Some O else option_map S (find_char c s')
  end.

Fixpoint take (n : nat) (s : string) : string :=
  match n, s with
  | S n', String c s' => String c (take n' s')
  | _, _ => EmptyString
  end.

(** [s[:i]] where [i] is the answer of [find]: -1 drops the last
    character. *)
Definition slice_to (i : option nat) (s : string) : string :=
  match i with
  | Some n => take n s
  | None => take (String.length s - 1) s
  end.

End Str.

(** ** src/actions/mariadb.py: version comparison *)

Definition MARIADB_VERSION_ON_ALMA : string := "10.3.35".

(** The loop of [_is_version_larger] over the zipped components. *)
Fixpoint version_larger_loop (pairs : list (string * string)) : result bool :=
  match pairs with
  | [] => Ok false
  | (pleft, pright) :: rest =>
      let? l := Str.int pleft in
      let? r := Str.int pright in
      if l >? r then Ok true
      else if r >? l then Ok false
      else version_larger_loop rest
  end.

Definition _is_version_larger (left right : string) : result bool :=
  version_larger_loop (combine (Str.split "." left) (Str.split "." right)).


(** ** The host the actions run on *)

(** A directory entry: a regular file with its text, or a symbolic link
    with its target. *)
Inductive node : Type :=
| RegularFile (content : string)
| Symlink (target : string).

(** A systemd unit as [systemctl is-enabled] and [systemctl is-active] see
    it. *)
Record unit_state : Type := UnitState { enabled : bool; active : bool }.

(** Modelled from the spec: the module [postgres] of the helper package is
    not among the sources (section 1 of the specification leaves the
    payload helpers out of scope, section 9 describes them as a
    capability surface).  The record holds what its functions of the same
    names answer on the host. *)
Record postgres_info : Type := PostgresInfo {
  is_postgres_installed : bool;
  is_database_initialized : bool;
  database_major_version : Z;
  get_pgsql_root_path : string;
  get_data_path : string;
  (** names [os.listdir] returns for the PostgreSQL root, the flag files
      of [PostgresReinstallModernPackage] apart (their names are never
      numeric); [None] when there is no such directory *)
  pgsql_root_entries : option (list string)
}.

Record Host : Type := mkHost {
  fs : gmap string node;
  units : gmap string unit_state;
  (** the tuple [platform.linux_distribution()] returns *)
  linux_distribution : string * string * string;
  (** the string ['.'.join(map(str, locale.getlocale()))] evaluates to *)
  python_locale : string;
  (** exit status and standard output of the programs that are run only
      for their answer; a program absent from the table is not installed *)
  programs : gmap (list string) (Z * string);
  (** commands that exit with a non-zero status when run for effect *)
  broken : list (list string);
  (** commands and library calls run for an effect the model does not
      interpret (package manager, leapp configuration, kernel modules),
      most recent first *)
  journal : list (list string);
  postgres : postgres_info
}.

Definition with_fs (f : gmap string node -> gmap string node) (h : Host) : Host :=
  mkHost (f (fs h)) (units h) (linux_distribution h) (python_locale h)
         (programs h) (broken h) (journal h) (postgres h).

Definition with_units (f : gmap string unit_state -> gmap string unit_state)
    (h : Host) : Host :=
  mkHost (fs h) (f (units h)) (linux_distribution h) (python_locale h)
         (programs h) (broken h) (journal h) (postgres h).

Definition journaled (entry : list string) (h : Host) : Host :=
  mkHost (fs h) (units h) (linux_distribution h) (python_locale h)
         (programs h) (broken h) (entry :: journal h) (postgres h).

(** ** Computations on the host: state that survives a raised exception *)

Definition M (A : Type) : Type := Host -> result A * Host.

Module M.
Definition ret {A} (a : A) : M A := fun h => (Ok a, h).

Definition bind {A B} (m : M A) (k : A -> M B) : M B :=
  fun h =>
    match m h with
    | (Ok a, h') => k a h'
    | (Raise e, h') => (Raise e, h')
    end.

Definition raise {A} (e : exn) : M A := fun h => (Raise e, h).

Definition lift {A} (r : result A) : M A := fun h => (r, h).

Definition gets {A} (f : Host -> A) : M A := fun h => (Ok (f h), h).

(** [try: body finally: handler].  The handler runs whatever the body
    did; an exception of the handler replaces the outcome of the body. *)
Definition try_finally {A} (body : M A) (handler : M unit) : M A :=
  fun h =>
    let (r, h1) := body h in
    match handler h1 with
    | (Ok _, h2) => (r, h2)
    | (Raise e, h2) => (Raise e, h2)
    end.

(** [for x in l: body(x)] *)
Fixpoint for_each {A} (l : list A) (body : A -> M unit) : M unit :=
  match l with
  | [] => ret tt
  | x :: rest => bind (body x) (fun _ => for_each rest body)
  end.
End M.

Notation "'let!' x ':=' m 'in' k" := (M.bind m (fun x => k))
  (at level 10, x name, m at level 100, k at level 200).
Notation "m '>>' k" := (M.bind m (fun _ => k))
  (at level 100, k at level 200, right associativity).

(** ** Operating-system primitives: [os], [open], [subprocess] *)

Module Os.

(** The most symbolic links the kernel follows when it resolves a path. *)
Definition MAXSYMLINKS : nat := 40.

(** Whether [p] leads to a file through at most [fuel - 1] symbolic
    links.  The target of a link is taken as an absolute path. *)
Fixpoint follow (fuel : nat) (files : gmap string node) (p : string) : bool :=
  match fuel with
  | O => false
  | S fuel' =>
      match files !! p with
      | Some (RegularFile _) => true
      | Some (Symlink target) => follow fuel' files target
      | None => false
      end
  end.

Definition exists_in (files : gmap string node) (p : string) : bool :=
  follow (S MAXSYMLINKS) files p.

(** [os.path.exists(p)]: symbolic links are followed, and a link that leads
    nowhere does not exist. *)
Definition path_exists (p : string) : M bool :=
  M.gets (fun h => exists_in (fs h) p).

(** [os.path.join(a, b)] for a relative [b]. *)
Definition path_join (a b : string) : string :=
  if Str.is_empty a then b
  else if String.prefix "/" (String.rev a) then a ++ b
  else a ++ "/" ++ b.

Definition symlink (target p : string) : M unit :=
  fun h =>
    match fs h !! p with
    | Some _ => (Raise (FileExistsError p), h)
    | None => (Ok tt, with_fs (insert p (Symlink target)) h)
    end.

Definition unlink (p : string) : M unit :=
  fun h =>
    match fs h !! p with
    | Some _ => (Ok tt, with_fs (delete p) h)
    | None => (Raise (FileNotFoundError p), h)
    end.

Definition remove : string -> M unit := unlink.

(** Text of a regular file.  Reading or writing text through a link is
    outside the model and raises. *)
Definition read_text (p : string) : M string :=
  fun h =>
    match fs h !! p with
    | Some (RegularFile c) => (Ok c, h)
    | Some (Symlink _) => (Raise (OSError p), h)
    | None => (Raise (FileNotFoundError p), h)
    end.

(** [open(p, "w")] followed by the writes that produce [c]. *)
Definition write_text (p c : string) : M unit :=
  fun h =>
    match fs h !! p with
    | Some (Symlink _) => (Raise (OSError p), h)
    | _ => (Ok tt, with_fs (insert p (RegularFile c)) h)
    end.

(** [open(p, "a")] followed by the writes that produce [c]: the file is
    created when it is missing. *)
Definition append_text (p c : string) : M unit :=
  fun h =>
    match fs h !! p with
    | Some (Symlink _) => (Raise (OSError p), h)
    | Some (RegularFile old) => (Ok tt, with_fs (insert p (RegularFile (old ++ c))) h)
    | None => (Ok tt, with_fs (insert p (RegularFile c)) h)
    end.

(** [subprocess.run(argv, stdout=PIPE)] without [check]: the exit status
    is returned, not raised. *)
Definition subprocess_run (argv : list string) : M (Z * string) :=
  fun h =>
    match programs h !! argv with
    | Some r => (Ok r, h)
    | None => (Raise (FileNotFoundError (hd EmptyString argv)), h)
    end.

(** [subprocess.check_output(argv)] *)
Definition check_output (argv : list string) : M string :=
  let! r := subprocess_run argv in
  if fst r =? 0 then M.ret (snd r) else M.raise (CalledProcessError argv).

Definition is_systemctl (prog : string) : bool :=
  (prog =? "systemctl")%string || (prog =? "/usr/bin/systemctl")%string.

(** What a successful [systemctl <verb> <unit>] does to the unit table;
    [None] is a non-zero exit status (unknown unit or verb).
    [reload-or-restart] starts a unit that is not running,
    [reload-or-try-restart] leaves such a unit alone. *)
Definition systemctl_unit (verb unit : string) (h : Host) : option Host :=
  match units h !! unit with
  | None => None
  | Some u =>
      let put u' := Some (with_units (insert unit u') h) in
      if (verb =? "start")%string then put (UnitState (enabled u) true)
      else if (verb =? "stop")%string then put (UnitState (enabled u) false)
      else if (verb =? "enable")%string then put (UnitState true (active u))
      else if (verb =? "disable")%string then put (UnitState false (active u))
      else if (verb =? "reload-or-restart")%string then put (UnitState (enabled u) true)
      else if (verb =? "reload-or-try-restart")%string then Some h
      else None
  end.

(** Effect of a command run for effect that exits with status zero.
    Commands other than [systemctl] leave a journal entry. *)
Definition command_effect (argv : list string) (h : Host) : option Host :=
  match argv with
  | [prog; verb] =>
      if is_systemctl prog && (verb =? "daemon-reload")%string then Some h
      else Some (journaled argv h)
  | [prog; verb; unit] =>
      if is_systemctl prog then systemctl_unit verb unit h
      else Some (journaled argv h)
  | _ => Some (journaled argv h)
  end.

(** [subprocess.check_call(argv)]: a non-zero exit status raises
    [CalledProcessError]; a command that fails leaves the host as it
    was. *)
Definition check_call (argv : list string) : M unit :=
  fun h =>
    if bool_decide (argv ∈ broken h) then (Raise (CalledProcessError argv), h)
    else match command_effect argv h with
         | Some h' => (Ok tt, h')
         | None => (Raise (CalledProcessError argv), h)
         end.

(** [subprocess.run(["/usr/bin/systemctl", "is-active", service])]:
    the exit status is zero exactly for an active unit. *)
Definition systemctl_is_active (service : string) : M Z :=
  M.gets (fun h => match units h !! service with
                   | Some u => if active u then 0 else 3
                   | None => 3
                   end).

End Os.

(** ** Helpers of the modules [common], [util], [files], [leapp_configs]

    The actions import these modules, which are not among the sources.
    Section 9 of the specification describes them as the capability
    surface of file-edit, service-control and package-manager operations;
    each helper is given the behaviour its name and its call sites
    state. *)

Module Util.
(** Modelled from the spec: [util.logged_check_call] is not among the
    sources; a service-control or package-manager operation, it is
    [check_call] that also logs. *)
Definition logged_check_call : list string -> M unit := Os.check_call.
End Util.

Module Files.

Definition bak (p : string) : string := p ++ ".bak".

(** Modelled from the spec: [backup_file] is not among the sources; a
    file-edit operation, it copies [p] to [p.bak] when [p] exists. *)
Definition backup_file (p : string) : M unit :=
  fun h =>
    match fs h !! p with
    | Some n => (Ok tt, with_fs (insert (bak p) n) h)
    | None => (Ok tt, h)
    end.

(** Modelled from the spec: [restore_file_from_backup] is not among the
    sources; a file-edit operation, it moves [p.bak] over [p] when the
    backup exists. *)
Definition restore_file_from_backup (p : string) : M unit :=
  fun h =>
    match fs h !! bak p with
    | Some n => (Ok tt, with_fs (fun m => delete (bak p) (insert p n m)) h)
    | None => (Ok tt, h)
    end.

(** Modelled from the spec: [push_front_strings] is not among the
    sources; a file-edit operation, it puts the strings before the text of
    the file. *)
Definition push_front_strings (p : string) (strings : list string) : M unit :=
  let! old := Os.read_text p in
  Os.write_text p (String.concat EmptyString strings ++ old).

(** Modelled from the spec: [replace_string] is not among the sources; a
    file-edit operation, it replaces every occurrence of [old] in the
    file. *)
Definition replace_string (p old new : string) : M unit :=
  let! text := Os.read_text p in
  Os.write_text p (Str.replace old new text).

(** Modelled from the spec: [find_file_substrings] is not among the
    sources; it returns the lines of the file that contain [sub]. *)
Definition find_file_substrings (p sub : string) : M (list string) :=
  let! text := Os.read_text p in
  M.ret (filter (fun line => Is_true (Str.contains sub line)) (Str.readlines text)).

End Files.

Module LeappConfigs.
(** Modelled from the spec: [leapp_configs] is not among the sources; its
    functions edit the configuration of the conversion engine, and are run
    for effect and journalled like package-manager operations. *)
Definition add_repositories_mapping (repofiles : list string) : M unit :=
  Os.check_call ("leapp_configs.add_repositories_mapping" :: repofiles).

Definition set_package_repository (package repository : string) : M unit :=
  Os.check_call ["leapp_configs.set_package_repository"; package; repository].
End LeappConfigs.

(** ** src/actions/common.py *)

Module FixNamedConfig.
Definition name : string := "fix named configuration".
Definition user_options_path : string := "/etc/named-user-options.conf".

Definition _prepare_action : M unit :=
  let! present := Os.path_exists user_options_path in
  if negb present
  then Os.symlink "/var/named/chroot/etc/named-user-options.conf" user_options_path
  else M.ret tt.

Definition _post_action : M unit :=
  let! present := Os.path_exists user_options_path in
  if present then Os.unlink user_options_path else M.ret tt.

Definition _revert_action : M unit :=
  let! present := Os.path_exists user_options_path in
  if present then Os.unlink user_options_path else M.ret tt.
End FixNamedConfig.

Module FixSpamassassinConfig.
Definition name : string := "fix spamassassin configuration".

Definition _prepare_action : M unit :=
  Util.logged_check_call ["systemctl"; "stop"; "spamassassin.service"] >>
  Util.logged_check_call ["systemctl"; "disable"; "spamassassin.service"].

Definition _post_action : M unit :=
  Util.logged_check_call ["plesk"; "sbin"; "spammng"; "--enable"] >>
  Util.logged_check_call ["plesk"; "sbin"; "spammng"; "--update";
                          "--enable-server-configs"; "--enable-user-configs"] >>
  Util.logged_check_call ["systemctl"; "daemon-reload"] >>
  Util.logged_check_call ["systemctl"; "enable"; "spamassassin.service"].

Definition _revert_action : M unit :=
  Util.logged_check_call ["systemctl"; "enable"; "spamassassin.service"] >>
  Util.logged_check_call ["systemctl"; "start"; "spamassassin.service"].
End FixSpamassassinConfig.

Module DisableSuspiciousKernelModules.
Definition name : string := "rule suspicious kernel modules".
Definition suspicious_modules : list string := ["pata_acpi"; "btrfs"; "floppy"].
Definition modules_konfig_path : string := "/etc/modprobe.d/pataacpibl.conf".

Definition _get_enabled_modules (lookup_modules : list string) : M (list string) :=
  let! process := Os.subprocess_run ["lsmod"] in
  M.ret (omap (fun line =>
                 let module_name := Str.slice_to (Str.find_char " " line) line in
                 if bool_decide (module_name ∈ lookup_modules)
                 then Some module_name else None)
              (Str.splitlines (snd process))).

Definition _prepare_action : M unit :=
  Os.append_text modules_konfig_path
    (String.concat EmptyString
       (map (fun suspicious_module => "blacklist " ++ suspicious_module ++ Str.nl)
            suspicious_modules)) >>
  let! enabled_modules := _get_enabled_modules suspicious_modules in
  M.for_each enabled_modules (fun enabled_module =>
    Util.logged_check_call ["rmmod"; enabled_module]).

Definition _post_action : M unit :=
  M.for_each suspicious_modules (fun module =>
    Files.replace_string modules_konfig_path ("blacklist " ++ module) EmptyString).

Definition _revert_action : M unit :=
  M.for_each suspicious_modules (fun module =>
    Files.replace_string modules_konfig_path ("blacklist " ++ module) EmptyString).
End DisableSuspiciousKernelModules.

Module RuleSelinux.
Definition name : string := "rule selinux status".
Definition selinux_config : string := "/etc/selinux/config".

Definition _prepare_action : M unit :=
  Files.replace_string selinux_config "SELINUX=enforcing" "SELINUX=permissive".

Definition _post_action : M unit :=
  Files.replace_string selinux_config "SELINUX=permissive" "SELINUX=enforcing".

Definition _revert_action : M unit :=
  Files.replace_string selinux_config "SELINUX=permissive" "SELINUX=enforcing".
End RuleSelinux.

Module PleskInstallerNotInProgress.
Definition name : string := "checking if Plesk installer is in progress".

Definition _do_check : M bool :=
  let! installer_check :=
    Os.subprocess_run ["plesk"; "installer"; "--query-status"; "--enable-xml-output"] in
  if Str.contains "query_ok" (snd installer_check) then M.ret true else M.ret false.
End PleskInstallerNotInProgress.

Module DistroIsCentos79.
Definition name : string := "checking if distro is CentOS7".

(** The body of [_do_check] once [platform.linux_distribution()] has
    answered [distro]. *)
Definition check_distro (distro : string * string * string) : result bool :=
  let '(distname, version, _) := distro in
  match firstn 2 (Str.split "." version) with
  | [major_version; minor_version] =>
      if (distname =? "CentOS Linux")%string then
        let? major := Str.int major_version in
        if major =? 7 then
          let? minor := Str.int minor_version in
          if minor =? 9 then Ok true else Ok false
        else Ok false
      else Ok false
  | _ => Raise ValueError
  end.

Definition _do_check : M bool :=
  let! distro := M.gets linux_distribution in
  M.lift (check_distro distro).
End DistroIsCentos79.

Module DistroIsAlmalinux8.
Definition name : string := "checking if distro is AlmaLinux8".

Definition check_distro (distro : string * string * string) : result bool :=
  let '(distname, version, _) := distro in
  match Str.split "." version with
  | major_version :: _ =>
      if (distname =? "AlmaLinux")%string then
        let? major := Str.int major_version in
        if major =? 8 then Ok true else Ok false
      else Ok false
  | [] => Raise IndexError
  end.

Definition _do_check : M bool :=
  let! distro := M.gets linux_distribution in
  M.lift (check_distro distro).
End DistroIsAlmalinux8.

Module PleskVersionIsActual.
Definition name : string := "checking if Plesk version is actual".
Definition description : string :=
  "Plesk version should be 18.0.43 or later. Please update Plesk to solve the problem.".

(** The test made on the first line that starts with "Product version". *)
Definition check_line (line : string) : result bool :=
  match last (Str.split_ws line) with
  | None => Raise IndexError
  | Some version =>
      match Str.split "." version with
      | [major; _; iter; _] =>
          let? major_number := Str.int major in
          if major_number >=? 18 then
            let? iter_number := Str.int iter in
            if iter_number >=? 43 then Ok true else Ok false
          else Ok false
      | _ => Raise ValueError
      end
  end.

(** The loop over the lines of the output: the first matching line
    decides. *)
Fixpoint check_lines (lines : list string) : result bool :=
  match lines with
  | [] => Ok false
  | line :: rest =>
      if Str.startswith line "Product version" then check_line line
      else check_lines rest
  end.

Definition _do_check : M bool :=
  let! version_process := Os.subprocess_run ["plesk"; "version"] in
  M.lift (check_lines (Str.splitlines (snd version_process))).
End PleskVersionIsActual.

(** ** src/actions/mariadb.py: detection and the two actions *)

Fixpoint which_first (utils : list string) : M (option string) :=
  match utils with
  | [] => M.ret None
  | util :: rest =>
      let! which := Os.subprocess_run ["which"; util] in
      if fst which =? 0 then M.ret (Some util) else which_first rest
  end.

Definition _get_mariadb_utilname : M (option string) :=
  which_first ["mariadb"; "mysql"].

Definition _is_mariadb_installed : M bool :=
  let! util := _get_mariadb_utilname in
  match util with
  | None => M.ret false
  | Some util =>
      if (util =? "mariadb")%string then M.ret true
      else
        let! process := Os.subprocess_run [util; "--version"] in
        if negb (fst process =? 0) then M.ret false
        else M.ret (Str.contains "MariaDB" (snd process))
  end.

(** [l[i]]: an index out of range raises [IndexError]. *)
Definition item (l : list string) (i : nat) : result string :=
  match l !! i with
  | Some x => Ok x
  | None => Raise IndexError
  end.

(** [out.split("Distrib ")[1].split(",")[0].split("-")[0]] *)
Definition distrib_version (out : string) : result string :=
  let? after := item (Str.split_str "Distrib " out) 1 in
  let? upto_comma := item (Str.split "," after) 0 in
  item (Str.split "-" upto_comma) 0.

Definition _get_mariadb_version : M string :=
  let! util := _get_mariadb_utilname in
  match util with
  | None => M.raise TypeError
  | Some util =>
      let! process := Os.subprocess_run [util; "--version"] in
      if negb (fst process =? 0)
      then M.raise (RuntimeError "Unable to get mariadb version")
      else M.lift (distrib_version (snd process))
  end.

Module AvoidMariadbDowngrade.
Definition name : string := "avoid mariadb downgrade".
Definition mariadb_repofile : string := "/etc/yum.repos.d/mariadb.repo".

Definition _is_required : M bool :=
  let! installed := _is_mariadb_installed in
  if installed then
    let! version := _get_mariadb_version in
    let! larger := M.lift (_is_version_larger MARIADB_VERSION_ON_ALMA version) in
    M.ret (negb larger)
  else M.ret false.

Definition _prepare_action : M unit :=
  let! present := Os.path_exists mariadb_repofile in
  if negb present
  then M.raise (Exception
         ("Mariadb installed from unknown repository. Please check the '"
          ++ mariadb_repofile ++ "' file is present"))
  else
    LeappConfigs.add_repositories_mapping [mariadb_repofile] >>
    LeappConfigs.set_package_repository "mariadb" "alma-maridb".

Definition _post_action : M unit := M.ret tt.
Definition _revert_action : M unit := M.ret tt.
End AvoidMariadbDowngrade.

Module UpdateMariadbDatabase.
Definition name : string := "updating mariadb databases".

Definition _is_required : M bool :=
  let! installed := _is_mariadb_installed in
  if installed then
    let! version := _get_mariadb_version in
    M.lift (_is_version_larger MARIADB_VERSION_ON_ALMA version)
  else M.ret false.

Definition _prepare_action : M unit := M.ret tt.

Definition _post_action : M unit :=
  Os.check_call ["systemctl"; "start"; "mariadb"] >>
  let! shadow := Os.read_text "/etc/psa/.psa.shadow" in
  let shadowdata := Str.rstrip (hd EmptyString (Str.readlines shadow)) in
  Os.check_call ["mysql_upgrade"; "-uadmin"; "-p" ++ shadowdata].

Definition _revert_action : M unit := M.ret tt.
End UpdateMariadbDatabase.

(** ** src/cloudlinux7to8/actions/postgres.py *)

Definition _ALMA8_POSTGRES_VERSION : Z := 10.

Module AssertOutdatedPostgresNotInstalled.
Definition name : string := "checking Postgres version 10 or later is installed".

Definition _do_check : M bool :=
  let! pg := M.gets postgres in
  M.ret (negb (is_postgres_installed pg)
         || negb (is_database_initialized pg)
         || negb (database_major_version pg <? _ALMA8_POSTGRES_VERSION)).
End AssertOutdatedPostgresNotInstalled.

Module AssertPostgresLocaleMatchesSystemOne.
Definition name : string :=
  "checking if system locale is safe for Postgres databases upgrade".
Definition service_name : string := "postgresql".

Definition trust_line : string :=
  "local template1 postgres trust #Added by Plesk" ++ Str.nl.

Definition query : string :=
  "SELECT datcollate, datctype FROM pg_database WHERE datname='postgres';".

Definition cmd : list string :=
  ["/usr/bin/psql"; "-U"; "postgres"; "-d"; "template1"; "-qt"; "-v";
   "ON_ERROR_STOP=1"; "-P"; "border=0"].

(** [l.split('=')[1].strip()] for each line found in /etc/locale.conf *)
Fixpoint lang_values (lines : list string) : result (list string) :=
  match lines with
  | [] => Ok []
  | l :: rest =>
      let? value := item (Str.split "=" l) 1 in
      let? values := lang_values rest in
      Ok (Str.strip value :: values)
  end.

(** The body of the [try] block. *)
Definition compare_locales (config_path : string) : M bool :=
  Files.backup_file config_path >>
  Files.push_front_strings config_path [trust_line] >>
  Util.logged_check_call ["systemctl"; "reload-or-restart"; service_name] >>
  let! output := Os.check_output cmd in
  let pg_locales : gset string := list_to_set (Str.split_ws output) in
  if negb (size pg_locales =? 1)%nat then M.ret false
  else
    let! lines := Files.find_file_substrings "/etc/locale.conf" "LANG=" in
    let! values := M.lift (lang_values lines) in
    let! current := M.gets python_locale in
    let sys_locales : gset string := list_to_set values ∪ {[ current ]} in
    if negb (size sys_locales =? 1)%nat then M.ret false
    else M.ret (bool_decide (pg_locales = sys_locales)).

(** The [finally] block. *)
Definition restore (config_path : string) : M unit :=
  Files.restore_file_from_backup config_path >>
  Util.logged_check_call ["systemctl"; "reload-or-try-restart"; service_name].

Definition config_path (h : Host) : string :=
  Os.path_join (get_data_path (postgres h)) "pg_hba.conf".

Definition _do_check : M bool :=
  let! config_path := M.gets config_path in
  M.try_finally (compare_locales config_path) (restore config_path).
End AssertPostgresLocaleMatchesSystemOne.

Module PostgresDatabasesUpdate.
Definition name : string := "updating PostgreSQL databases".
Definition service_name : string := "postgresql".

Definition _is_required : M bool :=
  let! pg := M.gets postgres in
  M.ret (is_postgres_installed pg
         && is_database_initialized pg
         && (database_major_version pg <? _ALMA8_POSTGRES_VERSION)).

Definition _prepare_action : M unit :=
  Util.logged_check_call ["systemctl"; "stop"; service_name] >>
  Util.logged_check_call ["systemctl"; "disable"; service_name].

Definition _enable_postgresql : M unit :=
  Util.logged_check_call ["systemctl"; "enable"; service_name] >>
  Util.logged_check_call ["systemctl"; "start"; service_name].

Definition _revert_action : M unit := _enable_postgresql.
End PostgresDatabasesUpdate.

Module PostgresReinstallModernPackage.
Definition name : string := "reinstall modern PostgreSQL".

(** [[int(dataset) for dataset in datasets if dataset.isnumeric()]].  A
    name for which [isnumeric] is not decided by the text is outside the
    model, and the listing is refused. *)
Fixpoint int_each (datasets : list string) : result (list Z) :=
  match datasets with
  | [] => Ok []
  | dataset :: rest =>
      match Str.isnumeric dataset with
      | Some true =>
          let? major := Str.int dataset in
          let? majors := int_each rest in
          Ok (major :: majors)
      | Some false => int_each rest
      | None => Raise ValueError
      end
  end.

(** The comprehension over [os.listdir(postgres.get_pgsql_root_path())]:
    listing a directory that does not exist raises. *)
Definition versions_in (pg : postgres_info) : result (list Z) :=
  match pgsql_root_entries pg with
  | Some entries => int_each entries
  | None => Raise (FileNotFoundError (get_pgsql_root_path pg))
  end.

Definition _get_versions : M (list Z) :=
  let! pg := M.gets postgres in
  M.lift (versions_in pg).

Definition _is_required : M bool :=
  let! installed := M.gets (fun h => is_postgres_installed (postgres h)) in
  if installed then
    let! versions := _get_versions in
    M.ret (existsb (fun major_version => major_version >=? _ALMA8_POSTGRES_VERSION)
                   versions)
  else M.ret false.

Definition _is_service_active (service : string) : M bool :=
  let! returncode := Os.systemctl_is_active service in
  M.ret (returncode =? 0).

Definition version_enabled_path (root : string) (major_version : Z) : string :=
  Os.path_join root (Str.of_int major_version ++ ".enabled").

Definition _get_version_enabled_path (major_version : Z) : M string :=
  let! root := M.gets (fun h => get_pgsql_root_path (postgres h)) in
  M.ret (version_enabled_path root major_version).

Definition _get_service_name (major_version : Z) : string :=
  "postgresql-" ++ Str.of_int major_version.

(** The body of the loop of [_prepare_action]. *)
Definition prepare_version (major_version : Z) : M unit :=
  let service_name := _get_service_name major_version in
  let! is_active := _is_service_active service_name in
  if is_active then
    let! flag := _get_version_enabled_path major_version in
    Os.write_text flag EmptyString >>
    Util.logged_check_call ["/usr/bin/systemctl"; "stop"; service_name] >>
    Util.logged_check_call ["/usr/bin/systemctl"; "disable"; service_name]
  else M.ret tt.

Definition _prepare_action : M unit :=
  LeappConfigs.add_repositories_mapping ["/etc/yum.repos.d/pgdg-redhat-all.repo"] >>
  let! versions := _get_versions in
  M.for_each versions prepare_version.

(** The part the loops of [_post_action] and [_revert_action] share. *)
Definition restore_version (major_version : Z) : M unit :=
  let! flag := _get_version_enabled_path major_version in
  let! flagged := Os.path_exists flag in
  if flagged then
    let service_name := _get_service_name major_version in
    Util.logged_check_call ["/usr/bin/systemctl"; "enable"; service_name] >>
    Util.logged_check_call ["/usr/bin/systemctl"; "start"; service_name] >>
    let! flag := _get_version_enabled_path major_version in
    Os.remove flag
  else M.ret tt.

Definition install_version (major_version : Z) : M unit :=
  if major_version >? _ALMA8_POSTGRES_VERSION then
    Util.logged_check_call ["/usr/bin/dnf"; "-q"; "-y"; "module"; "disable"; "postgresql"] >>
    Util.logged_check_call ["/usr/bin/dnf"; "update"] >>
    Util.logged_check_call ["/usr/bin/dnf"; "install"; "-y";
                            "postgresql" ++ Str.of_int major_version;
                            "postgresql" ++ Str.of_int major_version ++ "-server"]
  else
    Util.logged_check_call ["/usr/bin/dnf"; "-q"; "-y"; "module"; "enable"; "postgresql"] >>
    Util.logged_check_call ["/usr/bin/dnf"; "update"] >>
    Util.logged_check_call ["/usr/bin/dnf"; "install"; "-y"; "postgresql"; "postgresql-server"].

Definition _post_action : M unit :=
  let! versions := _get_versions in
  M.for_each versions (fun major_version =>
    install_version major_version >> restore_version major_version).

Definition _revert_action : M unit :=
  let! versions := _get_versions in
  M.for_each versions restore_version.
End PostgresReinstallModernPackage.

(** ** Time estimates of the Active actions *)

(** The Active actions defined in the sources.  [FetchKernelCareGPGKey] and
    [FetchPleskGPGKey] inherit everything but their name from a class of
    another package and are left out. *)
Inductive active_action : Type :=
| FixNamedConfig
| FixSpamassassinConfig
| DisableSuspiciousKernelModules
| RuleSelinux
| AddFinishSshLoginMessage
| AddInProgressSshLoginMessage
| AvoidMariadbDowngrade
| UpdateMariadbDatabase
| AddMysqlConnector
| PostgresDatabasesUpdate
| PostgresReinstallModernPackage
| FixupImunify
| AdoptKolabRepositories.

(** Modelled from the spec: the base class [ActiveAction] is not among the
    sources; the specification gives its [estimate_prepare_time()] and
    [estimate_post_time()] as "seconds, default 0". *)
Definition default_estimate_time : Z := 0.

(** The overrides the classes declare. *)
Definition declared_prepare_time (a : active_action) : option Z :=
  match a with
  | AdoptKolabRepositories => Some 30
  | _ => None
  end.

Definition declared_post_time (a : active_action) : option Z :=
  match a with
  | AdoptKolabRepositories => Some (2 * 60)
  | PostgresDatabasesUpdate => Some (3 * 60)
  | PostgresReinstallModernPackage => Some (3 * 60)
  | _ => None
  end.

(** Method lookup: the override when the class has one, the inherited
    default otherwise. *)
Definition estimate_prepare_time (a : active_action) : Z :=
  match declared_prepare_time a with
  | Some seconds => seconds
  | None => default_estimate_time
  end.

Definition estimate_post_time (a : active_action) : Z :=
  match declared_post_time a with
  | Some seconds => seconds
  | None => default_estimate_time
  end.

(** ** The action pipeline *)

Module Phase.
Inductive t : Type := pending | prepare_done | post_done | reverted | failed.

Global Instance phase_eq_dec : EqDecision t.
Proof. solve_decision. Defined.

(** Phases whose work [revert()] undoes. *)
Definition revertible (p : t) : bool :=
  match p with
  | prepare_done | post_done => true
  | _ => false
  end.
End Phase.

Module Status.
Inductive t : Type :=
| not_started | checking | preparing | awaiting_external_conversion
| resuming | posting | completed | failed | reverting | reverted.

Global Instance status_eq_dec : EqDecision t.
Proof. solve_decision. Defined.
End Status.

(** Invocations of action operations, in the order they happen. *)
Inductive event : Type :=
| Checked (name : string)
| Prepared (name : string)
| Posted (name : string)
| Reverted (name : string).

Global Instance event_eq_dec : EqDecision event.
Proof. solve_decision. Defined.

(** Modelled from the spec: the Pipeline Record, the State Store and the
    Pipeline Runner are not among the sources.  The definitions below
    follow sections 3, 4.1 and 4.2 of the specification: the record holds
    the overall status and one phase entry per action name; the runner
    advances by load-mutate-save cycles, one per phase transition; a
    process is a series of such cycles that ends at the reboot boundary, at
    a terminal status, or when it is killed after a save.  Run identifier
    and timestamps of the record play no part in sequencing and are not
    represented. *)
Record entry : Type := Entry { required : option bool; phase : Phase.t }.

Record PipelineRecord : Type := mkRecord {
  status : Status.t;
  entries : gmap string entry;
  (** names of the actions whose [revert()] failed *)
  revert_failures : list string
}.

Section Pipeline.
Context {World : Type}.

(** The Action contract of section 6 of the specification. *)
Record CheckAction : Type := mkCheck {
  c_name : string;
  c_description : string;
  c_check : World -> result bool * World
}.

Record ActiveAction : Type := mkActive {
  a_name : string;
  a_is_required : World -> bool;
  a_prepare : World -> result unit * World;
  a_post : World -> result unit * World;
  a_revert : World -> result unit * World
}.

Inductive Action : Type :=
| Check (c : CheckAction)
| Active (a : ActiveAction).

Definition checks (actions : list Action) : list CheckAction :=
  omap (fun x => match x with Check c => Some c | Active _ => None end) actions.

Definition actives (actions : list Action) : list ActiveAction :=
  omap (fun x => match x with Active a => Some a | Check _ => None end) actions.

(** The persisted record, the host, and the invocations made so far. *)
Record Sys : Type := mkSys {
  store : option PipelineRecord;
  world : World;
  log : list event
}.

Definition fresh (w : World) : Sys := mkSys None w [].

Definition phase_of (r : PipelineRecord) (name : string) : Phase.t :=
  match entries r !! name with
  | Some e => phase e
  | None => Phase.pending
  end.

Definition set_status (st : Status.t) (r : PipelineRecord) : PipelineRecord :=
  mkRecord st (entries r) (revert_failures r).

Definition set_entry (name : string) (e : entry) (r : PipelineRecord)
    : PipelineRecord :=
  mkRecord (status r) (<[name := e]> (entries r)) (revert_failures r).

Definition add_revert_failure (name : string) (r : PipelineRecord)
    : PipelineRecord :=
  mkRecord (status r) (entries r) (revert_failures r ++ [name]).

(** Run the Check actions in list order up to the first that fails. *)
Fixpoint run_checks (cs : list CheckAction) (w : World)
    : bool * World * list event :=
  match cs with
  | [] => (true, w, [])
  | c :: rest =>
      match c_check c w with
      | (Ok true, w') =>
          let '(verdict, w'', evs) := run_checks rest w' in
          (verdict, w'', Checked (c_name c) :: evs)
      | (_, w') => (false, w', [Checked (c_name c)])
      end
  end.

Definition unrecorded (r : PipelineRecord) (a : ActiveAction) : bool :=
  match entries r !! a_name a with
  | Some _ => false
  | None => true
  end.

Definition awaits_post (r : PipelineRecord) (a : ActiveAction) : bool :=
  bool_decide (phase_of r (a_name a) = Phase.prepare_done).

Definition awaits_revert (r : PipelineRecord) (a : ActiveAction) : bool :=
  Phase.revertible (phase_of r (a_name a)).

Definition first_that (P : ActiveAction -> bool) (l : list ActiveAction)
    : option ActiveAction :=
  List.find P l.

(** One load-mutate-save cycle.  [None]: the status is terminal and
    nothing is left to do. *)
Definition transition (actions : list Action) (s : Sys) : option Sys :=
  match store s with
  | None =>
      Some (mkSys (Some (mkRecord Status.not_started ∅ [])) (world s) (log s))
  | Some r =>
      match status r with
      | Status.not_started =>
          Some (mkSys (Some (set_status Status.checking r)) (world s) (log s))
      | Status.checking =>
          let '(verdict, w, evs) := run_checks (checks actions) (world s) in
          let next := if verdict then Status.preparing else Status.failed in
          Some (mkSys (Some (set_status next r)) w (log s ++ evs))
      | Status.preparing =>
          match first_that (unrecorded r) (actives actions) with
          | None =>
              Some (mkSys (Some (set_status Status.awaiting_external_conversion r))
                          (world s) (log s))
          | Some a =>
              if a_is_required a (world s) then
                match a_prepare a (world s) with
                | (Ok _, w) =>
                    Some (mkSys
                            (Some (set_entry (a_name a)
                                     (Entry (Some true) Phase.prepare_done) r))
                            w (log s ++ [Prepared (a_name a)]))
                | (Raise _, w) =>
                    Some (mkSys
                            (Some (set_status Status.reverting
                                     (set_entry (a_name a)
                                        (Entry (Some true) Phase.failed) r)))
                            w (log s ++ [Prepared (a_name a)]))
                end
              else
                Some (mkSys
                        (Some (set_entry (a_name a)
                                 (Entry (Some false) Phase.post_done) r))
                        (world s) (log s))
          end
      | Status.awaiting_external_conversion | Status.resuming =>
          Some (mkSys (Some (set_status Status.posting r)) (world s) (log s))
      | Status.posting =>
          match first_that (awaits_post r) (actives actions) with
          | None =>
              Some (mkSys (Some (set_status Status.completed r)) (world s) (log s))
          | Some a =>
              match a_post a (world s) with
              | (Ok _, w) =>
                  Some (mkSys
                          (Some (set_entry (a_name a)
                                   (Entry (Some true) Phase.post_done) r))
                          w (log s ++ [Posted (a_name a)]))
              | (Raise _, w) =>
                  Some (mkSys
                          (Some (set_status Status.reverting
                                   (set_entry (a_name a)
                                      (Entry (Some true) Phase.failed) r)))
                          w (log s ++ [Posted (a_name a)]))
              end
          end
      | Status.reverting =>
          match first_that (awaits_revert r) (rev (actives actions)) with
          | None =>
              let final := match revert_failures r with
                           | [] => Status.reverted
                           | _ => Status.failed
                           end in
              Some (mkSys (Some (set_status final r)) (world s) (log s))
          | Some a =>
              let req := match entries r !! a_name a with
                         | Some e => required e
                         | None => None
                         end in
              match a_revert a (world s) with
              | (Ok _, w) =>
                  Some (mkSys
                          (Some (set_entry (a_name a) (Entry req Phase.reverted) r))
                          w (log s ++ [Reverted (a_name a)]))
              | (Raise _, w) =>
                  Some (mkSys
                          (Some (add_revert_failure (a_name a)
                                   (set_entry (a_name a) (Entry req Phase.failed) r)))
                          w (log s ++ [Reverted (a_name a)]))
              end
          end
      | Status.completed | Status.failed | Status.reverted => None
      end
  end.

Definition at_reboot_boundary (s : Sys) : bool :=
  match store s with
  | Some r => bool_decide (status r = Status.awaiting_external_conversion)
  | None => false
  end.

(** One process: it loads the record and runs cycles until it reaches
    the reboot boundary or a terminal status, or is killed right after
    its [saves]-th save. *)
Fixpoint invocation (actions : list Action) (saves : nat) (s : Sys) : Sys :=
  match saves with
  | O => s
  | S k =>
      match transition actions s with
      | None => s
      | Some s' =>
          if at_reboot_boundary s' then s' else invocation actions k s'
      end
  end.

(** A series of processes, each killed after the given number of saves
    and followed by a resumption from the persisted record. *)
Definition run_schedule (actions : list Action) (schedule : list nat) (s : Sys)
    : Sys :=
  fold_left (fun s saves => invocation actions saves s) schedule s.

(** The plain succession of cycles, without process boundaries. *)
Fixpoint cycles (actions : list Action) (n : nat) (s : Sys) : Sys :=
  match n with
  | O => s
  | S k =>
      match transition actions s with
      | None => s
      | Some s' => cycles actions k s'
      end
  end.

Definition recorded_phase (s : Sys) (name : string) : Phase.t :=
  match store s with
  | Some r => phase_of r name
  | None => Phase.pending
  end.

(** Names on which [revert()] was invoked, in order of invocation. *)
Definition reverts (l : list event) : list string :=
  omap (fun e => match e with Reverted n => Some n | _ => None end) l.


(** What the prepare phase amounts to over the Active actions [l] from the
    world [w]: the world it leaves when every [prepare()] it invokes
    succeeds, and the invocations it makes. *)
Fixpoint prepare_all (l : list ActiveAction) (w : World) : option World :=
  match l with
  | [] => Some w
  | a :: rest =>
      if a_is_required a w then
        match a_prepare a w with
        | (Ok _, w') => prepare_all rest w'
        | (Raise _, _) => None
        end
      else prepare_all rest w
  end.

Fixpoint prepared_log (l : list ActiveAction) (w : World) : list event :=
  match l with
  | [] => []
  | a :: rest =>
      if a_is_required a w
      then Prepared (a_name a) :: prepared_log rest (snd (a_prepare a w))
      else prepared_log rest w
  end.

(** [revert()] of each action of [l] in turn, whatever each answers. *)
Fixpoint revert_all (l : list ActiveAction) (w : World) : World :=
  match l with
  | [] => w
  | a :: rest => revert_all rest (snd (a_revert a w))
  end.

End Pipeline.

Arguments CheckAction : clear implicits.
Arguments ActiveAction : clear implicits.
Arguments Action : clear implicits.
Arguments Sys : clear implicits.

(** ** Notions used to state the properties: versions *)

(** The numbers a dot-separated version string denotes, and the strings
    made of non-empty runs of digits only. *)
Definition components (v : string) : list Z := map Str.decimal (Str.split "." v).

Definition numeric_version (v : string) : bool := forallb Str.numeric (Str.split "." v).

(** [a] against [b] component by component from the left, over the
    positions both have. *)
Fixpoint lex_greater (a b : list Z) : bool :=
  match a, b with
  | x :: a', y :: b' =>
      if x >? y then true else if y >? x then false else lex_greater a' b'
  | _, _ => false
  end.

(** Comparison of two versions as numbers, component by component from the
    left, a missing trailing component counting as zero. *)
Definition zero_padded (n : nat) (l : list Z) : list Z := l ++ repeat 0 (n - length l)%nat.

Definition numerically_greater (a b : list Z) : bool :=
  let n := Nat.max (length a) (length b) in
  lex_greater (zero_padded n a) (zero_padded n b).

(** [a] is greater than [b] at the first position where both have a
    component and the components differ. *)
Definition greater_at_first_difference (a b : list Z) : Prop :=
  exists (i : nat) (x y : Z),
    a !! i = Some x /\ b !! i = Some y /\ y < x /\ take i a = take i b.

(** ** Notions used to state the properties: effects on the host *)

(** A computation that leaves the host as it found it. *)
Definition readonly {A} (m : M A) : Prop := forall h, snd (m h) = h.

(** Every computation [m] takes a host to one related to it by [R]. *)
Definition preserves {A} (R : Host -> Host -> Prop) (m : M A) : Prop :=
  forall h, R h (snd (m h)).

(** The most [AssertPostgresLocaleMatchesSystemOne] changes when its
    configuration file is [p]: files other than [p] and its backup keep
    their content, units other than postgresql keep their state, and every
    unit keeps its enabled flag. *)
Definition same_but (p : string) (h h' : Host) : Prop :=
  (forall q, q <> p -> q <> Files.bak p -> fs h' !! q = fs h !! q)
  /\ (forall u, u <> "postgresql" -> units h' !! u = units h !! u)
  /\ (forall u, enabled <$> units h' !! u = enabled <$> units h !! u).

Definition keeps_backup (p : string) (h h' : Host) : Prop :=
  fs h' !! Files.bak p = fs h !! Files.bak p.

Definition same_units (h h' : Host) : Prop := units h' = units h.

Definition same_fs (h h' : Host) : Prop := fs h' = fs h.


(** ** Notions used to state the properties: PostgreSQL flag files *)

(** The flag file and the unit of a PostgreSQL major version on a host,
    and what the host says about them. *)
Definition flag_path (h : Host) (major_version : Z) : string :=
  PostgresReinstallModernPackage.version_enabled_path
    (get_pgsql_root_path (postgres h)) major_version.

Definition flagged (h : Host) (major_version : Z) : bool :=
  match fs h !! flag_path h major_version with
  | Some _ => true
  | None => false
  end.

(** The entry at [p], if any, is not a symbolic link. *)
Definition not_a_link (h : Host) (p : string) : Prop :=
  forall target, fs h !! p <> Some (Symlink target).

Definition service_active (h : Host) (service : string) : bool :=
  match units h !! service with
  | Some u => active u
  | None => false
  end.

(** ** Notions used to state the properties: the pipeline *)


(** The phase entries of the persisted record, none before the record
    exists. *)
Definition recorded_entries {World} (s : Sys World) : gmap string entry :=
  match store s with
  | Some r => entries r
  | None => ∅
  end.

Definition is_checked (e : event) : bool :=
  match e with Checked _ => true | _ => false end.


(** The prepare phase, entered on the world [w1] with the log [evs], has
    dealt with the actions [done], all now recorded [prepare_done] or
    [post_done], and with no other: the world and the log are those of the
    prepare phase over [done]. *)
Definition preparing_upto {World} (w1 : World) (evs : list event)
    (done : list (ActiveAction World)) (s : Sys World) : Prop :=
  exists r,
    store s = Some r
    /\ status r = Status.preparing
    /\ revert_failures r = []
    /\ (forall a, a ∈ done -> Phase.revertible (phase_of r (a_name a)) = true)
    /\ (forall name, name ∉ map a_name done -> entries r !! name = None)
    /\ prepare_all done w1 = Some (world s)
    /\ log s = (evs ++ prepared_log done w1)%list.

(** The revert path, entered on the world [wf] with the log [pre] after
    the action named [failed] failed, has [todo] left to revert and has
    invoked [revert()] on [undone], last first; the actions named in
    [pending] have no entry. *)
Definition reverting_down {World} (pre : list event) (wf : World) (failed : string)
    (pending : list string) (todo undone : list (ActiveAction World))
    (s : Sys World) : Prop :=
  exists r,
    store s = Some r
    /\ status r = Status.reverting
    /\ (forall a, a ∈ todo -> Phase.revertible (phase_of r (a_name a)) = true)
    /\ (forall name, name ∉ map a_name todo ->
        Phase.revertible (phase_of r name) = false)
    /\ phase_of r failed = Phase.failed
    /\ (forall name, name ∈ pending -> entries r !! name = None)
    /\ world s = revert_all (rev undone) wf
    /\ log s = (pre ++ map Reverted (rev (map a_name undone)))%list.

Definition terminal {World} (s : Sys World) : Prop :=
  exists r, store s = Some r
            /\ (status r = Status.reverted \/ status r = Status.failed).


Definition before_preparing (st : Status.t) : bool :=
  match st with
  | Status.not_started | Status.checking => true
  | _ => false
  end.

(** The run started on the world [w] has invoked nothing yet, or it has
    run the checks first: its log begins with their invocations, any
    operation of an Active action comes after them and only if they all
    passed, and as long as there is none the world is as the checks left
    it. *)
Definition checks_first {World} (actions : list (Action World)) (w : World)
    (s : Sys World) : Prop :=
  let '(verdict, w', evs) := run_checks (checks actions) w in
  (log s = [] /\ world s = w
   /\ match store s with
      | Some r => before_preparing (status r) = true
      | None => True
      end)
  \/ (exists r rest,
        store s = Some r
        /\ before_preparing (status r) = false
        /\ log s = (evs ++ rest)%list
        /\ forallb (fun e => negb (is_checked e)) rest = true
        /\ (rest = [] -> world s = w')
        /\ (verdict = false -> rest = [] /\ status r = Status.failed)).

(** ** Hosts used in examples *)

Definition bare_postgres : postgres_info :=
  PostgresInfo false false 0 "/var/lib/pgsql" "/var/lib/pgsql/data" None.

(** A host with no files, units or programs. *)
Definition bare_host : Host :=
  mkHost ∅ ∅ (EmptyString, EmptyString, EmptyString) "en_US.UTF-8" ∅ [] [] bare_postgres.

Definition with_programs (table : gmap (list string) (Z * string)) (h : Host) : Host :=
  mkHost (fs h) (units h) (linux_distribution h) (python_locale h)
         table (broken h) (journal h) (postgres h).

Definition with_distribution (distro : string * string * string) (h : Host) : Host :=
  mkHost (fs h) (units h) distro (python_locale h)
         (programs h) (broken h) (journal h) (postgres h).

Definition mk_files_units (files : gmap string node) (us : gmap string unit_state) : Host :=
  mkHost files us (EmptyString, EmptyString, EmptyString) "en_US.UTF-8" ∅ [] [] bare_postgres.

(** [plesk version] answering with a product version line. *)
Definition plesk_host (version : string) : Host :=
  with_programs
    {[ ["plesk"; "version"] :=
         (0, "Product version: Plesk Obsidian " ++ version ++ Str.nl
             ++ "     OS version: CentOS 7.9.2009 x86_64" ++ Str.nl) ]}
    bare_host.

(** MariaDB 5.5 as CentOS 7 ships it, reached through the [mysql] client. *)
Definition mariadb55_host : Host :=
  with_programs
    {[ ["which"; "mariadb"] := (1, EmptyString);
       ["which"; "mysql"] := (0, "/usr/bin/mysql" ++ Str.nl);
       ["mysql"; "--version"] :=
         (0, "mysql  Ver 15.1 Distrib 5.5.68-MariaDB, for Linux (x86_64) using readline 5.1"
             ++ Str.nl) ]}
    bare_host.

(** A host on which [lsmod] exits with status 1 and prints nothing. *)
Definition lsmod_failing_host : Host :=
  with_programs {[ ["lsmod"] := (1, EmptyString) ]} bare_host.

(** A host on which [lsmod] lists a loaded floppy module and [rmmod]
    fails. *)
Definition rmmod_failing_host : Host :=
  mkHost ∅ ∅ (EmptyString, EmptyString, EmptyString) "en_US.UTF-8"
    {[ ["lsmod"] :=
         (0, "Module                  Size  Used by" ++ Str.nl
             ++ "floppy                 69432  0" ++ Str.nl) ]}
    [ ["rmmod"; "floppy"] ] [] bare_postgres.

(** A host as installed: no /etc/named-user-options.conf, SELinux
    enforcing, SpamAssassin enabled and running. *)
Definition stock_host : Host :=
  mk_files_units
    {[ "/etc/selinux/config" :=
         RegularFile ("SELINUX=enforcing" ++ Str.nl ++ "SELINUXTYPE=targeted" ++ Str.nl) ]}
    {[ "spamassassin.service" := UnitState true true ]}.



(** A PostgreSQL server that is enabled but not running, with the locale
    of its databases equal to the system one. *)
Definition postgres_stopped_host : Host :=
  mkHost
    {[ "/var/lib/pgsql/data/pg_hba.conf" :=
         RegularFile ("local all all peer" ++ Str.nl);
       "/etc/locale.conf" := RegularFile ("LANG=en_US.UTF-8" ++ Str.nl) ]}
    {[ "postgresql" := UnitState true false ]}
    ("CentOS Linux", "7.9.2009", "Core") "en_US.UTF-8"
    {[ AssertPostgresLocaleMatchesSystemOne.cmd :=
         (0, " en_US.UTF-8 en_US.UTF-8" ++ Str.nl) ]}
    [] []
    (PostgresInfo true true 9 "/var/lib/pgsql" "/var/lib/pgsql/data" (Some ["data"])).

(** PostgreSQL 12 from the PGDG repository, running, next to a stopped
    PostgreSQL 10. *)
Definition postgres12_host : Host :=
  mkHost ∅
    {[ "postgresql-12" := UnitState true true;
       "postgresql-10" := UnitState false false ]}
    ("CentOS Linux", "7.9.2009", "Core") "en_US.UTF-8" ∅ [] []
    (PostgresInfo true true 12 "/var/lib/pgsql" "/var/lib/pgsql/12/data"
       (Some ["10"; "12"; "backups"])).

(** ** Pipelines used in examples *)

(** Sample actions over a world that notes which operations ran. *)
Definition noting (tag : string) (w : list string) : result unit * list string :=
  (Ok tt, (w ++ [tag])%list).

Definition refusing (tag : string) (w : list string) : result unit * list string :=
  (Raise (Exception tag), (w ++ [tag])%list).

Definition sample_active (name : string) (is_required prepare_fails : bool)
    : ActiveAction (list string) :=
  mkActive name (fun _ => is_required)
    (if prepare_fails then refusing (name ++ ".prepare") else noting (name ++ ".prepare"))
    (noting (name ++ ".post"))
    (noting (name ++ ".revert")).

Definition sample_check (name : string) (verdict : bool) : CheckAction (list string) :=
  mkCheck name ("failed: " ++ name) (fun w => (Ok verdict, w)).

(** The two scenarios of section 8 of the specification. *)
Definition scenario_skip : list (Action (list string)) :=
  [Check (sample_check "CheckA" true);
   Active (sample_active "ActiveB" false false);
   Active (sample_active "ActiveC" true false)].

Definition scenario_fail : list (Action (list string)) :=
  [Active (sample_active "ActiveX" true false);
   Active (sample_active "ActiveY" true true)].

(** A check, an action that prepares, one that is not required, one
    whose [prepare()] fails only on a world the first has prepared, and one
    more after it. *)
Definition fails_after (tag : string) (name : string) : ActiveAction (list string) :=
  mkActive name (fun _ => true)
    (fun w => if bool_decide (tag ∈ w) then refusing (name ++ ".prepare") w
              else noting (name ++ ".prepare") w)
    (noting (name ++ ".post"))
    (noting (name ++ ".revert")).

Definition scenario_dependent : list (Action (list string)) :=
  [Check (sample_check "CheckA" true);
   Active (sample_active "ActiveX" true false);
   Active (sample_active "ActiveN" false false);
   Active (fails_after "ActiveX.prepare" "ActiveY");
   Active (sample_active "ActiveZ" true false)].

(** ** Further code of src/actions/mariadb.py *)

Definition _is_mysql_installed : M bool :=
  let! util := _get_mariadb_utilname in
  match util with
  | None => M.ret false
  | Some util =>
      if (util =? "mariadb")%string then M.ret false
      else
        let! process := Os.subprocess_run [util; "--version"] in
        if negb (fst process =? 0) then M.ret false
        else M.ret (negb (Str.contains "MariaDB" (snd process)))
  end.

Module AddMysqlConnector.
Definition name : string := "install mysql connector".

Definition _is_required : M bool := _is_mysql_installed.

Definition _prepare_action : M unit := M.ret tt.

Definition _post_action : M unit :=
  Os.check_call ["dnf"; "install"; "-y"; "mariadb-connector-c"].

Definition _revert_action : M unit := M.ret tt.
End AddMysqlConnector.

(** ** Further code of src/actions/common.py: the login messages *)

Definition message_rule : string :=
  "===============================================================================".

Module AddFinishSshLoginMessage.
Definition name : string := "add finish ssh login message".
Definition motd_path : string := "/etc/motd".

Definition finish_message : string :=
  Str.nl ++ message_rule ++ Str.nl
  ++ "Message from Plesk distupgrade tool:" ++ Str.nl
  ++ "The server has been converted to AlmaLinux 8." ++ Str.nl
  ++ "You can remove this message from the /etc/motd file." ++ Str.nl
  ++ message_rule ++ Str.nl.

Definition _prepare_action : M unit := M.ret tt.

Definition _post_action : M unit :=
  Files.restore_file_from_backup motd_path >>
  Os.append_text motd_path finish_message.

Definition _revert_action : M unit := M.ret tt.
End AddFinishSshLoginMessage.

Module AddInProgressSshLoginMessage.
Definition name : string := "add in progress ssh login message".
Definition motd_path : string := "/etc/motd".

(** [path_to_script] is [os.path.abspath(sys.argv[0])], fixed when the
    action is constructed. *)
Definition in_progress_message (path_to_script : string) : string :=
  Str.nl ++ message_rule ++ Str.nl
  ++ "Message from Plesk distupgrade tool:" ++ Str.nl
  ++ "The server is being converted to AlmaLinux 8. Please wait." ++ Str.nl
  ++ "To see the current conversion status, run the '" ++ path_to_script
  ++ " --status' command." ++ Str.nl
  ++ "To monitor the conversion progress in real time, run the '" ++ path_to_script
  ++ " --monitor' command." ++ Str.nl
  ++ message_rule ++ Str.nl.

Definition _prepare_action (path_to_script : string) : M unit :=
  Files.backup_file motd_path >>
  Os.append_text motd_path (in_progress_message path_to_script).

Definition _post_action : M unit := M.ret tt.

Definition _revert_action : M unit := Files.restore_file_from_backup motd_path.
End AddInProgressSshLoginMessage.

(** ** Notions and hosts used for the further properties *)

(** The text of a regular file, empty when there is no such file. *)
Definition file_text (h : Host) (p : string) : string :=
  match fs h !! p with
  | Some (RegularFile text) => text
  | _ => EmptyString
  end.

(** The two strings have different characters at a position both have. *)
Fixpoint differs (a b : string) : bool :=
  match a, b with
  | String x a', String y b' => if Ascii.eqb x y then differs a' b' else true
  | _, _ => false
  end.

(** MySQL 5.7 from the Oracle repository: no [mariadb] client, and a
    banner that does not mention MariaDB. *)
Definition mysql57_host : Host :=
  with_programs
    {[ ["which"; "mariadb"] := (1, EmptyString);
       ["which"; "mysql"] := (0, "/usr/bin/mysql" ++ Str.nl);
       ["mysql"; "--version"] :=
         (0, "mysql  Ver 14.14 Distrib 5.7.44, for Linux (x86_64) using  EditLine wrapper"
             ++ Str.nl) ]}
    bare_host.

(** MariaDB 11 with its [mariadb] client, whose banner has no
    "Distrib" field. *)
Definition mariadb11_host : Host :=
  with_programs
    {[ ["which"; "mariadb"] := (0, "/usr/bin/mariadb" ++ Str.nl);
       ["mariadb"; "--version"] :=
         (0, "mariadb from 11.4.2-MariaDB, client 15.2 for Linux (x86_64) using readline 5.1"
             ++ Str.nl) ]}
    bare_host.

(** The pieces [s.split(sep)] gives from [s] on, with [cur] the part of the
    current piece already read. *)
Definition splits (sep cur s : string) : list string :=
  Str.split_str_go (S (String.length s)) sep cur s.

(** The lines [DisableSuspiciousKernelModules._prepare_action] appends to
    its configuration file, and what is left of them once the three
    "blacklist <module>" strings are replaced by nothing. *)
Definition blacklist_lines : string :=
  "blacklist pata_acpi" ++ Str.nl ++ "blacklist btrfs" ++ Str.nl
  ++ "blacklist floppy" ++ Str.nl.

Definition blank_lines : string := Str.nl ++ Str.nl ++ Str.nl.

(** A host with a module configuration of the administrator's own, on
    which [lsmod] lists a loaded floppy module. *)
Definition modules_host : Host :=
  mkHost
    {[ "/etc/modprobe.d/pataacpibl.conf" := RegularFile ("options floppy floppy=0" ++ Str.nl) ]}
    ∅ (EmptyString, EmptyString, EmptyString) "en_US.UTF-8"
    {[ ["lsmod"] :=
         (0, "Module                  Size  Used by" ++ Str.nl
             ++ "floppy                 69432  0" ++ Str.nl
             ++ "ext4                  579979  1" ++ Str.nl) ]}
    [] [] bare_postgres.

(** What the host answers to programs run for their output and to
    [locale.getlocale] is the same on both hosts. *)
Definition same_answers (h h' : Host) : Prop :=
  programs h' = programs h /\ python_locale h' = python_locale h.

(** A host with a message of the day of the administrator's own. *)
Definition motd_host : Host :=
  mk_files_units {[ "/etc/motd" := RegularFile ("Authorized use only." ++ Str.nl) ]} ∅.

(** A host with a PostgreSQL server that is enabled and running. *)
Definition postgres_running_host : Host :=
  mk_files_units ∅ {[ "postgresql" := UnitState true true;
                      "spamassassin.service" := UnitState true true ]}.

(** A MariaDB server whose unit is stopped, on a host without the Plesk
    password file. *)
Definition mariadb_stopped_host : Host :=
  mk_files_units ∅ {[ "mariadb" := UnitState true false ]}.

(** * Properties *)

(** ** Strings *)

Module StrFacts.

Example split_version : Str.split "." "10.3.35" = ["10"; "3"; "35"].
Proof. reflexivity. Qed.

Example split_empty : Str.split "." EmptyString = [EmptyString].
Proof. reflexivity. Qed.

Example split_ws_line :
  Str.split_ws "Product version:   Plesk Obsidian 18.0.43.0 "
  = ["Product"; "version:"; "Plesk"; "Obsidian"; "18.0.43.0"].
Proof. reflexivity. Qed.

Example splitlines_endings :
  Str.splitlines ("a" ++ Str.nl ++ String "013" Str.nl ++ "b" ++ Str.nl)
  = ["a"; EmptyString; "b"].
Proof. reflexivity. Qed.

Example int_accepts :
  Str.int "007" = Ok 7 /\ Str.int " -1_0 " = Ok (-10) /\ Str.int "+3" = Ok 3.
Proof. repeat split. Qed.

Example int_rejects :
  Str.int EmptyString = Raise ValueError /\ Str.int "x" = Raise ValueError
  /\ Str.int "1__0" = Raise ValueError /\ Str.int "7.9" = Raise ValueError.
Proof. repeat split. Qed.

Example replace_all :
  Str.replace "ab" "c" "abxabab" = "cxcc" /\ Str.replace "aa" "b" "aaa" = "ba".
Proof. split; reflexivity. Qed.

Example module_name_of_line :
  Str.slice_to (Str.find_char " " "floppy  69432  0") "floppy  69432  0" = "floppy"
  /\ Str.slice_to (Str.find_char " " "floppy") "floppy" = "flopp".
Proof. split; reflexivity. Qed.

Example distrib_version_of_banner :
  distrib_version
    "mysql  Ver 15.1 Distrib 5.5.68-MariaDB, for Linux (x86_64) using readline 5.1"
  = Ok "5.5.68".
Proof. reflexivity. Qed.

Lemma digit_not_space c : Str.is_digit c = true -> Str.is_space c = false.
Proof.
  destruct c as [[] [] [] [] [] [] [] []]; vm_compute; congruence.
Qed.

Lemma lstrip_digits s : Str.all_digits s = true -> Str.lstrip s = s.
Proof.
  destruct s as [|c s]; [reflexivity|]. simpl.
  intros [Hc _]%andb_prop. by rewrite (digit_not_space c Hc).
Qed.

Lemma rstrip_digits s : Str.all_digits s = true -> Str.rstrip s = s.
Proof.
  induction s as [|c s IH]; [reflexivity|]. simpl.
  intros [Hc Hs]%andb_prop. rewrite (IH Hs).
  destruct s; [by rewrite (digit_not_space c Hc) | reflexivity].
Qed.

Lemma strip_digits s : Str.all_digits s = true -> Str.strip s = s.
Proof.
  intros H. unfold Str.strip. rewrite (lstrip_digits s H). by apply rstrip_digits.
Qed.

Lemma digits_go_digits s acc :
  Str.all_digits s = true -> Str.digits_go acc true s = Some (Str.decimal_go acc s).
Proof.
  revert acc. induction s as [|c s IH]; intros acc; [reflexivity|]. simpl.
  intros [Hc Hs]%andb_prop. rewrite Hc. by apply IH.
Qed.

(** On a non-empty string of digits [int] returns the number the digits
    denote. *)
Lemma int_numeric s : Str.numeric s = true -> Str.int s = Ok (Str.decimal s).
Proof.
  unfold Str.numeric. intros [Hne Hd]%andb_prop.
  unfold Str.int. rewrite (strip_digits s Hd).
  destruct s as [|c s]; [discriminate|].
  simpl in Hd. apply andb_prop in Hd as [Hc Hs].
  assert (Hgo : Str.digits_go 0 false (String c s) = Some (Str.decimal (String c s))).
  { simpl. rewrite Hc. unfold Str.decimal. simpl. by apply digits_go_digits. }
  destruct c as [[] [] [] [] [] [] [] []]; try discriminate Hc;
    by rewrite Hgo.
Qed.

Lemma decimal_go_nonneg s acc : 0 <= acc -> Str.all_digits s = true -> 0 <= Str.decimal_go acc s.
Proof.
  revert acc. induction s as [|c s IH]; intros acc Hacc; [done|]. simpl.
  intros [Hc Hs]%andb_prop. apply IH; [|done].
  assert (0 <= Str.digit_value c); [|lia].
  destruct c as [[] [] [] [] [] [] [] []]; try discriminate Hc; vm_compute; congruence.
Qed.

End StrFacts.

(** ** Read-only computations *)

Lemma readonly_ret {A} (a : A) : readonly (M.ret a).
Proof. by intros h. Qed.

Lemma readonly_raise {A} e : readonly (@M.raise A e).
Proof. by intros h. Qed.

Lemma readonly_lift {A} (r : result A) : readonly (M.lift r).
Proof. by intros h. Qed.

Lemma readonly_gets {A} (f : Host -> A) : readonly (M.gets f).
Proof. by intros h. Qed.

Lemma readonly_bind {A B} (m : M A) (k : A -> M B) :
  readonly m -> (forall a, readonly (k a)) -> readonly (M.bind m k).
Proof.
  intros Hm Hk h. unfold M.bind. specialize (Hm h).
  destruct (m h) as [[a|e] h1]; simpl in *; subst h1; [apply Hk | done].
Qed.

Lemma readonly_subprocess_run argv : readonly (Os.subprocess_run argv).
Proof. intros h. unfold Os.subprocess_run. by destruct (programs h !! argv). Qed.

Lemma readonly_if {A} (b : bool) (m1 m2 : M A) :
  readonly m1 -> readonly m2 -> readonly (if b then m1 else m2).
Proof. by destruct b. Qed.

Create HintDb readonly.
#[export] Hint Resolve readonly_ret readonly_raise readonly_lift readonly_gets
  readonly_subprocess_run : readonly.

Ltac readonly :=
  repeat first
    [ solve [eauto with readonly]
    | apply readonly_bind; [|intros ?]
    | apply readonly_if
    | match goal with |- readonly (match ?x with _ => _ end) => destruct x end ].

(** What a read-only computation answers determines the whole outcome. *)
Lemma readonly_run {A} (m : M A) h : readonly m -> m h = (fst (m h), h).
Proof. intros Hm. specialize (Hm h). destruct (m h); simpl in *; by subst. Qed.

Lemma readonly_which_first utils : readonly (which_first utils).
Proof. induction utils as [|u utils IH]; simpl; readonly. Qed.

Lemma readonly_get_mariadb_utilname : readonly _get_mariadb_utilname.
Proof. apply readonly_which_first. Qed.

Lemma readonly_is_mariadb_installed : readonly _is_mariadb_installed.
Proof.
  unfold _is_mariadb_installed. pose proof readonly_get_mariadb_utilname. readonly.
Qed.

Lemma readonly_get_mariadb_version : readonly _get_mariadb_version.
Proof.
  unfold _get_mariadb_version. pose proof readonly_get_mariadb_utilname. readonly.
Qed.

(** ** Version comparison (src/actions/mariadb.py) *)

Lemma loop_numeric la lb :
  forallb Str.numeric la = true -> forallb Str.numeric lb = true ->
  version_larger_loop (combine la lb)
  = Ok (lex_greater (map Str.decimal la) (map Str.decimal lb)).
Proof.
  revert lb. induction la as [|a la IH]; intros [|b lb]; simpl; try done.
  intros [Ha Hla]%andb_prop [Hb Hlb]%andb_prop.
  rewrite (StrFacts.int_numeric a Ha), (StrFacts.int_numeric b Hb). simpl.
  destruct (Str.decimal a >? Str.decimal b); [done|].
  destruct (Str.decimal b >? Str.decimal a); [done|].
  by apply IH.
Qed.

Lemma lex_greater_first_difference a b :
  lex_greater a b = true <-> greater_at_first_difference a b.
Proof.
  split.
  - revert b. induction a as [|x a IH]; intros [|y b]; simpl; try done.
    destruct (Z.gtb_spec x y) as [Hxy|Hxy].
    { intros _. exists 0%nat, x, y. repeat split; simpl; auto; lia. }
    destruct (Z.gtb_spec y x) as [Hyx|Hyx]; [done|].
    intros (i & x' & y' & Hx & Hy & Hlt & Htake)%IH.
    exists (S i), x', y'. repeat split; simpl; auto.
    f_equal; [lia | done].
  - intros (i & x' & y' & Hx & Hy & Hlt & Htake).
    revert a b Hx Hy Htake. induction i as [|i IH]; intros [|x a] [|y b]; simpl; try done.
    + intros [= ->] [= ->] _. destruct (Z.gtb_spec x' y'); [done | lia].
    + intros Hx Hy [= -> Htake].
      destruct (Z.gtb_spec y y); [lia|]. by apply IH.
Qed.

Lemma lex_greater_irrefl a : lex_greater a a = false.
Proof.
  induction a as [|x a IH]; simpl; [done|].
  destruct (Z.gtb_spec x x); [lia | done].
Qed.

Lemma numerically_greater_same_length a b :
  length a = length b -> numerically_greater a b = lex_greater a b.
Proof.
  intros Hlen. unfold numerically_greater, zero_padded.
  rewrite <- Hlen, Nat.max_id, Nat.sub_diag. simpl. by rewrite !app_nil_r.
Qed.

(** Asymmetry needs nothing of the strings: the first pair that decides
    one call decides the other. *)
Lemma loop_asymmetric la lb :
  version_larger_loop (combine la lb) = Ok true ->
  version_larger_loop (combine lb la) = Ok false.
Proof.
  revert lb. induction la as [|a la IH]; intros [|b lb]; simpl; try done.
  destruct (Str.int a) as [x|]; simpl; [|done].
  destruct (Str.int b) as [y|]; simpl; [|done].
  destruct (Z.gtb_spec x y) as [Hxy|Hxy].
  - intros _. destruct (Z.gtb_spec y x); [lia | done].
  - destruct (Z.gtb_spec y x) as [Hyx|Hyx]; [done|]. by apply IH.
Qed.

Lemma mariadb_on_alma_numeric : numeric_version MARIADB_VERSION_ON_ALMA = true.
Proof. reflexivity. Qed.

(** C8 (as amended): on dot-separated numeric version strings
    [_is_version_larger a b] returns, and returns True exactly when [a] has
    the greater number at the first position where components of both
    differ; components beyond the shorter version are never looked at.
    For versions with equally many components this is the numeric
    comparison.  The function is irreflexive and asymmetric, and for an
    installed MariaDB with a numeric version exactly one of
    [AvoidMariadbDowngrade._is_required] and
    [UpdateMariadbDatabase._is_required] answers True. *)
Theorem is_version_larger_common_prefix (a b : string) :
  numeric_version a = true -> numeric_version b = true ->
  (exists r, _is_version_larger a b = Ok r
             /\ (r = true <-> greater_at_first_difference (components a) (components b)))
  /\ (length (components a) = length (components b) ->
      _is_version_larger a b = Ok (numerically_greater (components a) (components b)))
  /\ _is_version_larger a a = Ok false
  /\ (_is_version_larger a b = Ok true -> _is_version_larger b a = Ok false)
  /\ (forall h, fst (_is_mariadb_installed h) = Ok true ->
                fst (_get_mariadb_version h) = Ok b ->
                exists x, fst (AvoidMariadbDowngrade._is_required h) = Ok (negb x)
                          /\ fst (UpdateMariadbDatabase._is_required h) = Ok x).
Proof.
  intros Ha Hb. unfold _is_version_larger, components.
  pose proof (loop_numeric _ _ Ha Hb) as Hab.
  repeat split.
  - eexists. split; [exact Hab|]. apply lex_greater_first_difference.
  - intros Hlen. rewrite Hab. f_equal. symmetry.
    by apply numerically_greater_same_length.
  - rewrite (loop_numeric _ _ Ha Ha). f_equal. apply lex_greater_irrefl.
  - apply loop_asymmetric.
  - intros h Hinst Hver.
    pose proof (loop_numeric _ _ mariadb_on_alma_numeric Hb) as Hcmp.
    eexists.
    unfold AvoidMariadbDowngrade._is_required, UpdateMariadbDatabase._is_required.
    unfold M.bind.
    rewrite (readonly_run _ h readonly_is_mariadb_installed), Hinst.
    rewrite (readonly_run _ h readonly_get_mariadb_version), Hver.
    unfold M.lift, _is_version_larger. rewrite Hcmp. simpl. split; reflexivity.
Qed.

(** C8 (as stated) fails: "10.3.35" is numerically greater than "10.3"
    once the missing component counts as zero, yet the comparison stops
    after the two components both versions have and answers False. *)
Lemma is_version_larger_ignores_extra_components :
  numeric_version "10.3.35" = true
  /\ numeric_version "10.3" = true
  /\ numerically_greater (components "10.3.35") (components "10.3") = true
  /\ _is_version_larger "10.3.35" "10.3" = Ok false.
Proof. repeat split. Qed.

Lemma is_version_larger_common_prefix_witness :
  numeric_version "10.3.35" = true
  /\ numeric_version "5.5.68" = true
  /\ fst (_is_mariadb_installed mariadb55_host) = Ok true
  /\ fst (_get_mariadb_version mariadb55_host) = Ok "5.5.68"
  /\ _is_version_larger "10.3.35" "5.5.68" = Ok true
  /\ _is_version_larger "5.5.68" "10.3.35" = Ok false
  /\ exists x, fst (AvoidMariadbDowngrade._is_required mariadb55_host) = Ok (negb x)
               /\ fst (UpdateMariadbDatabase._is_required mariadb55_host) = Ok x.
Proof.
  destruct (is_version_larger_common_prefix "10.3.35" "5.5.68" eq_refl eq_refl)
    as (_ & _ & _ & Hasym & Hreq).
  split; [reflexivity|]. split; [reflexivity|]. split; [reflexivity|].
  split; [reflexivity|]. split; [reflexivity|].
  split; [apply Hasym; reflexivity|].
  apply (Hreq mariadb55_host); reflexivity.
Defined.

(** ** Checks of src/actions/common.py *)

Lemma check_line_numeric line version major minor iter patch :
  last (Str.split_ws line) = Some version ->
  Str.split "." version = [major; minor; iter; patch] ->
  Str.numeric major = true -> Str.numeric iter = true ->
  PleskVersionIsActual.check_line line
  = Ok ((18 <=? Str.decimal major) && (43 <=? Str.decimal iter)).
Proof.
  intros Hlast Hsplit Hmajor Hiter. unfold PleskVersionIsActual.check_line.
  rewrite Hlast, Hsplit, (StrFacts.int_numeric _ Hmajor). simpl.
  rewrite Z.geb_leb. destruct (18 <=? Str.decimal major); [|done].
  rewrite (StrFacts.int_numeric _ Hiter). simpl.
  rewrite Z.geb_leb. by destruct (43 <=? Str.decimal iter).
Qed.

(** C9: the check does not implement "18.0.43 or later", the rule its own
    description states.  Major and iteration numbers are tested
    separately, so Plesk 19.0.0.0 is rejected although it is later than
    18.0.43, while 18.0.43.0 is accepted. *)
Theorem plesk_version_later_major_rejected :
  PleskVersionIsActual._do_check (plesk_host "19.0.0.0")
  = (Ok false, plesk_host "19.0.0.0")
  /\ PleskVersionIsActual._do_check (plesk_host "18.0.43.0")
     = (Ok true, plesk_host "18.0.43.0").
Proof. split; reflexivity. Qed.




(** ** Time estimates *)

(** C7: the estimates are fixed non-negative numbers of seconds that do
    not depend on the host; an action that declares none reports the
    default 0; [AdoptKolabRepositories] reports 30 and 120,
    [PostgresDatabasesUpdate] and [PostgresReinstallModernPackage] report
    180 for the post phase. *)
Theorem estimates_are_constants :
  (forall a, 0 <= estimate_prepare_time a /\ 0 <= estimate_post_time a)
  /\ (forall a, a = AdoptKolabRepositories \/ estimate_prepare_time a = 0)
  /\ (forall a, a = AdoptKolabRepositories \/ a = PostgresDatabasesUpdate
                \/ a = PostgresReinstallModernPackage \/ estimate_post_time a = 0)
  /\ estimate_prepare_time AdoptKolabRepositories = 30
  /\ estimate_post_time AdoptKolabRepositories = 120
  /\ estimate_post_time PostgresDatabasesUpdate = 180
  /\ estimate_post_time PostgresReinstallModernPackage = 180.
Proof.
  split; [intros []; vm_compute; split; congruence|].
  split; [intros []; vm_compute; auto|].
  split; [intros []; vm_compute; auto|].
  repeat split.
Qed.

(** ** Paths that exist *)

Lemma exists_in_none files p : files !! p = None -> Os.exists_in files p = false.
Proof. unfold Os.exists_in. simpl. by intros ->. Qed.

Lemma exists_in_regular files p content :
  files !! p = Some (RegularFile content) -> Os.exists_in files p = true.
Proof. unfold Os.exists_in. simpl. by intros ->. Qed.

Lemma exists_in_some files p : Os.exists_in files p = true -> is_Some (files !! p).
Proof. unfold Os.exists_in. simpl. by destruct (files !! p). Qed.

(** ** Failure of an underlying step *)

(** [AvoidMariadbDowngrade] raises on a host without the repository
    file, and touches nothing. *)
Lemma avoid_mariadb_downgrade_raises h :
  fs h !! AvoidMariadbDowngrade.mariadb_repofile = None ->
  exists msg, AvoidMariadbDowngrade._prepare_action h = (Raise (Exception msg), h).
Proof.
  intros Hnone. eexists.
  unfold AvoidMariadbDowngrade._prepare_action, M.bind, Os.path_exists, M.gets.
  rewrite (exists_in_none _ _ Hnone). reflexivity.
Qed.

(** A failing [rmmod] is reported: [logged_check_call] raises. *)
Lemma rmmod_failure_raises :
  fst (DisableSuspiciousKernelModules._prepare_action rmmod_failing_host)
  = Raise (CalledProcessError ["rmmod"; "floppy"]).
Proof. reflexivity. Qed.

(** The exit status of [lsmod] plays no part in what
    [_get_enabled_modules] returns. *)
Lemma lsmod_status_ignored h h' returncode returncode' stdout lookup_modules :
  programs h !! ["lsmod"] = Some (returncode, stdout) ->
  programs h' !! ["lsmod"] = Some (returncode', stdout) ->
  fst (DisableSuspiciousKernelModules._get_enabled_modules lookup_modules h)
  = fst (DisableSuspiciousKernelModules._get_enabled_modules lookup_modules h').
Proof.
  intros Hrun Hrun'.
  unfold DisableSuspiciousKernelModules._get_enabled_modules, M.bind, Os.subprocess_run.
  by rewrite Hrun, Hrun'.
Qed.

(** C6: a failing [lsmod] goes unnoticed.  [subprocess.run] is called
    without [check], so with exit status 1 and no output
    [_get_enabled_modules] returns the empty list and
    [DisableSuspiciousKernelModules._prepare_action] completes as a
    success, having unloaded nothing. *)
Theorem lsmod_failure_is_silent :
  Os.subprocess_run ["lsmod"] lsmod_failing_host = (Ok (1, EmptyString), lsmod_failing_host)
  /\ fst (DisableSuspiciousKernelModules._prepare_action lsmod_failing_host) = Ok tt
  /\ journal (snd (DisableSuspiciousKernelModules._prepare_action lsmod_failing_host)) = [].
Proof. repeat split. Qed.

(** ** Replacing a string and replacing it back *)

Module ReplaceFacts.

Lemma prefix_split p s :
  String.prefix p s = true -> s = p ++ Str.drop (String.length p) s.
Proof.
  revert s. induction p as [|a p IH]; intros s; [done|].
  destruct s as [|b s]; simpl; [done|].
  destruct (ascii_dec a b) as [->|]; [|done].
  intros H. change (String b s = String b (p ++ Str.drop (String.length p) s)). f_equal. by apply IH.
Qed.

Lemma prefix_app p r : String.prefix p (p ++ r) = true.
Proof.
  induction p as [|a p IH]; simpl; [by destruct r|].
  by destruct (ascii_dec a a).
Qed.

Lemma drop_app p r : Str.drop (String.length p) (p ++ r) = r.
Proof. induction p as [|a p IH]; simpl; [by destruct r | done]. Qed.

Lemma length_drop n s : String.length (Str.drop n s) = (String.length s - n)%nat.
Proof.
  revert s. induction n as [|n IH]; intros [|c s]; simpl; auto.
Qed.

Lemma contains_tail sub c s :
  Str.contains sub (String c s) = false -> Str.contains sub s = false.
Proof. simpl. by intros [_ H]%orb_false_elim. Qed.

Lemma contains_head sub s :
  Str.contains sub s = false -> String.prefix sub s = false.
Proof. destruct s; simpl; by intros [H _]%orb_false_elim. Qed.


Section NonEmptyPattern.
Variables (c0 : ascii) (old' new : string).
Let old : string := String c0 old'.

Lemma replace_go_fuel n m s :
  (String.length s < n)%nat -> (String.length s < m)%nat ->
  Str.replace_go n old new s = Str.replace_go m old new s.
Proof.
  revert m s. induction n as [|n IH]; intros [|m] s Hn Hm; try lia.
  destruct s as [|c s]; [done|].
  cbn [Str.replace_go].
  destruct (String.prefix old (String c s)).
  - f_equal. apply IH; rewrite length_drop; simpl in *; lia.
  - f_equal. apply IH; simpl in *; lia.
Qed.

Lemma replace_nil : Str.replace old new EmptyString = EmptyString.
Proof. reflexivity. Qed.

Lemma replace_cons c s :
  Str.replace old new (String c s)
  = if String.prefix old (String c s)
    then new ++ Str.replace old new (Str.drop (String.length old) (String c s))
    else String c (Str.replace old new s).
Proof.
  unfold Str.replace at 1. cbn [Str.replace_go].
  destruct (String.prefix old (String c s)).
  - f_equal. apply replace_go_fuel; rewrite ?length_drop; simpl; lia.
  - reflexivity.
Qed.

Lemma replace_match r : Str.replace old new (old ++ r) = new ++ Str.replace old new r.
Proof.
  change (old ++ r) with (String c0 (old' ++ r)). rewrite replace_cons.
  change (String c0 (old' ++ r)) with (old ++ r).
  by rewrite prefix_app, drop_app.
Qed.

Lemma replace_absent s : Str.contains old s = false -> Str.replace old new s = s.
Proof.
  induction s as [|c s IH]; intros H; [done|].
  rewrite replace_cons, (contains_head _ _ H). f_equal.
  apply IH. by apply contains_tail in H.
Qed.
End NonEmptyPattern.

(** Both patterns begin with the character [c0], which occurs nowhere else
    in the second one: then the replacements create no new occurrence, and
    replacing back gives the text one started from. *)
Section RoundTrip.
Variables (c0 : ascii) (old' new' : string).
Hypothesis new'_free : Str.find_char c0 new' = None.
Let old : string := String c0 old'.
Let new : string := String c0 new'.

Lemma prefix_survives w s :
  Str.find_char c0 w = None ->
  String.prefix w (Str.replace old new s) = true -> String.prefix w s = true.
Proof.
  revert s. induction w as [|x w IH]; intros s Hfree; [by destruct s|].
  simpl in Hfree. destruct (Ascii.eqb_spec x c0) as [->|Hx]; [done|].
  assert (Hfree' : Str.find_char c0 w = None) by by destruct (Str.find_char c0 w).
  destruct s as [|a s]; [done|].
  unfold old at 1. rewrite replace_cons.
  destruct (String.prefix (String c0 old') (String a s)).
  - simpl. by destruct (ascii_dec x c0).
  - simpl. destruct (ascii_dec x a); [|done]. by apply IH.
Qed.


End RoundTrip.

End ReplaceFacts.

(** ** Inversion of successful computations *)

Lemma bind_ok {A B} (m : M A) (k : A -> M B) h b h' :
  M.bind m k h = (Ok b, h') ->
  exists a h1, m h = (Ok a, h1) /\ k a h1 = (Ok b, h').
Proof.
  unfold M.bind. destruct (m h) as [[a|e] h1]; [eauto | discriminate].
Qed.

Lemma seq_ok {B} (m : M unit) (k : M B) h b h' :
  M.bind m (fun _ => k) h = (Ok b, h') ->
  exists h1, m h = (Ok tt, h1) /\ k h1 = (Ok b, h').
Proof.
  intros ([] & h1 & Hm & Hk)%bind_ok. eauto.
Qed.

Lemma check_call_ok argv h h' :
  Os.check_call argv h = (Ok tt, h') -> Os.command_effect argv h = Some h'.
Proof.
  unfold Os.check_call. destruct (bool_decide _); [discriminate|].
  destruct (Os.command_effect argv h); congruence.
Qed.

Lemma systemctl_ok prog verb u h h' :
  Os.is_systemctl prog = true ->
  Os.check_call [prog; verb; u] h = (Ok tt, h') ->
  exists st, units h !! u = Some st /\ Os.systemctl_unit verb u h = Some h'.
Proof.
  intros Hprog Hcall%check_call_ok. simpl in Hcall. rewrite Hprog in Hcall.
  unfold Os.systemctl_unit in *. destruct (units h !! u) as [st|]; [eauto | discriminate].
Qed.

Lemma with_fs_id (f : gmap string node -> gmap string node) h :
  f (fs h) = fs h -> with_fs f h = h.
Proof. destruct h. unfold with_fs. simpl. by intros ->. Qed.

Lemma with_units_id (f : gmap string unit_state -> gmap string unit_state) h :
  f (units h) = units h -> with_units f h = h.
Proof. destruct h. unfold with_units. simpl. by intros ->. Qed.

Lemma with_fs_with_fs f g h : with_fs f (with_fs g h) = with_fs (fun m => f (g m)) h.
Proof. reflexivity. Qed.


(** ** Prepare followed by revert (src/actions/common.py) *)


Lemma replace_string_ok p old new h h' :
  Files.replace_string p old new h = (Ok tt, h') ->
  exists text, fs h !! p = Some (RegularFile text)
               /\ h' = with_fs (insert p (RegularFile (Str.replace old new text))) h.
Proof.
  unfold Files.replace_string, M.bind, Os.read_text, Os.write_text.
  destruct (fs h !! p) as [[text|target]|] eqn:Hp; try discriminate.
  rewrite Hp. intros [= <-]. eauto.
Qed.







(** ** Check actions and the host *)

Lemma preserves_readonly {A} (R : Host -> Host -> Prop) `{!Reflexive R} (m : M A) :
  readonly m -> preserves R m.
Proof. intros Hm h. by rewrite Hm. Qed.

Lemma preserves_bind {A B} (R : Host -> Host -> Prop) `{!Transitive R}
    (m : M A) (k : A -> M B) :
  preserves R m -> (forall a, preserves R (k a)) -> preserves R (M.bind m k).
Proof.
  intros Hm Hk h. unfold M.bind. specialize (Hm h).
  destruct (m h) as [[a|e] h1]; simpl in *; [|done].
  etrans; [exact Hm | apply Hk].
Qed.

Lemma preserves_try_finally {A} (R : Host -> Host -> Prop) `{!Transitive R}
    (body : M A) (handler : M unit) :
  preserves R body -> preserves R handler ->
  preserves R (M.try_finally body handler).
Proof.
  intros Hb Hh h. unfold M.try_finally. specialize (Hb h).
  destruct (body h) as [r h1]. specialize (Hh h1).
  destruct (handler h1) as [[[]|e] h2]; simpl in *; by etrans.
Qed.

Lemma string_length_app (s1 s2 : string) :
  String.length (s1 ++ s2) = (String.length s1 + String.length s2)%nat.
Proof. induction s1 as [|c s1 IH]; simpl; [done | by rewrite IH]. Qed.

Lemma bak_ne p : Files.bak p <> p.
Proof.
  unfold Files.bak. intros H%(f_equal String.length).
  rewrite string_length_app in H. simpl in H. lia.
Qed.

Global Instance same_but_refl p : Reflexive (same_but p).
Proof. by intros h. Qed.

Global Instance same_but_trans p : Transitive (same_but p).
Proof.
  intros h1 h2 h3 (F1 & U1 & E1) (F2 & U2 & E2). repeat split.
  - intros q Hq Hb. by rewrite F2, F1.
  - intros u Hu. by rewrite U2, U1.
  - intros u. by rewrite E2, E1.
Qed.

Global Instance keeps_backup_refl p : Reflexive (keeps_backup p).
Proof. by intros h. Qed.

Global Instance keeps_backup_trans p : Transitive (keeps_backup p).
Proof. unfold keeps_backup. intros h1 h2 h3 H1 H2. by rewrite H2. Qed.

Lemma readonly_read_text p : readonly (Os.read_text p).
Proof. intros h. unfold Os.read_text. by destruct (fs h !! p) as [[]|]. Qed.

Lemma readonly_check_output argv : readonly (Os.check_output argv).
Proof. unfold Os.check_output. readonly. Qed.

#[export] Hint Resolve readonly_read_text readonly_check_output : readonly.

Lemma readonly_find_file_substrings p sub : readonly (Files.find_file_substrings p sub).
Proof. unfold Files.find_file_substrings. readonly. Qed.

#[export] Hint Resolve readonly_find_file_substrings : readonly.

(** A command run for effect either changes nothing or has the effect of
    its success. *)
Lemma check_call_cases argv h :
  snd (Os.check_call argv h) = h
  \/ Os.command_effect argv h = Some (snd (Os.check_call argv h)).
Proof.
  unfold Os.check_call. destruct (bool_decide _); [by left|].
  destruct (Os.command_effect argv h); [by right | by left].
Qed.

Lemma same_but_write p c : preserves (same_but p) (Os.write_text p c).
Proof.
  intros h. unfold Os.write_text.
  destruct (fs h !! p) as [[]|]; simpl; try done;
    (split; [|done]); intros q Hq _; simpl; by rewrite lookup_insert_ne.
Qed.

Lemma same_but_push_front p strings :
  preserves (same_but p) (Files.push_front_strings p strings).
Proof.
  apply preserves_bind; [apply _ | |intros text; apply same_but_write].
  apply preserves_readonly; [apply _ | apply readonly_read_text].
Qed.

Lemma same_but_backup p : preserves (same_but p) (Files.backup_file p).
Proof.
  intros h. unfold Files.backup_file. destruct (fs h !! p); simpl; [|done].
  split; [|done]. intros q _ Hq. simpl. by rewrite lookup_insert_ne.
Qed.

Lemma same_but_restore p : preserves (same_but p) (Files.restore_file_from_backup p).
Proof.
  intros h. unfold Files.restore_file_from_backup.
  destruct (fs h !! Files.bak p); simpl; [|done].
  split; [|done]. intros q Hq Hb. simpl. by rewrite lookup_delete_ne, lookup_insert_ne.
Qed.

Lemma same_but_reload p verb :
  verb = "reload-or-restart" \/ verb = "reload-or-try-restart" ->
  preserves (same_but p) (Util.logged_check_call ["systemctl"; verb; "postgresql"]).
Proof.
  intros Hverb h. unfold Util.logged_check_call.
  destruct (check_call_cases ["systemctl"; verb; "postgresql"] h) as [->|Heff]; [done|].
  simpl in Heff. unfold Os.systemctl_unit in Heff.
  destruct (units h !! "postgresql") as [st|] eqn:Hst; [|done].
  destruct Hverb as [-> | ->]; simpl in Heff; injection Heff as <-; [|done].
  split; [done|]. split.
  - intros u Hu. simpl. by rewrite lookup_insert_ne.
  - intros u. simpl. destruct (decide (u = "postgresql")) as [->|Hu].
    + by rewrite lookup_insert_eq, Hst.
    + by rewrite lookup_insert_ne.
Qed.

Lemma readonly_after_reload :
  forall output : string,
    readonly
      (let pg_locales : gset string := list_to_set (Str.split_ws output) in
       if negb (size pg_locales =? 1)%nat then M.ret false
       else
         let! lines := Files.find_file_substrings "/etc/locale.conf" "LANG=" in
         let! values := M.lift (AssertPostgresLocaleMatchesSystemOne.lang_values lines) in
         let! current := M.gets python_locale in
         let sys_locales : gset string := list_to_set values ∪ {[ current ]} in
         if negb (size sys_locales =? 1)%nat then M.ret false
         else M.ret (bool_decide (pg_locales = sys_locales))).
Proof.
  intros output. cbv zeta. readonly.
Qed.

(** The host-changing part of the check relates hosts by [same_but]. *)
Lemma same_but_do_check :
  forall h,
    same_but (AssertPostgresLocaleMatchesSystemOne.config_path h) h
      (snd (AssertPostgresLocaleMatchesSystemOne._do_check h)).
Proof.
  intros h. unfold AssertPostgresLocaleMatchesSystemOne._do_check.
  unfold M.bind at 1. unfold M.gets at 1.
  set (p := AssertPostgresLocaleMatchesSystemOne.config_path h).
  apply preserves_try_finally; [apply _ | |].
  - unfold AssertPostgresLocaleMatchesSystemOne.compare_locales.
    apply preserves_bind; [apply _ | apply same_but_backup | intros _].
    apply preserves_bind; [apply _ | apply same_but_push_front | intros _].
    apply preserves_bind; [apply _ | apply same_but_reload; by left | intros _].
    apply preserves_readonly; [apply _|].
    apply readonly_bind; [apply readonly_check_output|].
    apply readonly_after_reload.
  - unfold AssertPostgresLocaleMatchesSystemOne.restore.
    apply preserves_bind; [apply _ | apply same_but_restore | intros _].
    apply same_but_reload. by right.
Qed.

Global Instance same_units_refl : Reflexive same_units.
Proof. by intros h. Qed.

Global Instance same_units_trans : Transitive same_units.
Proof. unfold same_units. intros h1 h2 h3 H1 H2. by rewrite H2. Qed.

Global Instance same_fs_refl : Reflexive same_fs.
Proof. by intros h. Qed.

Global Instance same_fs_trans : Transitive same_fs.
Proof. unfold same_fs. intros h1 h2 h3 H1 H2. by rewrite H2. Qed.

Lemma command_effect_fs argv h h' : Os.command_effect argv h = Some h' -> fs h' = fs h.
Proof.
  unfold Os.command_effect, Os.systemctl_unit.
  destruct argv as [|prog [|verb [|u [|x rest]]]]; try by intros [= <-].
  - destruct (_ && _); by intros [= <-].
  - destruct (Os.is_systemctl prog); [|by intros [= <-]].
    destruct (units h !! u); [|done].
    repeat (destruct (String.eqb verb _); [by intros [= <-]|]). done.
Qed.

Lemma same_fs_check_call argv : preserves same_fs (Os.check_call argv).
Proof.
  intros h. destruct (check_call_cases argv h) as [->|Heff]; [done|].
  by apply command_effect_fs in Heff.
Qed.

Lemma same_units_write p c : preserves same_units (Os.write_text p c).
Proof. intros h. unfold Os.write_text. by destruct (fs h !! p) as [[]|]. Qed.

Lemma same_units_push_front p strings :
  preserves same_units (Files.push_front_strings p strings).
Proof.
  apply preserves_bind; [apply _ | |intros text; apply same_units_write].
  apply preserves_readonly; [apply _ | apply readonly_read_text].
Qed.

Lemma same_units_backup p : preserves same_units (Files.backup_file p).
Proof. intros h. unfold Files.backup_file. by destruct (fs h !! p). Qed.

Lemma same_units_restore p : preserves same_units (Files.restore_file_from_backup p).
Proof.
  intros h. unfold Files.restore_file_from_backup. by destruct (fs h !! Files.bak p).
Qed.

Lemma keeps_backup_push_front p strings :
  preserves (keeps_backup p) (Files.push_front_strings p strings).
Proof.
  apply preserves_bind; [apply _ | |intros text].
  - apply preserves_readonly; [apply _ | apply readonly_read_text].
  - intros h. unfold Os.write_text, keeps_backup.
    destruct (fs h !! p) as [[]|]; simpl; try done;
      rewrite lookup_insert_ne; auto using bak_ne.
Qed.

Lemma keeps_backup_check_call p argv : preserves (keeps_backup p) (Os.check_call argv).
Proof. intros h. unfold keeps_backup. by rewrite (same_fs_check_call argv h). Qed.

(** Whatever the outcome of the check, a pg_hba.conf that existed is
    back as it was. *)
Lemma do_check_restores_config h n :
  let p := AssertPostgresLocaleMatchesSystemOne.config_path h in
  fs h !! p = Some n ->
  fs (snd (AssertPostgresLocaleMatchesSystemOne._do_check h)) !! p = Some n.
Proof.
  intros p Hn. unfold AssertPostgresLocaleMatchesSystemOne._do_check.
  unfold M.bind at 1. unfold M.gets at 1. fold p.
  unfold M.try_finally.
  destruct (AssertPostgresLocaleMatchesSystemOne.compare_locales p h) as [r h1] eqn:Hbody.
  assert (Hbak : fs h1 !! Files.bak p = Some n).
  { revert Hbody. unfold AssertPostgresLocaleMatchesSystemOne.compare_locales.
    unfold M.bind at 1. unfold Files.backup_file at 1. rewrite Hn.
    set (hb := with_fs (insert (Files.bak p) n) h).
    intros Hbody.
    lazymatch type of Hbody with
    | ?m hb = _ => assert (Hkeep : preserves (keeps_backup p) m)
    end.
    { apply preserves_bind; [apply _ | apply keeps_backup_push_front | intros _].
      apply preserves_bind; [apply _ | apply keeps_backup_check_call | intros _].
      apply preserves_readonly; [apply _|].
      apply readonly_bind; [apply readonly_check_output | apply readonly_after_reload]. }
    specialize (Hkeep hb). rewrite Hbody in Hkeep. unfold keeps_backup in Hkeep.
    simpl in Hkeep. rewrite Hkeep. apply lookup_insert_eq. }
  unfold AssertPostgresLocaleMatchesSystemOne.restore.
  unfold M.bind at 1. unfold Files.restore_file_from_backup at 1. rewrite Hbak.
  set (hr := with_fs _ h1).
  pose proof (same_fs_check_call
    ["systemctl"; "reload-or-try-restart";
     AssertPostgresLocaleMatchesSystemOne.service_name] hr) as Hfs.
  unfold Util.logged_check_call. unfold same_fs in Hfs.
  destruct (Os.check_call _ hr) as [[[]|e] h2]; simpl in *; rewrite Hfs; subst hr; simpl;
    rewrite lookup_delete_ne, lookup_insert_eq; auto using bak_ne.
Qed.

(** After a check that returned a verdict the server runs, whether it ran
    before or not; its enabled flag is the old one. *)
Lemma do_check_starts_postgresql h b :
  fst (AssertPostgresLocaleMatchesSystemOne._do_check h) = Ok b ->
  exists st,
    units h !! "postgresql" = Some st
    /\ units (snd (AssertPostgresLocaleMatchesSystemOne._do_check h))
       = <["postgresql" := UnitState (enabled st) true]> (units h).
Proof.
  set (p := AssertPostgresLocaleMatchesSystemOne.config_path h).
  assert (Hres : AssertPostgresLocaleMatchesSystemOne._do_check h
                 = M.try_finally
                     (AssertPostgresLocaleMatchesSystemOne.compare_locales p)
                     (AssertPostgresLocaleMatchesSystemOne.restore p) h) by reflexivity.
  rewrite Hres. clear Hres. unfold M.try_finally.
  destruct (AssertPostgresLocaleMatchesSystemOne.compare_locales p h) as [r h1] eqn:Hbody.
  destruct (AssertPostgresLocaleMatchesSystemOne.restore p h1) as [[[]|e] h2] eqn:Hfin;
    simpl; [intros -> | done].
  unfold AssertPostgresLocaleMatchesSystemOne.compare_locales in Hbody.
  apply seq_ok in Hbody as (ha & Hback & Hbody).
  apply seq_ok in Hbody as (hb & Hpush & Hbody).
  apply seq_ok in Hbody as (hc & Hload & Hbody).
  apply systemctl_ok in Hload as (st & Hst & Heff); [|done].
  assert (Hro : h1 = hc).
  { lazymatch type of Hbody with
    | ?m hc = _ => assert (Hr : readonly m)
    end.
    { apply readonly_bind; [apply readonly_check_output | apply readonly_after_reload]. }
    specialize (Hr hc). by rewrite Hbody in Hr. }
  subst h1.
  unfold AssertPostgresLocaleMatchesSystemOne.restore in Hfin.
  apply seq_ok in Hfin as (hr & Hrest & Htry).
  apply systemctl_ok in Htry as (st' & Hst' & Heff'); [|done].
  pose proof (same_units_backup p h) as Hu1. rewrite Hback in Hu1.
  pose proof (same_units_push_front p [AssertPostgresLocaleMatchesSystemOne.trust_line] ha) as Hu2. rewrite Hpush in Hu2.
  pose proof (same_units_restore p hc) as Hu3. rewrite Hrest in Hu3.
  unfold same_units in *. simpl in *.
  unfold Os.systemctl_unit in Heff, Heff'. rewrite Hst in Heff. rewrite Hst' in Heff'.
  simpl in Heff, Heff'. injection Heff as <-. injection Heff' as <-.
  exists st. split; [by rewrite <- Hu1, <- Hu2|].
  rewrite Hu3. simpl. by rewrite Hu2, Hu1.
Qed.

(** The other checks only look. *)
Lemma readonly_plain_checks :
  readonly PleskInstallerNotInProgress._do_check
  /\ readonly DistroIsCentos79._do_check
  /\ readonly DistroIsAlmalinux8._do_check
  /\ readonly PleskVersionIsActual._do_check
  /\ readonly AssertOutdatedPostgresNotInstalled._do_check.
Proof.
  split; [unfold PleskInstallerNotInProgress._do_check; readonly|].
  split; [unfold DistroIsCentos79._do_check; readonly|].
  split; [unfold DistroIsAlmalinux8._do_check; readonly|].
  split; [unfold PleskVersionIsActual._do_check; readonly|].
  unfold AssertOutdatedPostgresNotInstalled._do_check; readonly.
Qed.

(** ** The pipeline: counting invocations *)




Section PipelineFacts.
Context {World : Type}.
Implicit Types (s : Sys World) (a : ActiveAction World) (r : PipelineRecord).

Lemma run_checks_checked (cs : list (CheckAction World)) w :
  forallb is_checked (run_checks cs w).2 = true.
Proof.
  revert w. induction cs as [|c cs IH]; intros w; [done|]. simpl.
  destruct (c_check c w) as [[[]|e] w']; try done.
  specialize (IH w'). by destruct (run_checks cs w') as [[v w''] evs].
Qed.


Lemma recorded_phase_eq s r name :
  store s = Some r -> recorded_phase s name = phase_of r name.
Proof. unfold recorded_phase. by intros ->. Qed.

Lemma phase_of_set_entry_eq name e r : phase_of (set_entry name e r) name = phase e.
Proof. unfold phase_of, set_entry. simpl. by rewrite lookup_insert_eq. Qed.

Lemma phase_of_set_entry_ne name name' e r :
  name <> name' -> phase_of (set_entry name e r) name' = phase_of r name'.
Proof. intros Hne. unfold phase_of, set_entry. simpl. by rewrite lookup_insert_ne. Qed.

Lemma phase_of_set_status st r name : phase_of (set_status st r) name = phase_of r name.
Proof. done. Qed.

Lemma phase_of_add_revert_failure n r name :
  phase_of (add_revert_failure n r) name = phase_of r name.
Proof. done. Qed.


Lemma cycles_add (actions : list (Action World)) n m s :
  cycles actions (n + m) s = cycles actions m (cycles actions n s).
Proof.
  revert s. induction n as [|n IH]; intros s; [done|]. simpl.
  destruct (transition actions s) as [s'|] eqn:Ht; [apply IH|].
  destruct m; simpl; [done | by rewrite Ht].
Qed.

Lemma invocation_cycles (actions : list (Action World)) k s :
  exists n, invocation actions k s = cycles actions n s.
Proof.
  revert s. induction k as [|k IH]; intros s; [by exists 0%nat|]. simpl.
  destruct (transition actions s) as [s'|] eqn:Ht; [|by exists 0%nat].
  destruct (at_reboot_boundary s').
  - exists 1%nat. simpl. by rewrite Ht.
  - destruct (IH s') as [n Hn]. exists (S n). simpl. by rewrite Ht.
Qed.

(** However the processes are killed and resumed, the states they go
    through are those of the plain succession of cycles. *)
Lemma run_schedule_cycles (actions : list (Action World)) schedule s :
  exists n, run_schedule actions schedule s = cycles actions n s.
Proof.
  revert s. induction schedule as [|k schedule IH]; intros s; [by exists 0%nat|].
  unfold run_schedule in *. simpl.
  destruct (invocation_cycles actions k s) as [n ->].
  destruct (IH (cycles actions n s)) as [m Hm].
  exists (n + m)%nat. by rewrite Hm, cycles_add.
Qed.








End PipelineFacts.


(** ** The pipeline: the revert path after a failed prepare *)

Section RevertPath.
Context {World : Type}.
Local Open Scope list_scope.
Implicit Types (s : Sys World) (a : ActiveAction World) (w : World).

Lemma find_first (P : ActiveAction World -> bool) l1 a l2 :
  (forall x, x ∈ l1 -> P x = false) -> P a = true ->
  first_that P (l1 ++ a :: l2) = Some a.
Proof.
  unfold first_that. induction l1 as [|x l1 IH]; intros Hl1 Ha; simpl.
  - by rewrite Ha.
  - rewrite (Hl1 x) by set_solver. apply IH; [|done]. intros y Hy. apply Hl1. set_solver.
Qed.

Lemma find_none (P : ActiveAction World -> bool) l :
  (forall x, x ∈ l -> P x = false) -> first_that P l = None.
Proof.
  unfold first_that. induction l as [|x l IH]; intros Hl; simpl; [done|].
  rewrite (Hl x) by set_solver. apply IH. intros y Hy. apply Hl. set_solver.
Qed.

Lemma elem_of_rev {A} (x : A) (l : list A) : x ∈ rev l -> x ∈ l.
Proof. rewrite !list_elem_of_In. apply in_rev. Qed.

Lemma actives_app (l1 l2 : list (Action World)) :
  actives (l1 ++ l2) = actives l1 ++ actives l2.
Proof. unfold actives. by rewrite omap_app. Qed.

Lemma length_actives (l : list (Action World)) : (length (actives l) <= length l)%nat.
Proof.
  induction l as [|[c|a] l IH]; simpl; [lia | |]; unfold actives in *; simpl; lia.
Qed.

Lemma reverts_app l1 l2 : reverts (l1 ++ l2) = reverts l1 ++ reverts l2.
Proof. unfold reverts. by rewrite omap_app. Qed.

Lemma reverts_checked l : forallb is_checked l = true -> reverts l = [].
Proof.
  induction l as [|[] l IH]; simpl; auto; done.
Qed.

Lemma reverts_reverted names : reverts (map Reverted names) = names.
Proof. induction names as [|x names IH]; simpl; [done|]. unfold reverts in *. simpl. by rewrite IH. Qed.

Lemma reverts_prepared (l : list (ActiveAction World)) : forall w,
  reverts (prepared_log l w) = [].
Proof.
  induction l as [|a l IH]; intros w; [done|]. simpl.
  destruct (a_is_required a w); [|done]. apply IH.
Qed.

Lemma prepare_all_app (l1 l2 : list (ActiveAction World)) : forall w,
  prepare_all (l1 ++ l2) w
  = match prepare_all l1 w with
    | Some w' => prepare_all l2 w'
    | None => None
    end.
Proof.
  induction l1 as [|a l1 IH]; intros w; [done|]. simpl.
  destruct (a_is_required a w); [|done].
  by destruct (a_prepare a w) as [[[]|e] w'].
Qed.

Lemma prepared_log_app (l1 l2 : list (ActiveAction World)) : forall w w',
  prepare_all l1 w = Some w' ->
  prepared_log (l1 ++ l2) w = prepared_log l1 w ++ prepared_log l2 w'.
Proof.
  induction l1 as [|a l1 IH]; intros w w'; simpl; [by intros [= ->]|].
  destruct (a_is_required a w); [|by apply IH].
  destruct (a_prepare a w) as [[[]|e] w1]; [|done]. simpl. intros H.
  by rewrite (IH _ _ H).
Qed.

Lemma revert_all_app (l1 l2 : list (ActiveAction World)) : forall w,
  revert_all (l1 ++ l2) w = revert_all l2 (revert_all l1 w).
Proof. induction l1 as [|a l1 IH]; intros w; [done|]. simpl. apply IH. Qed.

Lemma invocation_step (actions : list (Action World)) n s s' :
  transition actions s = Some s' -> at_reboot_boundary s' = false ->
  invocation actions (S n) s = invocation actions n s'.
Proof. intros Ht Hb. simpl. by rewrite Ht, Hb. Qed.

Lemma invocation_stop (actions : list (Action World)) n s :
  transition actions s = None -> invocation actions n s = s.
Proof. intros Ht. destruct n; simpl; [done | by rewrite Ht]. Qed.

(** From a fresh store three cycles lead into the prepare phase when
    the checks pass. *)
Lemma startup (actions : list (Action World)) w w1 evs :
  run_checks (checks actions) w = (true, w1, evs) ->
  exists s, preparing_upto w1 evs [] s
            /\ forall n, invocation actions (3 + n) (fresh w) = invocation actions n s.
Proof.
  intros Hrun.
  exists (mkSys (Some (mkRecord Status.preparing ∅ [])) w1 evs). split.
  - eexists. split; [reflexivity|]. simpl. split; [done|]. split; [done|].
    split; [intros a Ha; by apply elem_of_nil in Ha|]. split; [done|].
    split; [done | by rewrite app_nil_r].
  - intros n. change (3 + n)%nat with (S (S (S n))).
    rewrite (invocation_step actions _ (fresh w)
               (mkSys (Some (mkRecord Status.not_started ∅ [])) w [])) by done.
    rewrite (invocation_step actions _ _
               (mkSys (Some (mkRecord Status.checking ∅ [])) w [])) by done.
    apply invocation_step; [|done].
    unfold transition. simpl. by rewrite Hrun.
Qed.

Section Around.
Variables (actions : list (Action World)) (w1 : World) (evs : list event).
Hypothesis names_unique : NoDup (map a_name (actives actions)).

Lemma name_not_before done a rest :
  actives actions = done ++ a :: rest -> a_name a ∉ map a_name done.
Proof.
  intros Heq. rewrite Heq, map_app in names_unique. simpl in names_unique.
  apply NoDup_app in names_unique as (_ & Hdisj & _).
  intros Hin. apply (Hdisj _ Hin). apply list_elem_of_here.
Qed.

Lemma name_not_after done a rest x :
  actives actions = done ++ a :: rest -> x ∈ rest -> a_name x <> a_name a.
Proof.
  intros Heq Hx. rewrite Heq, map_app in names_unique. simpl in names_unique.
  apply NoDup_app in names_unique as (_ & _ & Hnd).
  apply NoDup_cons in Hnd as [Hnotin _].
  intros Hname. apply Hnotin. rewrite <- Hname. by apply list_elem_of_fmap_2.
Qed.

Lemma name_before_after done a rest x y :
  actives actions = done ++ a :: rest -> x ∈ done -> y ∈ rest -> a_name x <> a_name y.
Proof.
  intros Heq Hx Hy. rewrite Heq, map_app in names_unique.
  apply NoDup_app in names_unique as (_ & Hdisj & _).
  intros Hname. apply (Hdisj (a_name x)); [by apply list_elem_of_fmap_2|].
  rewrite Hname. simpl. apply list_elem_of_further. by apply list_elem_of_fmap_2.
Qed.

(** One more action prepared, or recorded as not required: what the
    prepare phase over the actions so far and this one amounts to. *)
Lemma prepare_next done a rest s w2 :
  actives actions = done ++ a :: rest ->
  prepare_all (done ++ [a]) w1 = Some w2 ->
  preparing_upto w1 evs done s ->
  exists s', transition actions s = Some s'
             /\ at_reboot_boundary s' = false
             /\ preparing_upto w1 evs (done ++ [a]) s'.
Proof.
  intros Heq Hall (r & Hstore & Hstatus & Hfail & Hdone & Hrest & Hworld & Hlog).
  pose proof (name_not_before done a rest Heq) as Hfresh.
  assert (Hfind : first_that (unrecorded r) (actives actions) = Some a).
  { rewrite Heq. apply find_first.
    - intros x Hx. specialize (Hdone x Hx). unfold unrecorded, phase_of in *.
      by destruct (entries r !! a_name x).
    - unfold unrecorded. by rewrite (Hrest _ Hfresh). }
  unfold transition. rewrite Hstore, Hstatus, Hfind.
  assert (Hkeep : forall e x, x ∈ done ->
            Phase.revertible (phase_of (set_entry (a_name a) e r) (a_name x)) = true).
  { intros e x Hx. rewrite phase_of_set_entry_ne; [by apply Hdone|].
    intros Hname. apply Hfresh. rewrite Hname. by apply list_elem_of_fmap_2. }
  assert (Hnew : forall e name, name ∉ map a_name (done ++ [a]) ->
            entries (set_entry (a_name a) e r) !! name = None).
  { intros e name Hname. rewrite map_app in Hname. simpl in Hname. simpl.
    assert (Hne : a_name a <> name).
    { intros <-. apply Hname, elem_of_app. right. apply list_elem_of_here. }
    rewrite lookup_insert_ne by done. apply Hrest.
    intros Hin. apply Hname, elem_of_app. by left. }
  pose proof (prepared_log_app done [a] w1 (world s) Hworld) as Hlog'.
  rewrite prepare_all_app, Hworld in Hall. simpl in Hall, Hlog'.
  destruct (a_is_required a (world s)) eqn:Hreq.
  - destruct (a_prepare a (world s)) as [[[]|e] w'] eqn:Hprep; [|done].
    eexists. split; [reflexivity|].
    split; [unfold at_reboot_boundary; simpl; by rewrite Hstatus|].
    eexists. split; [reflexivity|]. simpl.
    split; [done|]. split; [done|]. split.
    { intros x [Hx| ->%list_elem_of_singleton]%elem_of_app; [by apply Hkeep|].
      by rewrite phase_of_set_entry_eq. }
    split; [by apply Hnew|].
    split; [by rewrite prepare_all_app, Hworld; simpl; rewrite Hreq, Hprep|].
    by rewrite Hlog, Hlog', <- app_assoc.
  - eexists. split; [reflexivity|].
    split; [unfold at_reboot_boundary; simpl; by rewrite Hstatus|].
    eexists. split; [reflexivity|]. simpl.
    split; [done|]. split; [done|]. split.
    { intros x [Hx| ->%list_elem_of_singleton]%elem_of_app; [by apply Hkeep|].
      by rewrite phase_of_set_entry_eq. }
    split; [by apply Hnew|].
    split; [by rewrite prepare_all_app, Hworld; simpl; rewrite Hreq|].
    by rewrite Hlog, Hlog', app_nil_r.
Qed.

(** The prepare phase goes through a run of actions whose [prepare()], on
    the worlds this run reaches, all succeed. *)
Lemma prepare_run todo : forall done rest s wk,
  actives actions = done ++ todo ++ rest ->
  prepare_all (done ++ todo) w1 = Some wk ->
  preparing_upto w1 evs done s ->
  exists s', preparing_upto w1 evs (done ++ todo) s'
             /\ forall n, invocation actions (length todo + n) s
                          = invocation actions n s'.
Proof.
  induction todo as [|a todo IH]; intros done rest s wk Heq Hall Hs.
  - exists s. by rewrite app_nil_r.
  - assert (Hone : exists w2, prepare_all (done ++ [a]) w1 = Some w2).
    { replace (done ++ a :: todo) with ((done ++ [a]) ++ todo) in Hall
        by by rewrite <- app_assoc.
      rewrite prepare_all_app in Hall.
      destruct (prepare_all (done ++ [a]) w1) as [w2|]; [eauto | done]. }
    destruct Hone as [w2 Hone].
    destruct (prepare_next done a (todo ++ rest) s w2) as (s1 & Ht & Hb & Hs1);
      [done | done | done |].
    destruct (IH (done ++ [a]) rest s1 wk) as (s' & Hs' & Hrun).
    { by rewrite <- app_assoc. }
    { by rewrite <- app_assoc. }
    { done. }
    exists s'. split; [by rewrite <- app_assoc in Hs'|].
    intros n. simpl. rewrite <- Hrun. by apply invocation_step.
Qed.

(** The action whose [prepare()] raises is recorded failed and the run
    turns to reverting what came before. *)
Lemma prepare_fails done ak rest s e wf :
  actives actions = done ++ ak :: rest ->
  a_is_required ak (world s) = true ->
  a_prepare ak (world s) = (Raise e, wf) ->
  preparing_upto w1 evs done s ->
  exists s', transition actions s = Some s'
             /\ at_reboot_boundary s' = false
             /\ reverting_down (log s ++ [Prepared (a_name ak)]) wf (a_name ak)
                  (map a_name rest) done [] s'.
Proof.
  intros Heq Hreq Hraise (r & Hstore & Hstatus & Hfail & Hdone & Hrest & Hworld & Hlog).
  pose proof (name_not_before done ak rest Heq) as Hfresh.
  assert (Hfind : first_that (unrecorded r) (actives actions) = Some ak).
  { rewrite Heq. apply find_first.
    - intros x Hx. specialize (Hdone x Hx). unfold unrecorded, phase_of in *.
      by destruct (entries r !! a_name x).
    - unfold unrecorded. by rewrite (Hrest _ Hfresh). }
  unfold transition. rewrite Hstore, Hstatus, Hfind, Hreq, Hraise.
  eexists. split; [reflexivity|]. split; [done|].
  eexists. split; [reflexivity|]. simpl. split; [done|].
  split; [|split; [|split; [|split; [|split]]]].
  - intros x Hx. rewrite phase_of_set_status, phase_of_set_entry_ne; [by apply Hdone|].
    intros Hname. apply Hfresh. rewrite Hname. by apply list_elem_of_fmap_2.
  - intros name Hname. rewrite phase_of_set_status.
    destruct (decide (a_name ak = name)) as [<-|Hne].
    + by rewrite phase_of_set_entry_eq.
    + rewrite phase_of_set_entry_ne by done. unfold phase_of. by rewrite (Hrest _ Hname).
  - by rewrite phase_of_set_status, phase_of_set_entry_eq.
  - intros name (y & -> & Hy)%list_elem_of_fmap.
    rewrite lookup_insert_ne by (apply not_eq_sym; by apply (name_not_after done ak rest y)).
    apply Hrest. intros (x & Hname & Hx)%list_elem_of_fmap.
    by apply (name_before_after done ak rest x y Heq Hx Hy).
  - done.
  - by rewrite app_nil_r.
Qed.

(** One [revert()]: on the last action still to revert. *)
Lemma revert_next pre wf failed pending todo x undone rest s :
  actives actions = todo ++ x :: undone ++ rest ->
  a_name x <> failed -> a_name x ∉ pending ->
  reverting_down pre wf failed pending (todo ++ [x]) undone s ->
  exists s', transition actions s = Some s'
             /\ at_reboot_boundary s' = false
             /\ reverting_down pre wf failed pending todo (x :: undone) s'.
Proof.
  intros Heq Hnf Hnp (r & Hstore & Hstatus & Htodo & Hothers & Hfailed & Hpending
                     & Hworld & Hlog).
  pose proof (name_not_before todo x (undone ++ rest) Heq) as Hfresh.
  assert (Hfind : first_that (awaits_revert r) (rev (actives actions)) = Some x).
  { rewrite Heq, rev_app_distr. simpl. rewrite <- app_assoc. simpl.
    apply find_first.
    - intros y Hy%elem_of_rev. unfold awaits_revert. apply Hothers.
      rewrite map_app. simpl.
      intros [Hin|Hin%list_elem_of_singleton]%elem_of_app.
      + apply list_elem_of_fmap in Hin as (z & Hname & Hz).
        assert (Hnd := names_unique). rewrite Heq, map_app in Hnd.
        apply NoDup_app in Hnd as (_ & Hdisj & _).
        apply (Hdisj (a_name z)); [by apply list_elem_of_fmap_2|].
        rewrite <- Hname. apply list_elem_of_fmap_2. by apply list_elem_of_further.
      + by apply (name_not_after todo x (undone ++ rest) y Heq).
    - unfold awaits_revert. apply Htodo. set_solver. }
  unfold transition. rewrite Hstore, Hstatus, Hfind.
  assert (Hkeep : forall e y, y ∈ todo ->
            Phase.revertible (phase_of (set_entry (a_name x) e r) (a_name y)) = true).
  { intros e y Hy. rewrite phase_of_set_entry_ne; [apply Htodo; set_solver|].
    intros Hname. apply Hfresh. rewrite Hname. by apply list_elem_of_fmap_2. }
  assert (Hout : forall e name, phase e = Phase.reverted \/ phase e = Phase.failed ->
            name ∉ map a_name todo ->
            Phase.revertible (phase_of (set_entry (a_name x) e r) name) = false).
  { intros e name He Hname. destruct (decide (a_name x = name)) as [<-|Hne].
    - rewrite phase_of_set_entry_eq. by destruct He as [-> | ->].
    - rewrite phase_of_set_entry_ne by done. apply Hothers.
      rewrite map_app. simpl.
      intros [Hin| ->%list_elem_of_singleton]%elem_of_app; [by apply Hname | done]. }
  assert (Hstill : forall e, phase_of (set_entry (a_name x) e r) failed = Phase.failed)
    by (intros e; by rewrite phase_of_set_entry_ne).
  assert (Hnone : forall e name, name ∈ pending ->
            entries (set_entry (a_name x) e r) !! name = None).
  { intros e name Hname. simpl. rewrite lookup_insert_ne; [by apply Hpending|].
    intros <-. done. }
  assert (Hw : forall w', w' = snd (a_revert x (world s)) ->
            w' = revert_all (rev (x :: undone)) wf).
  { intros w' ->. simpl. by rewrite revert_all_app, <- Hworld. }
  assert (Hl : log s ++ [Reverted (a_name x)]
               = pre ++ map Reverted (rev (map a_name (x :: undone)))).
  { rewrite Hlog. simpl. by rewrite map_app, <- app_assoc. }
  destruct (a_revert x (world s)) as [[[]|e] w'] eqn:Hrevert;
    (eexists; split; [reflexivity|];
     split; [unfold at_reboot_boundary; simpl; by rewrite Hstatus|];
     eexists; split; [reflexivity|]; simpl; split; [done|];
     split; [|split; [|split; [|split; [|split]]]]).
  - intros y Hy. by apply Hkeep.
  - intros name Hname. apply Hout; auto.
  - apply Hstill.
  - intros name Hname. by apply (Hnone (Entry _ _)).
  - by apply Hw.
  - exact Hl.
  - intros y Hy. rewrite phase_of_add_revert_failure. by apply Hkeep.
  - intros name Hname. rewrite phase_of_add_revert_failure. apply Hout; auto.
  - rewrite phase_of_add_revert_failure. apply Hstill.
  - intros name Hname. by apply (Hnone (Entry _ _)).
  - by apply Hw.
  - exact Hl.
Qed.

Lemma revert_run pre wf failed pending todo : forall undone rest s,
  actives actions = todo ++ undone ++ rest ->
  (forall x, x ∈ todo -> a_name x <> failed /\ a_name x ∉ pending) ->
  reverting_down pre wf failed pending todo undone s ->
  exists s', reverting_down pre wf failed pending [] (todo ++ undone) s'
             /\ forall n, invocation actions (length todo + n) s
                          = invocation actions n s'.
Proof.
  induction todo as [|x todo IH] using rev_ind; intros undone rest s Heq Hnames Hs.
  - by exists s.
  - rewrite <- app_assoc in Heq. simpl in Heq.
    destruct (Hnames x) as [Hnf Hnp];
      [apply elem_of_app; right; apply list_elem_of_here|].
    destruct (revert_next pre wf failed pending todo x undone rest s Heq Hnf Hnp Hs)
      as (s1 & Ht & Hb & Hs1).
    destruct (IH (x :: undone) rest s1 Heq) as (s' & Hs' & Hrun);
      [intros y Hy; apply Hnames, elem_of_app; by left | done |].
    exists s'. split; [by rewrite <- app_assoc|].
    intros n. rewrite length_app. simpl.
    replace (length todo + 1 + n)%nat with (S (length todo + n)) by lia.
    rewrite <- Hrun. by apply invocation_step.
Qed.

(** Nothing left to revert: the run ends, reverted or failed. *)
Lemma revert_end pre wf failed pending undone s :
  reverting_down pre wf failed pending [] undone s ->
  exists s', (forall n, invocation actions (S n) s = s')
             /\ terminal s' /\ log s' = log s /\ world s' = world s
             /\ recorded_phase s' failed = Phase.failed
             /\ (forall name, name ∈ pending -> recorded_entries s' !! name = None).
Proof.
  intros (r & Hstore & Hstatus & _ & Hothers & Hfailed & Hpending & Hworld & Hlog).
  assert (Hfind : first_that (awaits_revert r) (rev (actives actions)) = None).
  { apply find_none. intros x _. apply Hothers. set_solver. }
  eexists. split; [|split; [|split; [|split; [|split]]]].
  - intros n. simpl. unfold transition. rewrite Hstore, Hstatus, Hfind.
    unfold at_reboot_boundary. simpl.
    assert (Hnb : bool_decide
              (match revert_failures r with
               | [] => Status.reverted
               | _ :: _ => Status.failed
               end = Status.awaiting_external_conversion) = false)
      by by destruct (revert_failures r).
    rewrite Hnb. apply invocation_stop.
    unfold transition. simpl. by destruct (revert_failures r).
  - eexists. split; [reflexivity|]. simpl. destruct (revert_failures r); auto.
  - done.
  - done.
  - unfold recorded_phase. simpl. by rewrite phase_of_set_status.
  - intros name Hname. unfold recorded_entries. simpl. by apply Hpending.
Qed.

End Around.

(** C5: when [prepare()] of the Active action at position k fails on the
    world the run has reached (the checks having passed and the required
    actions before k having prepared), the process invokes [revert()] on
    the Active actions before k, all of them and no other, in reverse list
    order: the log is that of the checks and of the prepare phase followed
    by these reverts and nothing else, and the world is what these
    [revert()] calls, in that order, make of the world the failure left.
    Neither action k, which is recorded failed, nor an action after it,
    which has no entry yet, is reverted; the run ends reverted or
    failed. *)
Theorem failed_prepare_reverts_predecessors
    (before after : list (Action World)) (ak : ActiveAction World)
    (w w1 wk wf : World) (evs : list event) (e : exn) (n : nat) :
  let actions := before ++ Active ak :: after in
  NoDup (map a_name (actives actions)) ->
  run_checks (checks actions) w = (true, w1, evs) ->
  prepare_all (actives before) w1 = Some wk ->
  a_is_required ak wk = true ->
  a_prepare ak wk = (Raise e, wf) ->
  (2 * length before + 5 <= n)%nat ->
  let s := invocation actions n (fresh w) in
  log s = evs ++ prepared_log (actives before) w1 ++ [Prepared (a_name ak)]
          ++ map Reverted (rev (map a_name (actives before)))
  /\ world s = revert_all (rev (actives before)) wf
  /\ reverts (log s) = rev (map a_name (actives before))
  /\ (a_name ak ∉ reverts (log s))
  /\ (forall a, a ∈ actives after ->
        (a_name a ∉ reverts (log s)) /\ recorded_entries s !! a_name a = None)
  /\ recorded_phase s (a_name ak) = Phase.failed
  /\ terminal s.
Proof.
  intros actions Hnd Hchecks Hall Hreq Hraise Hn s.
  assert (Heq : actives actions = actives before ++ ak :: actives after).
  { unfold actions. by rewrite actives_app. }
  destruct (startup actions w w1 evs Hchecks) as (s0 & Hs0 & Hrun0).
  destruct (prepare_run actions w1 evs Hnd (actives before) [] (ak :: actives after) s0 wk)
    as (s1 & Hs1 & Hrun1); [done | done | done |]. simpl in Hs1.
  assert (Hworld1 : world s1 = wk /\ log s1 = evs ++ prepared_log (actives before) w1).
  { destruct Hs1 as (r & _ & _ & _ & _ & _ & Hw & Hl). split; [congruence | done]. }
  destruct Hworld1 as [Hw1 Hl1].
  destruct (prepare_fails actions w1 evs Hnd (actives before) ak (actives after) s1 e wf)
    as (s2 & Ht2 & Hb2 & Hs2); [done | by rewrite Hw1 | by rewrite Hw1 | done |].
  destruct (revert_run actions Hnd (log s1 ++ [Prepared (a_name ak)]) wf (a_name ak)
              (map a_name (actives after)) (actives before) [] (ak :: actives after) s2)
    as (s3 & Hs3 & Hrun3); [done | | done |].
  { intros x Hx. split.
    - apply not_eq_sym. intros Hname.
      apply (name_not_before actions Hnd _ _ _ Heq). rewrite Hname.
      by apply list_elem_of_fmap_2.
    - intros (y & Hname & Hy)%list_elem_of_fmap.
      by apply (name_before_after actions Hnd _ _ _ x y Heq Hx Hy). }
  rewrite app_nil_r in Hs3.
  destruct (revert_end actions Hnd (log s1 ++ [Prepared (a_name ak)]) wf (a_name ak)
              (map a_name (actives after)) (actives before) s3 Hs3)
    as (s4 & Hrun4 & Hterm & Hlog4 & Hworld4 & Hfailed & Hpending).
  assert (Hs : s = s4).
  { pose proof (length_actives before) as Hlen. unfold s.
    replace n with (3 + (length (actives before)
                         + S (length (actives before)
                              + S (n - 2 * length (actives before) - 5))))%nat by lia.
    rewrite Hrun0, Hrun1, (invocation_step actions _ s1 s2 Ht2 Hb2), Hrun3.
    apply Hrun4. }
  destruct Hs3 as (r3 & _ & _ & _ & _ & _ & _ & Hw3 & Hl3).
  assert (Hlog : log s = evs ++ prepared_log (actives before) w1
                         ++ [Prepared (a_name ak)]
                         ++ map Reverted (rev (map a_name (actives before)))).
  { rewrite Hs, Hlog4, Hl3, Hl1. by rewrite <- !app_assoc. }
  assert (Hrev : reverts (log s) = rev (map a_name (actives before))).
  { rewrite Hlog, !reverts_app, reverts_prepared, reverts_reverted.
    pose proof (run_checks_checked (checks actions) w) as Hck.
    rewrite Hchecks in Hck. simpl in Hck. by rewrite (reverts_checked _ Hck). }
  split; [exact Hlog|]. split; [by rewrite Hs, Hworld4, Hw3|].
  rewrite Hrev. split; [done|]. split; [|split; [|split]].
  - intros Hin%elem_of_rev. by apply (name_not_before actions Hnd _ _ _ Heq).
  - intros a Ha. split.
    + intros Hin%elem_of_rev.
      apply list_elem_of_fmap in Hin as (z & Hname & Hz).
      by apply (name_before_after actions Hnd _ _ _ z a Heq Hz Ha).
    + rewrite Hs. apply Hpending. by apply list_elem_of_fmap_2.
  - by rewrite Hs.
  - by rewrite Hs.
Qed.

End RevertPath.

(** ** The pipeline: checks come first *)

Section ChecksFirst.
Context {World : Type}.
Local Open Scope list_scope.

Lemma transition_after_checks (actions : list (Action World)) (s s' : Sys World) r :
  store s = Some r -> before_preparing (status r) = false ->
  transition actions s = Some s' ->
  exists r' extra,
    store s' = Some r'
    /\ before_preparing (status r') = false
    /\ status r <> Status.failed
    /\ log s' = log s ++ extra
    /\ forallb (fun e => negb (is_checked e)) extra = true
    /\ (extra = [] -> world s' = world s).
Proof.
  intros Hstore Hstatus. unfold transition. rewrite Hstore.
  destruct (status r) eqn:Hst; try done.
  - destruct (first_that _ _) as [a|].
    + destruct (a_is_required a (world s)).
      * destruct (a_prepare a (world s)) as [[[]|e] w']; intros [= <-];
          eexists _, [_]; (split; [reflexivity|]); simpl; rewrite ?Hst; repeat split; done.
      * intros [= <-]. eexists _, []. split; [reflexivity|]. simpl. rewrite ?Hst, app_nil_r. repeat split; done.
    + intros [= <-]. eexists _, []. split; [reflexivity|]. simpl. rewrite app_nil_r. repeat split; done.
  - intros [= <-]. eexists _, []. split; [reflexivity|]. simpl. rewrite app_nil_r. repeat split; done.
  - intros [= <-]. eexists _, []. split; [reflexivity|]. simpl. rewrite app_nil_r. repeat split; done.
  - destruct (first_that _ _) as [a|].
    + destruct (a_post a (world s)) as [[[]|e] w']; intros [= <-];
        eexists _, [_]; (split; [reflexivity|]); simpl; rewrite ?Hst; repeat split; done.
    + intros [= <-]. eexists _, []. split; [reflexivity|]. simpl. rewrite app_nil_r. repeat split; done.
  - destruct (first_that _ _) as [a|].
    + destruct (a_revert a (world s)) as [[[]|e] w']; intros [= <-];
        eexists _, [_]; (split; [reflexivity|]); simpl; rewrite ?Hst; repeat split; done.
    + intros [= <-]. eexists _, []. split; [reflexivity|]. simpl. rewrite app_nil_r.
      repeat split; try done. by destruct (revert_failures r).
Qed.

Lemma checks_first_transition (actions : list (Action World)) w (s s' : Sys World) :
  transition actions s = Some s' ->
  checks_first actions w s -> checks_first actions w s'.
Proof.
  unfold checks_first.
  destruct (run_checks (checks actions) w) as [[verdict w'] evs] eqn:Hrun.
  intros Ht [(Hlog & Hworld & Hstore)|(r & rest & Hstore & Hst & Hlog & Hrest & Hw & Hv)].
  - unfold transition in Ht. destruct (store s) as [r|].
    + destruct (status r) eqn:Hstatus; try done.
      * injection Ht as <-. by left.
      * rewrite Hworld, Hrun in Ht. injection Ht as <-. right.
        eexists _, []. simpl. rewrite Hlog, app_nil_r. simpl.
        split; [done|]. split; [by destruct verdict|].
        split; [done|]. split; [done|]. split; [done|]. by intros ->.
    + injection Ht as <-. by left.
  - right.
    destruct (transition_after_checks actions s s' r Hstore Hst Ht)
      as (r' & extra & Hstore' & Hst' & Hnf & Hlog' & Hextra & Hw').
    exists r', (rest ++ extra). split; [done|]. split; [done|].
    split; [by rewrite Hlog', Hlog, app_assoc|].
    split; [by rewrite forallb_app, Hrest, Hextra|]. split.
    + intros [-> ->]%app_eq_nil. rewrite Hw'; auto.
    + intros Hfalse. destruct (Hv Hfalse) as [_ Hfailed]. done.
Qed.

Lemma checks_first_cycles (actions : list (Action World)) w n :
  checks_first actions w (cycles actions n (fresh w)).
Proof.
  assert (H0 : checks_first actions w (fresh w)).
  { unfold checks_first. destruct (run_checks _ _) as [[v w'] evs]. by left. }
  revert H0. generalize (fresh w). induction n as [|n IH]; intros s Hs; [done|].
  simpl. destruct (transition actions s) as [s'|] eqn:Ht; [|done].
  apply IH. by apply (checks_first_transition actions w s).
Qed.

End ChecksFirst.

(** ** Check actions: what they do to the host *)

(** C1 (as stated) fails: on a host whose PostgreSQL server is enabled
    but stopped, the locale check answers True and leaves the server
    running; while its body runs, pg_hba.conf carries an extra line. *)
Lemma locale_check_starts_stopped_postgresql :
  let h := postgres_stopped_host in
  let p := "/var/lib/pgsql/data/pg_hba.conf" in
  fst (AssertPostgresLocaleMatchesSystemOne._do_check h) = Ok true
  /\ units h !! "postgresql" = Some (UnitState true false)
  /\ units (snd (AssertPostgresLocaleMatchesSystemOne._do_check h)) !! "postgresql"
     = Some (UnitState true true)
  /\ fs h !! p = Some (RegularFile ("local all all peer" ++ Str.nl))
  /\ fs (snd (AssertPostgresLocaleMatchesSystemOne.compare_locales p h)) !! p
     = Some (RegularFile ("local template1 postgres trust #Added by Plesk" ++ Str.nl
                          ++ "local all all peer" ++ Str.nl)).
Proof. vm_compute. repeat split. Qed.

(** C1 (as amended): the Check actions other than
    [AssertPostgresLocaleMatchesSystemOne] leave the host exactly as it
    was.  [AssertPostgresLocaleMatchesSystemOne] edits pg_hba.conf and
    reloads or restarts postgresql while it runs; whatever its outcome,
    files other than pg_hba.conf and its backup, units other than
    postgresql and every enabled flag are as before, and a pg_hba.conf
    that existed is back as it was; after a check that returned a verdict
    postgresql is running, whether it ran before or not.  In a run,
    however its processes are killed and resumed, the checks come before
    any operation of an Active action, which happens only if all of them
    passed, and until the first such operation the world is as the checks
    left it. *)
Theorem checks_and_the_host :
  (readonly PleskInstallerNotInProgress._do_check
   /\ readonly DistroIsCentos79._do_check
   /\ readonly DistroIsAlmalinux8._do_check
   /\ readonly PleskVersionIsActual._do_check
   /\ readonly AssertOutdatedPostgresNotInstalled._do_check)
  /\ (forall h,
        let p := AssertPostgresLocaleMatchesSystemOne.config_path h in
        let h' := snd (AssertPostgresLocaleMatchesSystemOne._do_check h) in
        same_but p h h'
        /\ (forall n, fs h !! p = Some n -> fs h' !! p = Some n)
        /\ (forall b,
              fst (AssertPostgresLocaleMatchesSystemOne._do_check h) = Ok b ->
              exists st,
                units h !! "postgresql" = Some st
                /\ units h' = <["postgresql" := UnitState (enabled st) true]> (units h)))
  /\ (forall (World : Type) (actions : list (Action World)) (w : World)
             (schedule : list nat),
        checks_first actions w (run_schedule actions schedule (fresh w))).
Proof.
  split; [exact readonly_plain_checks|]. split.
  - intros h p h'. split; [apply same_but_do_check|]. split.
    + intros n. apply do_check_restores_config.
    + intros b. apply do_check_starts_postgresql.
  - intros World actions w schedule.
    destruct (run_schedule_cycles actions schedule (fresh w)) as [n ->].
    apply checks_first_cycles.
Qed.

Lemma checks_and_the_host_witness :
  let h := postgres_stopped_host in
  let p := "/var/lib/pgsql/data/pg_hba.conf" in
  let h' := snd (AssertPostgresLocaleMatchesSystemOne._do_check h) in
  fs h !! p = Some (RegularFile ("local all all peer" ++ Str.nl))
  /\ fst (AssertPostgresLocaleMatchesSystemOne._do_check h) = Ok true
  /\ fs h' !! p = Some (RegularFile ("local all all peer" ++ Str.nl))
  /\ (exists st,
        units h !! "postgresql" = Some st
        /\ units h' = <["postgresql" := UnitState (enabled st) true]> (units h))
  /\ checks_first scenario_fail [] (run_schedule scenario_fail [2; 3]%nat (fresh [])).
Proof.
  intros h p h'.
  destruct checks_and_the_host as (_ & Hlocale & Hrun).
  destruct (Hlocale h) as (_ & Hfile & Hunit).
  split; [reflexivity|]. split; [reflexivity|].
  split; [apply (Hfile _ eq_refl)|].
  split; [apply (Hunit true eq_refl)|].
  apply Hrun.
Defined.

(** ** The scenarios of the specification *)

(** A check passes, [ActiveB] is not required, [ActiveC] succeeds: the run
    stops at the reboot boundary, and the process started after the reboot
    completes it; [ActiveB] is recorded [post_done] and none of its
    operations ran. *)
Example scenario_skip_completes :
  let s := run_schedule scenario_skip [20; 20]%nat (fresh []) in
  option_map status (store (invocation scenario_skip 20 (fresh [])))
  = Some Status.awaiting_external_conversion
  /\ option_map status (store s) = Some Status.completed
  /\ recorded_phase s "ActiveB" = Phase.post_done
  /\ recorded_phase s "ActiveC" = Phase.post_done
  /\ log s = [Checked "CheckA"; Prepared "ActiveC"; Posted "ActiveC"]
  /\ world s = ["ActiveC.prepare"; "ActiveC.post"].
Proof. vm_compute. repeat split. Qed.

(** [ActiveX] prepares, [ActiveY] fails to: [ActiveX] is reverted once,
    [ActiveY] never, and the run ends reverted. *)
Example scenario_fail_reverts :
  let s := invocation scenario_fail 20 (fresh []) in
  option_map status (store s) = Some Status.reverted
  /\ log s = [Prepared "ActiveX"; Prepared "ActiveY"; Reverted "ActiveX"]
  /\ recorded_phase s "ActiveY" = Phase.failed.
Proof. vm_compute. repeat split. Qed.


Lemma failed_prepare_reverts_predecessors_witness :
  let x := sample_active "ActiveX" true false in
  let skipped := sample_active "ActiveN" false false in
  let y := fails_after "ActiveX.prepare" "ActiveY" in
  let z := sample_active "ActiveZ" true false in
  let s := invocation scenario_dependent 20 (fresh []) in
  a_prepare y [] = (Ok tt, ["ActiveY.prepare"])
  /\ a_prepare y ["ActiveX.prepare"]
     = (Raise (Exception "ActiveY.prepare"), ["ActiveX.prepare"; "ActiveY.prepare"])
  /\ log s = [Checked "CheckA"; Prepared "ActiveX"; Prepared "ActiveY";
              Reverted "ActiveN"; Reverted "ActiveX"]
  /\ world s = ["ActiveX.prepare"; "ActiveY.prepare"; "ActiveN.revert"; "ActiveX.revert"]
  /\ reverts (log s) = ["ActiveN"; "ActiveX"]
  /\ recorded_entries s !! "ActiveZ" = None
  /\ recorded_phase s "ActiveY" = Phase.failed
  /\ terminal s.
Proof.
  intros x skipped y z s.
  assert (Hnd : NoDup (map a_name (actives scenario_dependent))).
  { apply (bool_decide_unpack _). reflexivity. }
  destruct (failed_prepare_reverts_predecessors
              [Check (sample_check "CheckA" true); Active x; Active skipped]
              [Active z] y [] [] ["ActiveX.prepare"]
              ["ActiveX.prepare"; "ActiveY.prepare"] [Checked "CheckA"]
              (Exception "ActiveY.prepare") 20%nat Hnd)
    as (Hlog & Hworld & Hrev & _ & Hafter & Hfailed & Hterm);
    [reflexivity | reflexivity | reflexivity | reflexivity | simpl; lia |].
  split; [reflexivity|]. split; [reflexivity|].
  split; [exact Hlog|]. split; [exact Hworld|]. split; [exact Hrev|].
  split; [exact (proj2 (Hafter z (list_elem_of_here _ _)))|].
  split; [exact Hfailed | exact Hterm].
Defined.


(** ** Flag files of PostgresReinstallModernPackage *)

Module FlagFacts.

Lemma of_int_inj a b : Str.of_int a = Str.of_int b -> a = b.
Proof.
  unfold Str.of_int. intros H%(f_equal NilZero.int_of_string).
  assert (Hnorm : forall z, NilZero.int_of_string (NilZero.string_of_int (Z.to_int z))
                            = Some (Z.to_int z)).
  { intros z. apply NilZero.isi; destruct z; simpl; try discriminate;
      intros [= Hnil]; by apply Unsigned.to_uint_nonnil in Hnil. }
  rewrite !Hnorm in H. injection H as H. by apply DecimalZ.to_int_inj.
Qed.

Lemma app_inv_tail (s1 s2 t : string) : s1 ++ t = s2 ++ t -> s1 = s2.
Proof.
  revert s2. induction s1 as [|c s1 IH]; intros [|d s2] H; simpl in *.
  - done.
  - apply (f_equal String.length) in H. simpl in H.
    rewrite !string_length_app in H. simpl in H. lia.
  - apply (f_equal String.length) in H. simpl in H.
    rewrite !string_length_app in H. simpl in H. lia.
  - injection H as -> H. f_equal. by apply IH.
Qed.

Lemma app_inv_head (p s1 s2 : string) : p ++ s1 = p ++ s2 -> s1 = s2.
Proof. induction p as [|c p IH]; simpl; [done|]. intros [= H]. by apply IH. Qed.

Lemma path_join_inj root b1 b2 : Os.path_join root b1 = Os.path_join root b2 -> b1 = b2.
Proof.
  unfold Os.path_join. destruct (Str.is_empty root); [done|].
  destruct (String.prefix "/" (String.rev root)).
  - apply app_inv_head.
  - intros H%app_inv_head. by apply (app_inv_head "/").
Qed.

Lemma flag_path_inj h u v : flag_path h u = flag_path h v -> u = v.
Proof.
  unfold flag_path, PostgresReinstallModernPackage.version_enabled_path.
  intros H%path_join_inj%app_inv_tail. by apply of_int_inj.
Qed.

Lemma service_name_inj u v :
  PostgresReinstallModernPackage._get_service_name u
  = PostgresReinstallModernPackage._get_service_name v -> u = v.
Proof.
  unfold PostgresReinstallModernPackage._get_service_name.
  intros H%app_inv_head. by apply of_int_inj.
Qed.

End FlagFacts.

Lemma write_text_ok p c h h' :
  Os.write_text p c h = (Ok tt, h') -> h' = with_fs (insert p (RegularFile c)) h.
Proof.
  unfold Os.write_text. destruct (fs h !! p) as [[]|]; congruence.
Qed.

(** A command other than [systemctl] that succeeds leaves files, units and
    PostgreSQL data as they are. *)
Lemma opaque_call_ok prog args h h' :
  Os.is_systemctl prog = false ->
  Os.check_call (prog :: args) h = (Ok tt, h') ->
  fs h' = fs h /\ units h' = units h /\ postgres h' = postgres h.
Proof.
  intros Hprog Hcall%check_call_ok. unfold Os.command_effect in Hcall.
  rewrite ?Hprog in Hcall.
  destruct args as [|a1 [|a2 [|a3 rest]]]; simpl in Hcall; by injection Hcall as <-.
Qed.

Section Versions.
Import PostgresReinstallModernPackage.

Lemma is_service_active_run service h :
  _is_service_active service h = (Ok (service_active h service), h).
Proof.
  unfold _is_service_active, service_active, M.bind, Os.systemctl_is_active, M.gets, M.ret.
  by destruct (units h !! service) as [[e []]|].
Qed.

(** [prepare_version]: for an active service the flag is written and the
    unit stopped and disabled; for any other nothing happens. *)
Lemma prepare_version_ok v h h' :
  prepare_version v h = (Ok tt, h') ->
  postgres h' = postgres h
  /\ if service_active h (_get_service_name v)
     then fs h' = <[flag_path h v := RegularFile EmptyString]> (fs h)
          /\ units h' = <[_get_service_name v := UnitState false false]> (units h)
     else h' = h.
Proof.
  unfold prepare_version. unfold M.bind at 1. rewrite is_service_active_run.
  destruct (service_active h (_get_service_name v)); [|by intros [= <-]].
  unfold M.bind at 1. unfold _get_version_enabled_path at 1, M.bind at 1, M.gets, M.ret.
  fold (flag_path h v). unfold Util.logged_check_call.
  intros (h1 & ->%write_text_ok
          & (h2 & (st & Hst & Hstop)%systemctl_ok
             & (st' & Hst' & Hdis)%systemctl_ok)%seq_ok)%seq_ok; [|done..].
  unfold Os.systemctl_unit in Hstop, Hdis. rewrite Hst in Hstop. rewrite Hst' in Hdis.
  simpl in Hstop, Hdis. injection Hstop as <-. injection Hdis as <-. simpl in *.
  rewrite lookup_insert_eq in Hst'. injection Hst' as <-. simpl.
  split; [done|]. split; [done|]. by rewrite insert_insert_eq.
Qed.

(** [restore_version]: when the flag exists the unit is enabled and
    started and the flag removed; otherwise nothing happens. *)
Lemma restore_version_ok v h h' :
  restore_version v h = (Ok tt, h') ->
  postgres h' = postgres h
  /\ if Os.exists_in (fs h) (flag_path h v)
     then fs h' = delete (flag_path h v) (fs h)
          /\ units h' = <[_get_service_name v := UnitState true true]> (units h)
     else h' = h.
Proof.
  unfold restore_version. unfold M.bind at 1.
  unfold _get_version_enabled_path at 1, M.bind at 1, M.gets at 1, M.ret at 1.
  fold (flag_path h v).
  unfold M.bind at 1, Os.path_exists at 1, M.gets at 1.
  destruct (Os.exists_in (fs h) (flag_path h v)) eqn:Hexists; [|by intros [= <-]].
  destruct (exists_in_some _ _ Hexists) as [n Hflag].
  unfold Util.logged_check_call.
  intros (h1 & (st & Hst & Hen)%systemctl_ok
          & (h2 & (st' & Hst' & Hstart)%systemctl_ok & Hrm)%seq_ok)%seq_ok; [|done..].
  unfold Os.systemctl_unit in Hen, Hstart. rewrite Hst in Hen. rewrite Hst' in Hstart.
  simpl in Hen, Hstart. injection Hen as <-. injection Hstart as <-. simpl in *.
  rewrite lookup_insert_eq in Hst'. injection Hst' as <-. simpl in Hrm.
  revert Hrm. unfold M.bind, _get_version_enabled_path, M.gets, M.ret, Os.remove, Os.unlink.
  simpl. fold (flag_path h v). rewrite Hflag. intros [= <-]. simpl.
  split; [done|]. split; [done|]. by rewrite insert_insert_eq.
Qed.


End Versions.

(** A loop over the versions whose body acts on the flag file and the unit
    of its own version only, when a condition on these two holds, and
    leaves them in a state where the condition no longer holds. *)
Section FlagLoop.
Import PostgresReinstallModernPackage.
Variables (step : Z -> M unit) (trigger : Host -> Z -> bool)
          (flag_after : option node) (unit_after : unit_state).

Hypothesis step_ok : forall v h h',
  step v h = (Ok tt, h') ->
  postgres h' = postgres h
  /\ if trigger h v
     then fs h' !! flag_path h v = flag_after
          /\ (forall q, q <> flag_path h v -> fs h' !! q = fs h !! q)
          /\ units h' = <[_get_service_name v := unit_after]> (units h)
     else fs h' = fs h /\ units h' = units h.

Hypothesis trigger_local : forall h1 h2 u,
  postgres h1 = postgres h2 ->
  fs h1 !! flag_path h1 u = fs h2 !! flag_path h2 u ->
  units h1 !! _get_service_name u = units h2 !! _get_service_name u ->
  trigger h1 u = trigger h2 u.

Hypothesis trigger_off : forall h u,
  fs h !! flag_path h u = flag_after ->
  units h !! _get_service_name u = Some unit_after ->
  trigger h u = false.

Lemma flag_path_same h h' u : postgres h' = postgres h -> flag_path h' u = flag_path h u.
Proof. unfold flag_path. by intros ->. Qed.

Lemma step_elsewhere v h h' u :
  step v h = (Ok tt, h') -> u <> v ->
  fs h' !! flag_path h u = fs h !! flag_path h u
  /\ units h' !! _get_service_name u = units h !! _get_service_name u.
Proof.
  intros [Hpg Hcase]%step_ok Hne. destruct (trigger h v).
  - destruct Hcase as (_ & Hfs & ->). split.
    + apply Hfs. intros Heq%FlagFacts.flag_path_inj. done.
    + rewrite lookup_insert_ne; [done|]. intros Heq%FlagFacts.service_name_inj. done.
  - destruct Hcase as [-> ->]. done.
Qed.

Lemma flag_loop l : forall h h',
  M.for_each l step h = (Ok tt, h') ->
  postgres h' = postgres h
  /\ forall u,
       (u ∈ l -> trigger h u = true ->
        fs h' !! flag_path h u = flag_after
        /\ units h' !! _get_service_name u = Some unit_after)
       /\ (u ∉ l \/ trigger h u = false ->
           fs h' !! flag_path h u = fs h !! flag_path h u
           /\ units h' !! _get_service_name u = units h !! _get_service_name u).
Proof.
  induction l as [|v l IH]; intros h h'.
  { intros [= <-]. split; [done|]. intros u. split; [|done].
    intros Hu. by apply elem_of_nil in Hu. }
  simpl. intros (h1 & Hstep & Hrest)%seq_ok.
  destruct (IH h1 h' Hrest) as [Hpg' Hloop].
  pose proof (step_ok v h h1 Hstep) as [Hpg Hcase].
  split; [by rewrite Hpg'|]. intros u.
  rewrite <- !(flag_path_same h h1 u Hpg).
  destruct (Hloop u) as [Hon Hoff].
  destruct (decide (u = v)) as [->|Hne].
  - destruct (trigger h v) eqn:Htrig.
    + destruct Hcase as (Hflag & _ & Hunits).
      assert (Hfalse : trigger h1 v = false).
      { apply trigger_off.
        - by rewrite (flag_path_same h h1 v Hpg).
        - rewrite Hunits. apply lookup_insert_eq. }
      destruct Hoff as [Hf Hu]; [by right|].
      rewrite (flag_path_same h h1 v Hpg) in Hf.
      rewrite (flag_path_same h h1 v Hpg).
      split; [intros _ _ | intros [Hnot|Hno]].
      * split; [by rewrite Hf | rewrite Hu, Hunits; apply lookup_insert_eq].
      * exfalso. apply Hnot. apply list_elem_of_here.
      * done.
    + destruct Hcase as [Hfs Hunits].
      assert (Hsame : trigger h1 v = false).
      { rewrite <- Htrig. apply trigger_local; [done | |by rewrite Hunits].
        by rewrite (flag_path_same h h1 v Hpg), Hfs. }
      destruct Hoff as [Hf Hu]; [by right|].
      split; [done|]. intros _. by rewrite Hf, Hu, Hfs, Hunits.
  - destruct (step_elsewhere v h h1 u Hstep Hne) as [Hf1 Hu1].
    assert (Hsame : trigger h1 u = trigger h u).
    { apply trigger_local; [done | |done]. by rewrite (flag_path_same h h1 u Hpg). }
    rewrite (flag_path_same h h1 u Hpg) in *.
    split.
    + intros [->|Hin]%elem_of_cons Htrig; [done|].
      apply Hon; [done | by rewrite Hsame].
    + intros Hcond. rewrite <- Hf1, <- Hu1. apply Hoff.
      destruct Hcond as [Hnot|Hno]; [left | right; by rewrite Hsame].
      intros Hin. apply Hnot. by apply list_elem_of_further.
Qed.

End FlagLoop.

Section DurableFlags.
Import PostgresReinstallModernPackage.

Lemma get_versions_run h :
  _get_versions h = (versions_in (postgres h), h).
Proof. reflexivity. Qed.

Lemma prepare_loop versions h h' :
  M.for_each versions prepare_version h = (Ok tt, h') ->
  postgres h' = postgres h
  /\ forall u,
       (u ∈ versions -> service_active h (_get_service_name u) = true ->
        fs h' !! flag_path h u = Some (RegularFile EmptyString)
        /\ units h' !! _get_service_name u = Some (UnitState false false))
       /\ (u ∉ versions \/ service_active h (_get_service_name u) = false ->
           fs h' !! flag_path h u = fs h !! flag_path h u
           /\ units h' !! _get_service_name u = units h !! _get_service_name u).
Proof.
  apply (flag_loop prepare_version (fun h u => service_active h (_get_service_name u))).
  - intros v h0 h1 [Hpg Hcase]%prepare_version_ok. split; [done|].
    destruct (service_active h0 (_get_service_name v)).
    + destruct Hcase as [-> ->]. split; [apply lookup_insert_eq|]. split; [|done].
      intros q Hq. by rewrite lookup_insert_ne.
    + by subst h1.
  - intros h1 h2 u _ _ Hu. unfold service_active. by rewrite Hu.
  - intros h0 u _ Hu. unfold service_active. by rewrite Hu.
Qed.

(** For a flag path that is not a symbolic link, the flag exists exactly
    when there is an entry at the path. *)
Lemma flagged_exists h v :
  not_a_link h (flag_path h v) -> Os.exists_in (fs h) (flag_path h v) = flagged h v.
Proof.
  unfold not_a_link, flagged. intros Hplain.
  destruct (fs h !! flag_path h v) as [[content|target]|] eqn:Hflag.
  - by apply (exists_in_regular _ _ content).
  - by destruct (Hplain target).
  - by apply exists_in_none.
Qed.

(** The loops of [_post_action] and [_revert_action], seen from one major
    version [v]: the steps of the other versions leave its flag and its
    unit alone. *)
Lemma restore_loop_at (step : Z -> M unit) v :
  (forall u h h', step u h = (Ok tt, h') ->
     exists h0, fs h0 = fs h /\ units h0 = units h /\ postgres h0 = postgres h
                /\ restore_version u h0 = (Ok tt, h')) ->
  forall versions h h',
    M.for_each versions step h = (Ok tt, h') ->
    not_a_link h (flag_path h v) ->
    postgres h' = postgres h
    /\ (v ∈ versions -> flagged h v = true ->
        fs h' !! flag_path h v = None
        /\ units h' !! _get_service_name v = Some (UnitState true true))
    /\ (v ∉ versions \/ flagged h v = false ->
        fs h' !! flag_path h v = fs h !! flag_path h v
        /\ units h' !! _get_service_name v = units h !! _get_service_name v).
Proof.
  intros Hstep. induction versions as [|u versions IH]; intros h h'.
  { intros [= <-] _. split; [done|]. split; [|done].
    intros Hin. by apply elem_of_nil in Hin. }
  simpl. intros (h1 & Hu & Hrest)%seq_ok Hplain.
  destruct (Hstep _ _ _ Hu) as (h0 & Hfs & Hunits & Hpg & [Hpg1 Hcase]%restore_version_ok).
  assert (Hpath0 : forall x, flag_path h0 x = flag_path h x)
    by (intros x; unfold flag_path; by rewrite Hpg).
  assert (Hpath1 : forall x, flag_path h1 x = flag_path h x)
    by (intros x; unfold flag_path; by rewrite Hpg1, Hpg).
  rewrite Hfs, Hunits, Hpath0 in Hcase.
  assert (Hkeep : u <> v ->
            fs h1 !! flag_path h v = fs h !! flag_path h v
            /\ units h1 !! _get_service_name v = units h !! _get_service_name v).
  { intros Hne. destruct (Os.exists_in (fs h) (flag_path h u)).
    - destruct Hcase as [-> ->]. split.
      + apply lookup_delete_ne. intros Heq%FlagFacts.flag_path_inj. done.
      + apply lookup_insert_ne. intros Heq%FlagFacts.service_name_inj. done.
    - subst h1. by rewrite Hfs, Hunits. }
  destruct (decide (u = v)) as [->|Hne].
  - rewrite (flagged_exists h v Hplain) in Hcase.
    destruct (flagged h v) eqn:Hflagged.
    + destruct Hcase as [Hfs1 Hunits1].
      assert (Hgone : fs h1 !! flag_path h v = None)
        by (rewrite Hfs1; apply lookup_delete_eq).
      destruct (IH h1 h' Hrest) as (Hpg' & _ & Hoff).
      { intros target. rewrite Hpath1, Hgone. done. }
      destruct Hoff as [Hf Hs].
      { right. unfold flagged. by rewrite Hpath1, Hgone. }
      rewrite Hpath1 in Hf. split; [by rewrite Hpg', Hpg1|]. split.
      * intros _ _. rewrite Hf, Hs, Hgone, Hunits1. split; [done|]. apply lookup_insert_eq.
      * intros [Hnot|?]; [|done]. exfalso. apply Hnot, list_elem_of_here.
    + assert (Hsame : fs h1 = fs h /\ units h1 = units h)
        by (subst h1; by rewrite Hfs, Hunits).
      destruct Hsame as [Hfs1 Hunits1].
      destruct (IH h1 h' Hrest) as (Hpg' & Hon & Hoff).
      { intros target. rewrite Hpath1, Hfs1. apply Hplain. }
      assert (Hflagged1 : flagged h1 v = false)
        by (unfold flagged in *; by rewrite Hpath1, Hfs1).
      destruct Hoff as [Hf Hs]; [by right|].
      rewrite Hpath1, Hfs1 in Hf. rewrite Hunits1 in Hs.
      split; [by rewrite Hpg', Hpg1|]. split; [intros _ ?; congruence | done].
  - destruct (Hkeep Hne) as [Hf1 Hs1].
    destruct (IH h1 h' Hrest) as (Hpg' & Hon & Hoff).
    { intros target. rewrite Hpath1, Hf1. apply Hplain. }
    assert (Hflagged1 : flagged h1 v = flagged h v)
      by (unfold flagged; by rewrite Hpath1, Hf1).
    rewrite Hpath1, Hflagged1, Hf1, Hs1 in *.
    split; [by rewrite Hpg', Hpg1|]. split.
    + intros [?|Hin]%elem_of_cons Hyes; [done|]. by apply Hon.
    + intros Hcond. apply Hoff. destruct Hcond as [Hnot|?]; [left | by right].
      intros Hin. apply Hnot. by apply list_elem_of_further.
Qed.

Lemma revert_loop v versions h h' :
  M.for_each versions restore_version h = (Ok tt, h') ->
  not_a_link h (flag_path h v) ->
  postgres h' = postgres h
  /\ (v ∈ versions -> flagged h v = true ->
      fs h' !! flag_path h v = None
      /\ units h' !! _get_service_name v = Some (UnitState true true))
  /\ (v ∉ versions \/ flagged h v = false ->
      fs h' !! flag_path h v = fs h !! flag_path h v
      /\ units h' !! _get_service_name v = units h !! _get_service_name v).
Proof.
  apply restore_loop_at. intros u h0 h1 Hstep. by exists h0.
Qed.



End DurableFlags.

(** Across a restart, of which only the host survives: the service that
    [prepare()] stopped is enabled and started again by [revert()], the one
    that was stopped before stays so, and no flag file is left. *)
Example prepare_restart_revert :
  let h1 := snd (PostgresReinstallModernPackage._prepare_action postgres12_host) in
  let h2 := snd (PostgresReinstallModernPackage._revert_action h1) in
  fst (PostgresReinstallModernPackage._prepare_action postgres12_host) = Ok tt
  /\ fs h1 !! "/var/lib/pgsql/12.enabled" = Some (RegularFile EmptyString)
  /\ fs h1 !! "/var/lib/pgsql/10.enabled" = None
  /\ fst (PostgresReinstallModernPackage._revert_action h1) = Ok tt
  /\ units h2 !! "postgresql-12" = Some (UnitState true true)
  /\ units h2 !! "postgresql-10" = Some (UnitState false false)
  /\ fs h2 = ∅.
Proof. vm_compute. repeat split. Qed.


(** * Further properties of the actions *)

(** ** Strings: association, separators, splitting *)

Module SplitFacts.

Lemma app_assoc (a b c : string) : (a ++ b) ++ c = a ++ (b ++ c).
Proof.
  induction a as [|x a IH]; [done|].
  change (String x ((a ++ b) ++ c) = String x (a ++ b ++ c)). by rewrite IH.
Qed.

Lemma app_nil_r (a : string) : a ++ EmptyString = a.
Proof.
  induction a as [|x a IH]; [done|].
  change (String x (a ++ EmptyString) = String x a). by rewrite IH.
Qed.

Lemma snoc_app cur c s : Str.snoc cur c ++ s = cur ++ String c s.
Proof. unfold Str.snoc. by rewrite app_assoc. Qed.

Lemma prefix_nil s : String.prefix EmptyString s = true.
Proof. by destruct s. Qed.

Lemma prefix_cons x w a s :
  String.prefix (String x w) (String a s) = true <-> x = a /\ String.prefix w s = true.
Proof.
  simpl. destruct (ascii_dec x a) as [->|Hne]; [tauto|]. split; [done | tauto].
Qed.

(** A pattern matched against a text that runs into a character the
    pattern does not have has matched before that character. *)
Lemma prefix_before w c u t :
  Str.find_char c w = None ->
  String.prefix w (u ++ String c t) = true -> String.prefix w u = true.
Proof.
  revert u. induction w as [|x w IH]; intros u Hfree; [intros _; apply prefix_nil|].
  simpl in Hfree. destruct (Ascii.eqb_spec x c) as [->|Hx]; [done|].
  assert (Hfree' : Str.find_char c w = None) by by destruct (Str.find_char c w).
  destruct u as [|a u].
  - intros [-> _]%prefix_cons. done.
  - change (String a u ++ String c t) with (String a (u ++ String c t)).
    intros [-> H]%prefix_cons. apply prefix_cons. split; [done|]. by apply IH.
Qed.

Lemma prefix_extend w u t : String.prefix w u = true -> String.prefix w (u ++ t) = true.
Proof.
  revert u. induction w as [|x w IH]; intros u; [intros _; apply prefix_nil|].
  destruct u as [|a u]; [done|].
  change (String a u ++ t) with (String a (u ++ t)).
  intros [-> H]%prefix_cons. apply prefix_cons. split; [done|]. by apply IH.
Qed.

Lemma prefix_at_separator w c u t :
  Str.find_char c w = None ->
  String.prefix w (u ++ String c t) = String.prefix w u.
Proof.
  intros Hfree. destruct (String.prefix w u) eqn:Hu.
  - by apply prefix_extend.
  - destruct (String.prefix w (u ++ String c t)) eqn:H; [|done].
    apply prefix_before in H; [congruence | done].
Qed.

Lemma find_char_cons c x w :
  Str.find_char c (String x w) = None -> x <> c /\ Str.find_char c w = None.
Proof.
  simpl. destruct (Ascii.eqb_spec x c) as [->|Hx]; [done|].
  by destruct (Str.find_char c w).
Qed.

Lemma find_char_app c a b :
  Str.find_char c a = None -> Str.find_char c b = None -> Str.find_char c (a ++ b) = None.
Proof.
  induction a as [|x a IH]; [done|]. intros [Hx Ha]%find_char_cons Hb. simpl.
  destruct (Ascii.eqb_spec x c); [done|]. by rewrite IH.
Qed.

(** [s.split(c)] *)
Lemma split_free c s : Str.find_char c s = None -> Str.split c s = [s].
Proof.
  induction s as [|x s IH]; [done|]. intros [Hx Hs]%find_char_cons. simpl.
  destruct (Ascii.eqb_spec x c); [done|]. by rewrite IH.
Qed.

Lemma split_nonempty c s : exists w ws, Str.split c s = w :: ws.
Proof.
  induction s as [|x s (w & ws & IH)]; simpl; [eauto|].
  destruct (Ascii.eqb x c); [eauto|]. rewrite IH. eauto.
Qed.

Lemma split_app_free c v t w ws :
  Str.find_char c v = None -> Str.split c t = w :: ws ->
  Str.split c (v ++ t) = (v ++ w) :: ws.
Proof.
  intros Hv Ht. induction v as [|x v IH]; [done|].
  apply find_char_cons in Hv as [Hx Hv]. simpl.
  destruct (Ascii.eqb_spec x c); [done|]. by rewrite (IH Hv).
Qed.

Lemma split_at c v t :
  Str.find_char c v = None -> exists ws, Str.split c (v ++ String c t) = v :: ws.
Proof.
  intros Hv. destruct (split_nonempty c t) as (w & ws & Ht).
  eexists. rewrite (split_app_free c v (String c t) EmptyString (w :: ws) Hv).
  - by rewrite app_nil_r.
  - simpl. rewrite Ascii.eqb_refl. by rewrite Ht.
Qed.

(** [s.split(sep)] for a separator of several characters *)
Section Separator.
Variables (c0 : ascii) (sep' : string).
Let sep : string := String c0 sep'.

Lemma split_str_go_fuel n m cur s :
  (String.length s < n)%nat -> (String.length s < m)%nat ->
  Str.split_str_go n sep cur s = Str.split_str_go m sep cur s.
Proof.
  revert m cur s. induction n as [|n IH]; intros [|m] cur s Hn Hm; try lia.
  destruct s as [|c s]; [done|].
  cbn [Str.split_str_go].
  destruct (String.prefix sep (String c s)).
  - f_equal. apply IH; rewrite ReplaceFacts.length_drop; simpl in *; lia.
  - apply IH; simpl in *; lia.
Qed.

Lemma splits_cons cur c s :
  splits sep cur (String c s)
  = if String.prefix sep (String c s)
    then cur :: splits sep EmptyString (Str.drop (String.length sep) (String c s))
    else splits sep (Str.snoc cur c) s.
Proof.
  unfold splits at 1. cbn [Str.split_str_go].
  destruct (String.prefix sep (String c s)).
  - f_equal. apply split_str_go_fuel; rewrite ?ReplaceFacts.length_drop; simpl; lia.
  - reflexivity.
Qed.

Lemma splits_absent s : forall cur,
  Str.contains sep s = false -> splits sep cur s = [cur ++ s].
Proof.
  induction s as [|c s IH]; intros cur H.
  - unfold splits. simpl. by rewrite app_nil_r.
  - rewrite splits_cons, (ReplaceFacts.contains_head _ _ H).
    rewrite IH; [by rewrite snoc_app|]. by apply ReplaceFacts.contains_tail in H.
Qed.

Lemma splits_head n : forall s cur,
  (String.length s <= n)%nat -> exists x rest, splits sep cur s = (cur ++ x) :: rest.
Proof.
  induction n as [|n IH]; intros s cur Hn.
  { destruct s; [|simpl in Hn; lia]. exists EmptyString, []. unfold splits. simpl.
    by rewrite app_nil_r. }
  destruct s as [|c s].
  { exists EmptyString, []. unfold splits. simpl. by rewrite app_nil_r. }
  rewrite splits_cons. destruct (String.prefix sep (String c s)).
  - exists EmptyString. eexists. by rewrite app_nil_r.
  - destruct (IH s (Str.snoc cur c)) as (x & rest & ->); [simpl in Hn; lia|].
    exists (String c x), rest. by rewrite snoc_app.
Qed.

(** Characters other than the first one of the separator are passed
    over. *)
Lemma splits_skip v : forall cur t,
  Str.find_char c0 v = None -> splits sep cur (v ++ t) = splits sep (cur ++ v) t.
Proof.
  induction v as [|x v IH]; intros cur t Hv; [by rewrite app_nil_r|].
  apply find_char_cons in Hv as [Hx Hv].
  change (String x v ++ t) with (String x (v ++ t)). rewrite splits_cons.
  assert (Hpre : String.prefix sep (String x (v ++ t)) = false).
  { unfold sep. simpl. destruct (ascii_dec c0 x); congruence. }
  rewrite Hpre, IH; [|done]. by rewrite snoc_app.
Qed.

(** The first occurrence of the separator ends the first piece, when the
    first character of the separator occurs nowhere else in it. *)
Hypothesis sep'_free : Str.find_char c0 sep' = None.

Lemma no_early_match pre rest :
  Str.contains sep pre = false ->
  pre <> EmptyString ->
  String.prefix sep (pre ++ sep ++ rest) = false.
Proof.
  intros Hpre Hne. destruct pre as [|a pre]; [done|].
  destruct (String.prefix sep (String a pre ++ sep ++ rest)) eqn:H; [|done].
  exfalso. apply ReplaceFacts.contains_head in Hpre.
  change (String a pre ++ sep ++ rest) with (String a (pre ++ String c0 (sep' ++ rest))) in H.
  unfold sep in H. apply prefix_cons in H as [<- H].
  apply prefix_before in H; [|done].
  assert (String.prefix sep (String c0 pre) = true) by (apply prefix_cons; done).
  congruence.
Qed.

Lemma splits_first pre : forall cur rest,
  Str.contains sep pre = false ->
  splits sep cur (pre ++ sep ++ rest) = (cur ++ pre) :: splits sep EmptyString rest.
Proof.
  induction pre as [|a pre IH]; intros cur rest Hpre.
  - rewrite app_nil_r. change (EmptyString ++ sep ++ rest) with (String c0 (sep' ++ rest)).
    rewrite splits_cons. change (String c0 (sep' ++ rest)) with (sep ++ rest).
    by rewrite ReplaceFacts.prefix_app, ReplaceFacts.drop_app.
  - pose proof (no_early_match (String a pre) rest Hpre) as Hno.
    change (String a pre ++ sep ++ rest) with (String a (pre ++ sep ++ rest)) in *.
    rewrite splits_cons, Hno; [|done].
    rewrite IH; [by rewrite snoc_app|]. by apply ReplaceFacts.contains_tail in Hpre.
Qed.
End Separator.

End SplitFacts.

(** ** Detection of the database server (src/actions/mariadb.py) *)

Lemma get_mariadb_utilname_run h :
  _get_mariadb_utilname h = (fst (_get_mariadb_utilname h), h).
Proof. apply readonly_run, readonly_get_mariadb_utilname. Qed.

Lemma readonly_is_mysql_installed : readonly _is_mysql_installed.
Proof.
  unfold _is_mysql_installed. pose proof readonly_get_mariadb_utilname. readonly.
Qed.

(** What the two detectors answer once the client program is known. *)
Lemma detectors_run h :
  _is_mariadb_installed h
  = match fst (_get_mariadb_utilname h) with
    | Ok None => (Ok false, h)
    | Ok (Some util) =>
        if (util =? "mariadb")%string then (Ok true, h)
        else match programs h !! [util; "--version"] with
             | Some (returncode, out) =>
                 if returncode =? 0 then (Ok (Str.contains "MariaDB" out), h)
                 else (Ok false, h)
             | None => (Raise (FileNotFoundError util), h)
             end
    | Raise e => (Raise e, h)
    end
  /\ _is_mysql_installed h
     = match fst (_get_mariadb_utilname h) with
       | Ok None => (Ok false, h)
       | Ok (Some util) =>
           if (util =? "mariadb")%string then (Ok false, h)
           else match programs h !! [util; "--version"] with
                | Some (returncode, out) =>
                    if returncode =? 0 then (Ok (negb (Str.contains "MariaDB" out)), h)
                    else (Ok false, h)
                | None => (Raise (FileNotFoundError util), h)
                end
       | Raise e => (Raise e, h)
       end.
Proof.
  unfold _is_mariadb_installed, _is_mysql_installed, M.bind.
  generalize (get_mariadb_utilname_run h).
  destruct (_get_mariadb_utilname h) as [r h1]. simpl. intros [= ->].
  destruct r as [[util|]|e]; [|done..].
  destruct (util =? "mariadb")%string; [done|].
  unfold Os.subprocess_run, M.ret.
  destruct (programs h !! [util; "--version"]) as [[returncode out]|]; [|done].
  simpl. by destruct (returncode =? 0).
Qed.

(** X1: a host is never taken for both a MariaDB and a MySQL server.
    When [_is_mysql_installed] answers True, [_is_mariadb_installed] and
    the requirement tests of both MariaDB actions answer False; when
    [_is_mariadb_installed] answers True, [AddMysqlConnector] is not
    required; with no client program found neither answers True.  The
    detection leaves the host as it was. *)
Theorem mysql_and_mariadb_exclusive (h : Host) :
  snd (_is_mysql_installed h) = h
  /\ (fst (_is_mysql_installed h) = Ok true ->
      fst (_is_mariadb_installed h) = Ok false
      /\ AvoidMariadbDowngrade._is_required h = (Ok false, h)
      /\ UpdateMariadbDatabase._is_required h = (Ok false, h))
  /\ (fst (_is_mariadb_installed h) = Ok true ->
      AddMysqlConnector._is_required h = (Ok false, h))
  /\ (fst (_get_mariadb_utilname h) = Ok None ->
      fst (_is_mariadb_installed h) = Ok false
      /\ fst (_is_mysql_installed h) = Ok false).
Proof.
  destruct (detectors_run h) as [Hmaria Hmysql].
  split; [apply readonly_is_mysql_installed|].
  assert (Hexcl : fst (_is_mysql_installed h) = Ok true ->
                  _is_mariadb_installed h = (Ok false, h)).
  { rewrite Hmaria, Hmysql.
    destruct (fst (_get_mariadb_utilname h)) as [[util|]|e]; try done.
    destruct (util =? "mariadb")%string; [done|].
    destruct (programs h !! [util; "--version"]) as [[returncode out]|]; [|done].
    destruct (returncode =? 0); [|done]. simpl.
    by destruct (Str.contains "MariaDB" out). }
  split; [|split].
  - intros Hm. specialize (Hexcl Hm).
    unfold AvoidMariadbDowngrade._is_required, UpdateMariadbDatabase._is_required, M.bind.
    by rewrite Hexcl.
  - unfold AddMysqlConnector._is_required. rewrite Hmaria, Hmysql.
    destruct (fst (_get_mariadb_utilname h)) as [[util|]|e]; try done.
    destruct (util =? "mariadb")%string; [done|].
    destruct (programs h !! [util; "--version"]) as [[returncode out]|]; [|done].
    destruct (returncode =? 0); [|done]. simpl.
    by destruct (Str.contains "MariaDB" out).
  - rewrite Hmaria, Hmysql. by intros ->.
Qed.

Lemma mysql_and_mariadb_exclusive_witness :
  fst (_is_mysql_installed mysql57_host) = Ok true
  /\ fst (_is_mariadb_installed mysql57_host) = Ok false
  /\ AvoidMariadbDowngrade._is_required mysql57_host = (Ok false, mysql57_host)
  /\ fst (_is_mariadb_installed mariadb55_host) = Ok true
  /\ AddMysqlConnector._is_required mariadb55_host = (Ok false, mariadb55_host)
  /\ fst (_get_mariadb_utilname bare_host) = Raise (FileNotFoundError "which").
Proof.
  destruct (mysql_and_mariadb_exclusive mysql57_host) as (_ & Hmysql & _ & _).
  destruct (mysql_and_mariadb_exclusive mariadb55_host) as (_ & _ & Hmaria & _).
  assert (H1 : fst (_is_mysql_installed mysql57_host) = Ok true) by (vm_compute; reflexivity).
  assert (H2 : fst (_is_mariadb_installed mariadb55_host) = Ok true)
    by (vm_compute; reflexivity).
  split; [exact H1|]. split; [exact (proj1 (Hmysql H1))|].
  split; [exact (proj1 (proj2 (Hmysql H1)))|].
  split; [exact H2|]. split; [exact (Hmaria H2)|].
  vm_compute; reflexivity.
Defined.

(** ** The version in the banner of the client (src/actions/mariadb.py) *)

Lemma get_mariadb_version_run h util out :
  fst (_get_mariadb_utilname h) = Ok (Some util) ->
  programs h !! [util; "--version"] = Some (0, out) ->
  _get_mariadb_version h = (distrib_version out, h).
Proof.
  intros Hutil Hrun. unfold _get_mariadb_version, M.bind.
  rewrite get_mariadb_utilname_run, Hutil. unfold Os.subprocess_run. by rewrite Hrun.
Qed.

Lemma distrib_version_absent out :
  Str.contains "Distrib " out = false -> distrib_version out = Raise IndexError.
Proof.
  intros H. unfold distrib_version.
  change (Str.split_str "Distrib " out) with (splits "Distrib " EmptyString out).
  by rewrite (SplitFacts.splits_absent "D" "istrib " out EmptyString H).
Qed.

Lemma distrib_version_present pre v c tail :
  Str.contains "Distrib " pre = false ->
  Str.find_char "D" v = None -> Str.find_char "," v = None -> Str.find_char "-" v = None ->
  c = ","%char \/ c = "-"%char ->
  distrib_version (pre ++ "Distrib " ++ v ++ String c tail) = Ok v.
Proof.
  intros Hpre HD Hcomma Hdash Hc. unfold distrib_version.
  change (Str.split_str "Distrib " ?s) with (splits "Distrib " EmptyString s).
  rewrite (SplitFacts.splits_first "D" "istrib " eq_refl pre EmptyString _ Hpre).
  assert (Hfree : Str.find_char "D" (v ++ String c EmptyString) = None).
  { apply SplitFacts.find_char_app; [done|]. by destruct Hc as [-> | ->]. }
  replace (v ++ String c tail) with ((v ++ String c EmptyString) ++ tail)
    by by rewrite SplitFacts.app_assoc.
  rewrite (SplitFacts.splits_skip "D" "istrib " _ EmptyString tail Hfree).
  destruct (SplitFacts.splits_head "D" "istrib " _ tail
              (EmptyString ++ v ++ String c EmptyString) (le_n _)) as (x & rest & ->).
  simpl. change (EmptyString ++ ?s) with s.
  rewrite !SplitFacts.app_assoc. change (String c EmptyString ++ x) with (String c x).
  destruct Hc as [-> | ->].
  - destruct (SplitFacts.split_at "," v x Hcomma) as (ws & ->). simpl.
    by rewrite (SplitFacts.split_free "-" v Hdash).
  - destruct (SplitFacts.split_nonempty "," x) as (w & ws & Hx).
    rewrite (SplitFacts.split_app_free "," v (String "-" x) (String "-" w) ws Hcomma);
      [|simpl; by rewrite Hx].
    simpl. destruct (SplitFacts.split_at "-" v w Hdash) as (ws' & ->). done.
Qed.

(** X2: the version is read from a banner of the form
    "<pre>Distrib <v>,<tail>" or "<pre>Distrib <v>-<tail>".  When <pre>
    does not contain "Distrib " and <v> has none of the characters D,
    comma and hyphen, [_get_mariadb_version] returns <v> and leaves the
    host as it was. *)
Theorem mariadb_version_of_banner (h : Host) (util pre v tail : string) (c : ascii) :
  fst (_get_mariadb_utilname h) = Ok (Some util) ->
  programs h !! [util; "--version"] = Some (0, pre ++ "Distrib " ++ v ++ String c tail) ->
  Str.contains "Distrib " pre = false ->
  Str.find_char "D" v = None -> Str.find_char "," v = None -> Str.find_char "-" v = None ->
  c = ","%char \/ c = "-"%char ->
  _get_mariadb_version h = (Ok v, h).
Proof.
  intros Hutil Hrun Hpre HD Hcomma Hdash Hc.
  rewrite (get_mariadb_version_run h util _ Hutil Hrun).
  by rewrite distrib_version_present.
Qed.

Lemma mariadb_version_of_banner_witness :
  _get_mariadb_version mariadb55_host = (Ok "5.5.68", mariadb55_host)
  /\ _get_mariadb_version mysql57_host = (Ok "5.7.44", mysql57_host).
Proof.
  split.
  - apply (mariadb_version_of_banner mariadb55_host "mysql" "mysql  Ver 15.1 " "5.5.68"
             ("MariaDB, for Linux (x86_64) using readline 5.1" ++ Str.nl) "-");
      try (vm_compute; reflexivity).
    right. reflexivity.
  - apply (mariadb_version_of_banner mysql57_host "mysql" "mysql  Ver 14.14 " "5.7.44"
             (" for Linux (x86_64) using  EditLine wrapper" ++ Str.nl) ",");
      try (vm_compute; reflexivity).
    left. reflexivity.
Defined.

(** X3: a banner without the field "Distrib " makes
    [_get_mariadb_version] raise [IndexError]; when the client is
    [mariadb], or the banner mentions MariaDB, the requirement tests of
    [AvoidMariadbDowngrade] and [UpdateMariadbDatabase] raise it too.  The
    host is left as it was. *)
Theorem mariadb_version_without_distrib_field (h : Host) (util out : string) :
  fst (_get_mariadb_utilname h) = Ok (Some util) ->
  programs h !! [util; "--version"] = Some (0, out) ->
  Str.contains "Distrib " out = false ->
  _get_mariadb_version h = (Raise IndexError, h)
  /\ (util = "mariadb" \/ Str.contains "MariaDB" out = true ->
      AvoidMariadbDowngrade._is_required h = (Raise IndexError, h)
      /\ UpdateMariadbDatabase._is_required h = (Raise IndexError, h)).
Proof.
  intros Hutil Hrun Hout.
  assert (Hversion : _get_mariadb_version h = (Raise IndexError, h)).
  { rewrite (get_mariadb_version_run h util out Hutil Hrun).
    by rewrite distrib_version_absent. }
  split; [exact Hversion|]. intros Hcase.
  assert (Hinst : _is_mariadb_installed h = (Ok true, h)).
  { rewrite (proj1 (detectors_run h)), Hutil.
    destruct (String.eqb_spec util "mariadb") as [Heq|Hne]; [done|].
    destruct Hcase as [Heq|Hbanner]; [done|]. by rewrite Hrun, Hbanner. }
  unfold AvoidMariadbDowngrade._is_required, UpdateMariadbDatabase._is_required, M.bind.
  by rewrite Hinst, Hversion.
Qed.

Lemma mariadb_version_without_distrib_field_witness :
  fst (_get_mariadb_utilname mariadb11_host) = Ok (Some "mariadb")
  /\ _get_mariadb_version mariadb11_host = (Raise IndexError, mariadb11_host)
  /\ AvoidMariadbDowngrade._is_required mariadb11_host = (Raise IndexError, mariadb11_host).
Proof.
  assert (Hutil : fst (_get_mariadb_utilname mariadb11_host) = Ok (Some "mariadb"))
    by (vm_compute; reflexivity).
  destruct (mariadb_version_without_distrib_field mariadb11_host "mariadb"
              ("mariadb from 11.4.2-MariaDB, client 15.2 for Linux (x86_64) using readline 5.1"
               ++ Str.nl) Hutil) as [Hversion Hreq];
    [vm_compute; reflexivity | vm_compute; reflexivity |].
  split; [exact Hutil|]. split; [exact Hversion|].
  apply Hreq. left. reflexivity.
Defined.

(** ** Transitivity of the version comparison (src/actions/mariadb.py) *)

Lemma lex_greater_trans a : forall b c,
  lex_greater a b = true -> lex_greater b c = true -> lex_greater a c = true.
Proof.
  induction a as [|x a IH]; intros [|y b] [|z c]; simpl; try done.
  destruct (Z.gtb_spec x y) as [Hxy|Hxy].
  - intros _. destruct (Z.gtb_spec y z) as [Hyz|Hyz].
    + intros _. destruct (Z.gtb_spec x z); [done | lia].
    + destruct (Z.gtb_spec z y) as [Hzy|Hzy]; [done|]. intros _.
      destruct (Z.gtb_spec x z); [done | lia].
  - destruct (Z.gtb_spec y x) as [Hyx|Hyx]; [done|].
    assert (x = y) as -> by lia. intros Hab.
    destruct (Z.gtb_spec y z) as [Hyz|Hyz]; [done|].
    destruct (Z.gtb_spec z y) as [Hzy|Hzy]; [done|]. by apply IH.
Qed.

(** X4: on dot-separated numeric versions [_is_version_larger] is
    transitive, also between versions with different numbers of
    components: when it answers True for [a] against [b] and for [b]
    against [c], it answers True for [a] against [c]. *)
Theorem is_version_larger_transitive (a b c : string) :
  numeric_version a = true -> numeric_version b = true -> numeric_version c = true ->
  _is_version_larger a b = Ok true ->
  _is_version_larger b c = Ok true ->
  _is_version_larger a c = Ok true.
Proof.
  unfold _is_version_larger, numeric_version. intros Ha Hb Hc.
  rewrite (loop_numeric _ _ Ha Hb), (loop_numeric _ _ Hb Hc), (loop_numeric _ _ Ha Hc).
  intros [= Hab] [= Hbc]. f_equal. by apply (lex_greater_trans _ _ _ Hab Hbc).
Qed.

Lemma is_version_larger_transitive_witness :
  _is_version_larger "10.11" "10.3.35" = Ok true
  /\ _is_version_larger "10.3.35" "5.5.68.1" = Ok true
  /\ _is_version_larger "10.11" "5.5.68.1" = Ok true.
Proof.
  assert (H1 : _is_version_larger "10.11" "10.3.35" = Ok true) by reflexivity.
  assert (H2 : _is_version_larger "10.3.35" "5.5.68.1" = Ok true) by reflexivity.
  split; [exact H1|]. split; [exact H2|].
  exact (is_version_larger_transitive "10.11" "10.3.35" "5.5.68.1"
           eq_refl eq_refl eq_refl H1 H2).
Defined.

(** ** The checks of src/actions/common.py: lines, components, errors *)






(** X7: [DistroIsCentos79] raises [ValueError] whenever the version of the
    distribution has no dot, whatever the name of the distribution is: the
    two components are unpacked before the name is looked at.  This
    includes the empty version reported for an unknown distribution.  The
    host is left as it was. *)
Theorem centos_check_needs_two_components (h : Host) (distname version id : string) :
  linux_distribution h = (distname, version, id) ->
  Str.find_char "." version = None ->
  DistroIsCentos79._do_check h = (Raise ValueError, h).
Proof.
  intros Hdistro Hfree.
  unfold DistroIsCentos79._do_check, M.bind, M.gets, M.lift. rewrite Hdistro.
  unfold DistroIsCentos79.check_distro. by rewrite (SplitFacts.split_free _ _ Hfree).
Qed.

Lemma centos_check_needs_two_components_witness :
  DistroIsCentos79._do_check bare_host = (Raise ValueError, bare_host)
  /\ DistroIsCentos79._do_check (with_distribution ("Debian GNU/Linux", "12", "bookworm") bare_host)
     = (Raise ValueError, with_distribution ("Debian GNU/Linux", "12", "bookworm") bare_host).
Proof.
  split.
  - apply (centos_check_needs_two_components bare_host EmptyString EmptyString EmptyString);
      reflexivity.
  - apply (centos_check_needs_two_components _ "Debian GNU/Linux" "12" "bookworm");
      reflexivity.
Defined.

(** ** Requirement tests of src/cloudlinux7to8/actions/postgres.py *)

Lemma int_each_numeric entries :
  Forall (fun dataset => Str.is_ascii dataset = true) entries ->
  PostgresReinstallModernPackage.int_each entries
  = Ok (map Str.decimal (List.filter Str.numeric entries)).
Proof.
  induction entries as [|d entries IH]; [done|].
  intros [Hd Hrest]%Forall_cons. simpl. unfold Str.isnumeric. rewrite Hd.
  destruct (Str.numeric d) eqn:Hnum; [|by apply IH].
  by rewrite (StrFacts.int_numeric d Hnum), (IH Hrest).
Qed.

Lemma existsb_numeric entries :
  existsb (fun major_version => major_version >=? _ALMA8_POSTGRES_VERSION)
    (map Str.decimal (List.filter Str.numeric entries))
  = existsb (fun d => Str.numeric d && (10 <=? Str.decimal d)) entries.
Proof.
  induction entries as [|d entries IH]; [done|]. simpl.
  destruct (Str.numeric d); simpl; by rewrite IH, ?Z.geb_leb.
Qed.

(** X9: when the PostgreSQL root can be listed and its entries have ASCII
    names, the versions of [PostgresReinstallModernPackage] are the numbers
    denoted by the entries made of digits only, in the order of the
    listing: other entries are passed over, and no entry that passes
    [isnumeric] makes [int] raise.  The action is then required exactly
    when PostgreSQL is installed and one of these numbers is 10 or more.
    When PostgreSQL is not installed [_is_required] answers False without
    listing the root; when the root cannot be listed [_get_versions]
    raises [FileNotFoundError]. *)
Theorem reinstall_versions_are_numeric_entries (h : Host) :
  (forall entries,
     pgsql_root_entries (postgres h) = Some entries ->
     Forall (fun dataset => Str.is_ascii dataset = true) entries ->
     PostgresReinstallModernPackage._get_versions h
     = (Ok (map Str.decimal (List.filter Str.numeric entries)), h)
     /\ PostgresReinstallModernPackage._is_required h
        = (Ok (is_postgres_installed (postgres h)
               && existsb (fun d => Str.numeric d && (10 <=? Str.decimal d)) entries), h))
  /\ (is_postgres_installed (postgres h) = false ->
      PostgresReinstallModernPackage._is_required h = (Ok false, h))
  /\ (pgsql_root_entries (postgres h) = None ->
      PostgresReinstallModernPackage._get_versions h
      = (Raise (FileNotFoundError (get_pgsql_root_path (postgres h))), h)).
Proof.
  split; [|split].
  - intros entries Hlist Hascii.
    assert (Hversions : PostgresReinstallModernPackage._get_versions h
      = (Ok (map Str.decimal (List.filter Str.numeric entries)), h)).
    { unfold PostgresReinstallModernPackage._get_versions, M.bind, M.gets, M.lift.
      unfold PostgresReinstallModernPackage.versions_in.
      by rewrite Hlist, (int_each_numeric _ Hascii). }
    split; [exact Hversions|].
    unfold PostgresReinstallModernPackage._is_required, M.bind, M.gets at 1.
    destruct (is_postgres_installed (postgres h)); [|done].
    rewrite Hversions. unfold M.ret. simpl. by rewrite existsb_numeric.
  - intros Hno. unfold PostgresReinstallModernPackage._is_required, M.bind, M.gets at 1.
    by rewrite Hno.
  - intros Hnone.
    unfold PostgresReinstallModernPackage._get_versions, M.bind, M.gets, M.lift.
    unfold PostgresReinstallModernPackage.versions_in. by rewrite Hnone.
Qed.

Lemma reinstall_versions_are_numeric_entries_witness :
  PostgresReinstallModernPackage._get_versions postgres12_host = (Ok [10; 12], postgres12_host)
  /\ PostgresReinstallModernPackage._is_required postgres12_host = (Ok true, postgres12_host)
  /\ PostgresReinstallModernPackage._is_required bare_host = (Ok false, bare_host)
  /\ PostgresReinstallModernPackage._get_versions bare_host
     = (Raise (FileNotFoundError "/var/lib/pgsql"), bare_host).
Proof.
  destruct (reinstall_versions_are_numeric_entries postgres12_host) as (Hlisted & _ & _).
  destruct (reinstall_versions_are_numeric_entries bare_host) as (_ & Hnot & Hmissing).
  destruct (Hlisted ["10"; "12"; "backups"] eq_refl) as [Hversions Hrequired].
  { repeat (apply Forall_cons; split; [reflexivity|]). apply Forall_nil_2. }
  split; [exact Hversions|]. split; [exact Hrequired|].
  split; [exact (Hnot eq_refl) | exact (Hmissing eq_refl)].
Defined.

(** ** Replacing a string: what is left, and texts with separators *)

Module RemovalFacts.

Lemma prefix_differs a : forall b r,
  differs a b = true -> String.prefix a (b ++ r) = false.
Proof.
  induction a as [|x a IH]; intros [|y b] r; simpl; try done.
  destruct (Ascii.eqb_spec x y) as [->|Hne].
  - intros H. change (String y b ++ r) with (String y (b ++ r)). simpl.
    destruct (ascii_dec y y); [by apply IH | done].
  - intros _. change (String y b ++ r) with (String y (b ++ r)). simpl.
    by destruct (ascii_dec x y).
Qed.

Lemma contains_nil c w : Str.contains (String c w) EmptyString = false.
Proof. reflexivity. Qed.

Lemma contains_cons sub a s :
  Str.contains sub (String a s) = String.prefix sub (String a s) || Str.contains sub s.
Proof. reflexivity. Qed.

Lemma prefix_drop_app old pre x :
  String.prefix old pre = true ->
  Str.drop (String.length old) (pre ++ x) = Str.drop (String.length old) pre ++ x.
Proof.
  intros H. rewrite (ReplaceFacts.prefix_split old pre H) at 1.
  rewrite SplitFacts.app_assoc, ReplaceFacts.drop_app.
  rewrite (ReplaceFacts.prefix_split old pre H) at 2.
  by rewrite ReplaceFacts.drop_app.
Qed.

(** Both patterns begin with the character [c0], which occurs nowhere
    else in either, and they differ further on: the replacement leaves no
    occurrence of the pattern replaced. *)
Section Removal.
Variables (c0 : ascii) (old' new' : string).
Hypothesis old'_free : Str.find_char c0 old' = None.
Hypothesis new'_free : Str.find_char c0 new' = None.
Hypothesis clash : differs old' new' = true.
Let old : string := String c0 old'.
Let new : string := String c0 new'.

Lemma contains_skip w : forall r,
  Str.find_char c0 w = None -> Str.contains old (w ++ r) = Str.contains old r.
Proof.
  induction w as [|x w IH]; intros r Hw; [done|].
  apply SplitFacts.find_char_cons in Hw as [Hx Hw].
  change (String x w ++ r) with (String x (w ++ r)). rewrite contains_cons.
  rewrite IH; [|done]. unfold old. simpl. by destruct (ascii_dec c0 x).
Qed.

Lemma replace_removes_go n : forall s,
  (String.length s <= n)%nat -> Str.contains old (Str.replace old new s) = false.
Proof.
  induction n as [|n IH]; intros s Hn.
  { destruct s; [done | simpl in Hn; lia]. }
  destruct s as [|a s]; [done|].
  unfold old at 2. rewrite ReplaceFacts.replace_cons. fold old.
  destruct (String.prefix old (String a s)) eqn:Hpre.
  - change (new ++ ?r) with (String c0 (new' ++ r)). rewrite contains_cons.
    rewrite contains_skip; [|done].
    rewrite IH; [|rewrite ReplaceFacts.length_drop; simpl in *; lia].
    unfold old at 1. simpl. destruct (ascii_dec c0 c0); [|done].
    by rewrite prefix_differs.
  - rewrite contains_cons, IH; [|simpl in Hn; lia].
    destruct (String.prefix old (String a (Str.replace old new s))) eqn:Hback; [|done].
    exfalso. unfold old in Hback at 1. apply SplitFacts.prefix_cons in Hback as [<- Hback].
    apply (ReplaceFacts.prefix_survives c0 old' new') in Hback; [|done].
    assert (String.prefix old (String c0 s) = true) by by apply SplitFacts.prefix_cons.
    congruence.
Qed.

Lemma replace_removes s : Str.contains old (Str.replace old new s) = false.
Proof. by apply (replace_removes_go (String.length s)). Qed.
End Removal.

(** The first character of the pattern occurs nowhere else in it: the
    first occurrence is replaced where it stands. *)
Section FirstOccurrence.
Variables (c0 : ascii) (old' new : string).
Hypothesis old'_free : Str.find_char c0 old' = None.
Let old : string := String c0 old'.

Lemma replace_first pre : forall r,
  Str.contains old pre = false ->
  Str.replace old new (pre ++ old ++ r) = pre ++ new ++ Str.replace old new r.
Proof.
  induction pre as [|a pre IH]; intros r Hpre.
  - unfold old at 1. apply ReplaceFacts.replace_match.
  - pose proof (SplitFacts.no_early_match c0 old' old'_free (String a pre) r Hpre) as Hno.
    specialize (Hno ltac:(done)).
    change (String a pre ++ ?x) with (String a (pre ++ x)) in *.
    unfold old in *. rewrite ReplaceFacts.replace_cons, Hno. f_equal. apply IH.
    by apply ReplaceFacts.contains_tail in Hpre.
Qed.
End FirstOccurrence.

(** A character the pattern does not have separates the text into two
    parts that are replaced independently. *)
Section Separated.
Variables (c0 : ascii) (old' new : string) (c : ascii).
Let old : string := String c0 old'.
Hypothesis separator : Str.find_char c old = None.

Lemma replace_separated_go n : forall pre t,
  (String.length pre <= n)%nat ->
  Str.replace old new (pre ++ String c t)
  = Str.replace old new pre ++ Str.replace old new (String c t).
Proof.
  induction n as [|n IH]; intros pre t Hn.
  { destruct pre; [done | simpl in Hn; lia]. }
  destruct pre as [|a pre]; [done|].
  change (String a pre ++ String c t) with (String a (pre ++ String c t)).
  unfold old at 1 2. rewrite !ReplaceFacts.replace_cons. fold old.
  change (String a (pre ++ String c t)) with (String a pre ++ String c t).
  rewrite (SplitFacts.prefix_at_separator old c (String a pre) t separator).
  destruct (String.prefix old (String a pre)) eqn:Hpre.
  - rewrite (prefix_drop_app old (String a pre) (String c t) Hpre).
    rewrite IH; [by rewrite SplitFacts.app_assoc|].
    rewrite ReplaceFacts.length_drop. simpl in *. lia.
  - change (String a ?x ++ ?y) with (String a (x ++ y)). f_equal.
    apply IH. simpl in Hn. lia.
Qed.

Lemma replace_separated pre t :
  Str.replace old new (pre ++ String c t)
  = Str.replace old new pre ++ Str.replace old new (String c t).
Proof. by apply (replace_separated_go (String.length pre)). Qed.
End Separated.

End RemovalFacts.

(** ** SELinux is never left enforcing (src/actions/common.py) *)

Lemma replace_string_frame p old new h h' :
  Files.replace_string p old new h = (Ok tt, h') ->
  fs h' !! p = Some (RegularFile (Str.replace old new (file_text h p)))
  /\ (forall q, q <> p -> fs h' !! q = fs h !! q)
  /\ units h' = units h /\ journal h' = journal h.
Proof.
  intros (text & Htext & ->)%replace_string_ok. unfold file_text. rewrite Htext. simpl.
  split; [apply lookup_insert_eq|]. split; [|done].
  intros q Hq. by apply lookup_insert_ne.
Qed.

(** X10: when [RuleSelinux._prepare_action] returns, /etc/selinux/config
    has no occurrence of "SELINUX=enforcing" left; when [_post_action] or
    [_revert_action] returns, it has no occurrence of "SELINUX=permissive"
    left.  No other file and no unit is touched. *)
Theorem selinux_mode_after (h h' : Host) :
  (RuleSelinux._prepare_action h = (Ok tt, h') ->
   Str.contains "SELINUX=enforcing" (file_text h' RuleSelinux.selinux_config) = false)
  /\ (RuleSelinux._post_action h = (Ok tt, h') \/ RuleSelinux._revert_action h = (Ok tt, h') ->
      Str.contains "SELINUX=permissive" (file_text h' RuleSelinux.selinux_config) = false)
  /\ (RuleSelinux._prepare_action h = (Ok tt, h') \/ RuleSelinux._post_action h = (Ok tt, h')
      \/ RuleSelinux._revert_action h = (Ok tt, h') ->
      (forall q, q <> RuleSelinux.selinux_config -> fs h' !! q = fs h !! q)
      /\ units h' = units h).
Proof.
  split; [|split].
  - intros (Hfile & _)%replace_string_frame. unfold file_text at 1. rewrite Hfile.
    by apply (RemovalFacts.replace_removes "S" "ELINUX=enforcing" "ELINUX=permissive").
  - intros [H|H]; apply replace_string_frame in H as (Hfile & _);
      unfold file_text at 1; rewrite Hfile;
      by apply (RemovalFacts.replace_removes "S" "ELINUX=permissive" "ELINUX=enforcing").
  - intros [H|[H|H]]; apply replace_string_frame in H as (_ & Hfs & Hunits & _); done.
Qed.

Lemma selinux_mode_after_witness :
  let h1 := snd (RuleSelinux._prepare_action stock_host) in
  RuleSelinux._prepare_action stock_host = (Ok tt, h1)
  /\ Str.contains "SELINUX=enforcing" (file_text stock_host "/etc/selinux/config") = true
  /\ Str.contains "SELINUX=enforcing" (file_text h1 "/etc/selinux/config") = false
  /\ RuleSelinux._post_action h1 = (Ok tt, stock_host)
  /\ Str.contains "SELINUX=permissive" (file_text stock_host "/etc/selinux/config") = false.
Proof.
  intros h1.
  assert (Hprep : RuleSelinux._prepare_action stock_host = (Ok tt, h1)) by reflexivity.
  assert (Hpost : RuleSelinux._post_action h1 = (Ok tt, stock_host)) by reflexivity.
  split; [exact Hprep|]. split; [reflexivity|].
  split; [exact (proj1 (selinux_mode_after stock_host h1) Hprep)|].
  split; [exact Hpost|].
  exact (proj1 (proj2 (selinux_mode_after h1 stock_host)) (or_introl Hpost)).
Defined.

(** ** The kernel modules action (src/actions/common.py) *)

Lemma append_text_ok p c h h' :
  Os.append_text p c h = (Ok tt, h') ->
  h' = with_fs (insert p (RegularFile (file_text h p ++ c))) h.
Proof.
  unfold Os.append_text, file_text.
  destruct (fs h !! p) as [[old|target]|]; [|done|]; by intros [= <-].
Qed.


Lemma readonly_get_enabled_modules lookup_modules :
  readonly (DisableSuspiciousKernelModules._get_enabled_modules lookup_modules).
Proof. unfold DisableSuspiciousKernelModules._get_enabled_modules. readonly. Qed.


Lemma rmmod_call m h :
  (exists e, Os.check_call ["rmmod"; m] h = (Raise e, h))
  \/ Os.check_call ["rmmod"; m] h = (Ok tt, journaled ["rmmod"; m] h).
Proof.
  unfold Os.check_call. destruct (bool_decide _); [left; eauto | right; reflexivity].
Qed.

(** The loop over the loaded modules: every step either journals one
    [rmmod] or raises and ends the loop. *)
Lemma rmmod_loop modules : forall h,
  exists unloaded,
    journal (snd (M.for_each modules
                    (fun m => Util.logged_check_call ["rmmod"; m]) h))
    = (map (fun m => ["rmmod"; m]) unloaded ++ journal h)%list
    /\ Forall (fun m => m ∈ modules) unloaded
    /\ units (snd (M.for_each modules
                     (fun m => Util.logged_check_call ["rmmod"; m]) h)) = units h
    /\ fs (snd (M.for_each modules
                  (fun m => Util.logged_check_call ["rmmod"; m]) h)) = fs h.
Proof.
  induction modules as [|m modules IH]; intros h.
  { exists []. repeat split. apply Forall_nil_2. }
  simpl. unfold M.bind, Util.logged_check_call.
  destruct (rmmod_call m h) as [[e Hcall]|Hcall]; rewrite Hcall.
  { exists []. repeat split. apply Forall_nil_2. }
  destruct (IH (journaled ["rmmod"; m] h)) as (unloaded & Hj & Hall & Hu & Hf).
  unfold Util.logged_check_call in Hj, Hu, Hf.
  exists (unloaded ++ [m])%list. rewrite Hj, Hu, Hf. simpl.
  split; [by rewrite map_app, <- app_assoc|]. split; [|done].
  apply Forall_app. split.
  - eapply Forall_impl; [exact Hall|]. intros x Hx. by apply list_elem_of_further.
  - apply Forall_singleton, list_elem_of_here.
Qed.


Lemma blacklist_removed text :
  Str.contains "blacklist pata_acpi" text = false ->
  Str.contains "blacklist btrfs" text = false ->
  Str.contains "blacklist floppy" text = false ->
  Str.replace "blacklist floppy" EmptyString
    (Str.replace "blacklist btrfs" EmptyString
       (Str.replace "blacklist pata_acpi" EmptyString (text ++ blacklist_lines)))
  = text ++ blank_lines.
Proof.
  intros H1 H2 H3.
  pose proof (RemovalFacts.replace_first "b" "lacklist pata_acpi" EmptyString eq_refl text
                (Str.nl ++ "blacklist btrfs" ++ Str.nl ++ "blacklist floppy" ++ Str.nl) H1)
    as E1.
  change (text ++ "blacklist pata_acpi" ++ _) with (text ++ blacklist_lines) in E1.
  change (text ++ EmptyString ++ _)
    with (text ++ String "010" ("blacklist btrfs" ++ Str.nl ++ "blacklist floppy" ++ Str.nl))
    in E1.
  rewrite E1.
  rewrite (RemovalFacts.replace_separated "b" "lacklist btrfs" EmptyString "010" eq_refl).
  rewrite (ReplaceFacts.replace_absent "b" "lacklist btrfs" EmptyString text H2).
  change (Str.replace "blacklist btrfs" EmptyString (String "010" _))
    with (String "010" (Str.nl ++ "blacklist floppy" ++ Str.nl)).
  rewrite (RemovalFacts.replace_separated "b" "lacklist floppy" EmptyString "010" eq_refl).
  rewrite (ReplaceFacts.replace_absent "b" "lacklist floppy" EmptyString text H3).
  reflexivity.
Qed.

Lemma blacklist_loop h h' :
  M.for_each DisableSuspiciousKernelModules.suspicious_modules
    (fun module =>
       Files.replace_string DisableSuspiciousKernelModules.modules_konfig_path
         ("blacklist " ++ module) EmptyString) h = (Ok tt, h') ->
  fs h' !! DisableSuspiciousKernelModules.modules_konfig_path
  = Some (RegularFile
      (Str.replace "blacklist floppy" EmptyString
         (Str.replace "blacklist btrfs" EmptyString
            (Str.replace "blacklist pata_acpi" EmptyString
               (file_text h DisableSuspiciousKernelModules.modules_konfig_path))))).
Proof.
  simpl.
  intros (h1 & (F1 & _)%replace_string_frame
          & (h2 & (F2 & _)%replace_string_frame
             & (h3 & (F3 & _)%replace_string_frame & [= <-])%seq_ok)%seq_ok)%seq_ok.
  rewrite F3. unfold file_text at 1. rewrite F2. unfold file_text at 1. by rewrite F1.
Qed.

(** X12: [DisableSuspiciousKernelModules] does not give the configuration
    file back as it was.  [_prepare_action] appends three "blacklist
    <module>" lines; [_post_action] and [_revert_action] replace the three
    strings by nothing, which leaves the line ends: when the file had none
    of the three strings before (or did not exist), it ends up as its
    former text followed by three empty lines. *)
Theorem blacklist_lines_leave_blank_lines (h h1 h2 : Host) :
  let p := DisableSuspiciousKernelModules.modules_konfig_path in
  DisableSuspiciousKernelModules._prepare_action h = (Ok tt, h1) ->
  DisableSuspiciousKernelModules._post_action h1 = (Ok tt, h2)
  \/ DisableSuspiciousKernelModules._revert_action h1 = (Ok tt, h2) ->
  Str.contains "blacklist pata_acpi" (file_text h p) = false ->
  Str.contains "blacklist btrfs" (file_text h p) = false ->
  Str.contains "blacklist floppy" (file_text h p) = false ->
  fs h1 !! p = Some (RegularFile (file_text h p ++ blacklist_lines))
  /\ fs h2 !! p = Some (RegularFile (file_text h p ++ blank_lines)).
Proof.
  intros p Hprep Hback H1 H2 H3.
  assert (Hfile : fs h1 !! p = Some (RegularFile (file_text h p ++ blacklist_lines))).
  { revert Hprep. unfold DisableSuspiciousKernelModules._prepare_action.
    intros (h0 & ->%append_text_ok & (modules & h0' & Hmods & Hloop)%bind_ok)%seq_ok.
    pose proof (readonly_get_enabled_modules
                  DisableSuspiciousKernelModules.suspicious_modules
                  (with_fs (insert p (RegularFile (file_text h p ++ blacklist_lines))) h))
      as Hro.
    fold p in Hmods.
    change (String.concat _ _) with blacklist_lines in Hmods.
    rewrite Hmods in Hro. simpl in Hro. subst h0'.
    destruct (rmmod_loop modules
                (with_fs (insert p (RegularFile (file_text h p ++ blacklist_lines))) h))
      as (_ & _ & _ & _ & Hfs).
    rewrite Hloop in Hfs. simpl in Hfs. rewrite Hfs. apply lookup_insert_eq. }
  split; [exact Hfile|].
  assert (Htext : file_text h1 p = file_text h p ++ blacklist_lines)
    by (unfold file_text at 1; by rewrite Hfile).
  destruct Hback as [Hback|Hback]; apply blacklist_loop in Hback; fold p in Hback;
    by rewrite Hback, Htext, blacklist_removed.
Qed.

Lemma blacklist_lines_leave_blank_lines_witness :
  let p := "/etc/modprobe.d/pataacpibl.conf" in
  let h1 := snd (DisableSuspiciousKernelModules._prepare_action modules_host) in
  let h2 := snd (DisableSuspiciousKernelModules._revert_action h1) in
  DisableSuspiciousKernelModules._prepare_action modules_host = (Ok tt, h1)
  /\ DisableSuspiciousKernelModules._revert_action h1 = (Ok tt, h2)
  /\ journal h1 = [["rmmod"; "floppy"]]
  /\ fs modules_host !! p = Some (RegularFile ("options floppy floppy=0" ++ Str.nl))
  /\ fs h2 !! p = Some (RegularFile (file_text modules_host p ++ blank_lines)).
Proof.
  intros p h1 h2.
  assert (Hprep : DisableSuspiciousKernelModules._prepare_action modules_host = (Ok tt, h1))
    by (vm_compute; reflexivity).
  assert (Hrev : DisableSuspiciousKernelModules._revert_action h1 = (Ok tt, h2))
    by (vm_compute; reflexivity).
  split; [exact Hprep|]. split; [exact Hrev|].
  split; [vm_compute; reflexivity|]. split; [vm_compute; reflexivity|].
  apply (blacklist_lines_leave_blank_lines modules_host h1 h2 Hprep (or_intror Hrev));
    vm_compute; reflexivity.
Defined.

(** ** Services stopped by prepare (src/actions/common.py, postgres.py) *)

Lemma systemctl_run prog verb u h h' :
  Os.is_systemctl prog = true ->
  Os.check_call [prog; verb; u] h = (Ok tt, h') ->
  Os.systemctl_unit verb u h = Some h'.
Proof. intros Hprog Hcall. by destruct (systemctl_ok prog verb u h h' Hprog Hcall) as (_ & _ & H). Qed.

Lemma systemctl_put verb u h h' :
  Os.systemctl_unit verb u h = Some h' ->
  verb = "start" \/ verb = "stop" \/ verb = "enable" \/ verb = "disable" ->
  exists st,
    units h !! u = Some st
    /\ h' = with_units
              (insert u (if (verb =? "start")%string then UnitState (enabled st) true
                         else if (verb =? "stop")%string then UnitState (enabled st) false
                         else if (verb =? "enable")%string then UnitState true (active st)
                         else UnitState false (active st))) h.
Proof.
  unfold Os.systemctl_unit. destruct (units h !! u) as [st|]; [|done].
  intros H Hverb. exists st. split; [done|].
  destruct Hverb as [-> | [-> | [-> | ->]]]; simpl in *; congruence.
Qed.

(** Stopping and disabling a unit, then enabling and starting it. *)
Lemma stop_disable_then_enable_start prog u h h1 h2 :
  Os.is_systemctl prog = true ->
  (Util.logged_check_call [prog; "stop"; u] >>
   Util.logged_check_call [prog; "disable"; u]) h = (Ok tt, h1) ->
  (Util.logged_check_call [prog; "enable"; u] >>
   Util.logged_check_call [prog; "start"; u]) h1 = (Ok tt, h2) ->
  h1 = with_units (insert u (UnitState false false)) h
  /\ h2 = with_units (insert u (UnitState true true)) h.
Proof.
  intros Hprog. unfold Util.logged_check_call.
  intros (ha & Ha%systemctl_run & Hb%systemctl_run)%seq_ok; [|done..].
  intros (hc & Hc%systemctl_run & Hd%systemctl_run)%seq_ok; [|done..].
  apply systemctl_put in Ha as (sa & Hsa & ->); [|tauto].
  apply systemctl_put in Hb as (sb & Hsb & ->); [|tauto].
  simpl in Hsb. rewrite lookup_insert_eq in Hsb. injection Hsb as <-.
  match goal with |- ?x = _ /\ _ =>
    assert (E1 : x = with_units (insert u (UnitState false false)) h) end.
  { simpl. destruct h. unfold with_units. simpl. by rewrite insert_insert_eq. }
  rewrite E1 in *. split; [reflexivity|].
  apply systemctl_put in Hc as (sc & Hsc & ->); [|tauto].
  apply systemctl_put in Hd as (sd & Hsd & ->); [|tauto].
  simpl in Hsd. rewrite lookup_insert_eq in Hsd. injection Hsd as <-.
  simpl in Hsc. rewrite lookup_insert_eq in Hsc. injection Hsc as <-.
  simpl. destruct h. unfold with_units. simpl. by rewrite !insert_insert_eq.
Qed.

(** X13: [PostgresDatabasesUpdate._prepare_action] leaves the unit
    postgresql disabled and stopped; [_revert_action] after it leaves the
    unit enabled and started, whatever it was before.  Files and other
    units are as they were, and the host is the original one when the unit
    was enabled and running before. *)
Theorem postgres_update_prepare_revert (h h1 h2 : Host) :
  PostgresDatabasesUpdate._prepare_action h = (Ok tt, h1) ->
  PostgresDatabasesUpdate._revert_action h1 = (Ok tt, h2) ->
  units h1 !! "postgresql" = Some (UnitState false false)
  /\ units h2 !! "postgresql" = Some (UnitState true true)
  /\ (forall u, u <> "postgresql" -> units h2 !! u = units h !! u)
  /\ fs h2 = fs h
  /\ (units h !! "postgresql" = Some (UnitState true true) -> h2 = h).
Proof.
  intros Hprep Hrev.
  destruct (stop_disable_then_enable_start "systemctl" "postgresql" h h1 h2 eq_refl
              Hprep Hrev) as [-> ->].
  simpl. split; [apply lookup_insert_eq|]. split; [apply lookup_insert_eq|].
  split; [intros u Hu; by apply lookup_insert_ne|]. split; [done|].
  intros Horig. apply with_units_id. by apply insert_id.
Qed.

Lemma postgres_update_prepare_revert_witness :
  let h1 := snd (PostgresDatabasesUpdate._prepare_action postgres_running_host) in
  PostgresDatabasesUpdate._prepare_action postgres_running_host = (Ok tt, h1)
  /\ units h1 !! "postgresql" = Some (UnitState false false)
  /\ PostgresDatabasesUpdate._revert_action h1 = (Ok tt, postgres_running_host).
Proof.
  intros h1.
  assert (Hprep : PostgresDatabasesUpdate._prepare_action postgres_running_host = (Ok tt, h1))
    by reflexivity.
  assert (Hrev : PostgresDatabasesUpdate._revert_action h1 = (Ok tt, postgres_running_host))
    by reflexivity.
  split; [exact Hprep|].
  split; [exact (proj1 (postgres_update_prepare_revert _ _ _ Hprep Hrev))|].
  exact Hrev.
Defined.

(** ** The login messages (src/actions/common.py) *)

Lemma backup_file_run p h :
  Files.backup_file p h
  = (Ok tt, match fs h !! p with
            | Some n => with_fs (insert (Files.bak p) n) h
            | None => h
            end).
Proof. unfold Files.backup_file. by destruct (fs h !! p). Qed.

Lemma restore_file_run p h :
  Files.restore_file_from_backup p h
  = (Ok tt, match fs h !! Files.bak p with
            | Some n => with_fs (fun m => delete (Files.bak p) (<[p := n]> m)) h
            | None => h
            end).
Proof. unfold Files.restore_file_from_backup. by destruct (fs h !! Files.bak p). Qed.

(** The host [AddInProgressSshLoginMessage._prepare_action] leaves. *)
Lemma in_progress_prepare_ok path_to_script h h1 :
  AddInProgressSshLoginMessage._prepare_action path_to_script h = (Ok tt, h1) ->
  h1 = with_fs
         (fun m =>
            <["/etc/motd" :=
                RegularFile (file_text h "/etc/motd"
                             ++ AddInProgressSshLoginMessage.in_progress_message path_to_script)]>
              (match m !! "/etc/motd" with
               | Some n => <[Files.bak "/etc/motd" := n]> m
               | None => m
               end)) h.
Proof.
  unfold AddInProgressSshLoginMessage._prepare_action, M.bind.
  rewrite backup_file_run.
  intros ->%append_text_ok.
  unfold file_text, AddInProgressSshLoginMessage.motd_path, with_fs.
  destruct (fs h !! "/etc/motd") as [n|] eqn:Hmotd; simpl;
    [rewrite lookup_insert_ne by apply bak_ne|]; by rewrite Hmotd.
Qed.

(** X15: [AddInProgressSshLoginMessage]: after [_prepare_action] and
    then [_revert_action], a message of the day that existed before has
    its former content again and its backup is gone; the host is the
    original one when no /etc/motd.bak existed before.  When there was
    neither /etc/motd nor a backup before, nothing is restored: the file
    created by prepare stays, with the in-progress message in it. *)
Theorem in_progress_message_prepare_revert (path_to_script : string) (h h1 h2 : Host) :
  AddInProgressSshLoginMessage._prepare_action path_to_script h = (Ok tt, h1) ->
  AddInProgressSshLoginMessage._revert_action h1 = (Ok tt, h2) ->
  (forall n, fs h !! "/etc/motd" = Some n ->
     fs h2 !! "/etc/motd" = Some n
     /\ fs h2 !! Files.bak "/etc/motd" = None
     /\ (fs h !! Files.bak "/etc/motd" = None -> h2 = h))
  /\ (fs h !! "/etc/motd" = None -> fs h !! Files.bak "/etc/motd" = None ->
      fs h2 !! "/etc/motd"
      = Some (RegularFile (AddInProgressSshLoginMessage.in_progress_message path_to_script))).
Proof.
  intros ->%in_progress_prepare_ok.
  unfold AddInProgressSshLoginMessage._revert_action. rewrite restore_file_run.
  unfold AddInProgressSshLoginMessage.motd_path.
  pose proof (bak_ne "/etc/motd") as Hne.
  set (motd := "/etc/motd") in *. set (backup := Files.bak motd) in *.
  set (message := AddInProgressSshLoginMessage.in_progress_message path_to_script).
  intros Hrev. split.
  - intros n Hn. revert Hrev. cbn [fs with_fs]. rewrite Hn.
    rewrite lookup_insert_ne, lookup_insert_eq by (by apply not_eq_sym).
    intros [= <-]. cbn [fs with_fs]. rewrite Hn.
    split; [rewrite lookup_delete_ne by done; apply lookup_insert_eq|].
    split; [apply lookup_delete_eq|].
    intros Hnone. rewrite with_fs_with_fs. apply with_fs_id. rewrite Hn.
    rewrite insert_insert_eq, delete_insert_ne, delete_insert_eq by done.
    rewrite delete_id by done. by apply insert_id.
  - intros Hnone Hbak. revert Hrev. cbn [fs with_fs]. rewrite Hnone.
    rewrite lookup_insert_ne, Hbak by (by apply not_eq_sym).
    intros [= <-]. cbn [fs with_fs]. unfold file_text. rewrite Hnone.
    apply lookup_insert_eq.
Qed.

Lemma in_progress_message_prepare_revert_witness :
  let h1 := snd (AddInProgressSshLoginMessage._prepare_action "/root/centos2alma" motd_host) in
  AddInProgressSshLoginMessage._prepare_action "/root/centos2alma" motd_host = (Ok tt, h1)
  /\ fs h1 !! "/etc/motd"
     = Some (RegularFile ("Authorized use only." ++ Str.nl
                          ++ AddInProgressSshLoginMessage.in_progress_message
                               "/root/centos2alma"))
  /\ AddInProgressSshLoginMessage._revert_action h1 = (Ok tt, motd_host)
  /\ fs motd_host !! "/etc/motd" = Some (RegularFile ("Authorized use only." ++ Str.nl)).
Proof.
  intros h1.
  assert (Hprep : AddInProgressSshLoginMessage._prepare_action "/root/centos2alma" motd_host
                  = (Ok tt, h1)) by (vm_compute; reflexivity).
  assert (Hrev : AddInProgressSshLoginMessage._revert_action h1
                 = (Ok tt, snd (AddInProgressSshLoginMessage._revert_action h1)))
    by (vm_compute; reflexivity).
  assert (Hmotd : fs motd_host !! "/etc/motd"
                  = Some (RegularFile ("Authorized use only." ++ Str.nl)))
    by (vm_compute; reflexivity).
  destruct (in_progress_message_prepare_revert "/root/centos2alma" motd_host h1 _ Hprep Hrev)
    as [Hthere _].
  destruct (Hthere _ Hmotd) as (_ & _ & Hsame).
  split; [exact Hprep|]. split; [vm_compute; reflexivity|].
  split; [|exact Hmotd].
  assert (Hnone : fs motd_host !! Files.bak "/etc/motd" = None) by (vm_compute; reflexivity).
  rewrite Hrev. by rewrite (Hsame Hnone).
Defined.

(** X16: the finish message takes the place of the in-progress message.
    After [AddInProgressSshLoginMessage._prepare_action] and then
    [AddFinishSshLoginMessage._post_action], a message of the day that
    existed before is its former text followed by the finish message, and
    its backup is gone.  When there was neither /etc/motd nor a backup
    before, the in-progress message is not removed: the file holds it,
    followed by the finish message. *)
Theorem finish_message_replaces_in_progress (path_to_script : string) (h h1 h2 : Host) :
  AddInProgressSshLoginMessage._prepare_action path_to_script h = (Ok tt, h1) ->
  AddFinishSshLoginMessage._post_action h1 = (Ok tt, h2) ->
  (forall text, fs h !! "/etc/motd" = Some (RegularFile text) ->
     fs h2 !! "/etc/motd"
     = Some (RegularFile (text ++ AddFinishSshLoginMessage.finish_message))
     /\ fs h2 !! Files.bak "/etc/motd" = None)
  /\ (fs h !! "/etc/motd" = None -> fs h !! Files.bak "/etc/motd" = None ->
      fs h2 !! "/etc/motd"
      = Some (RegularFile (AddInProgressSshLoginMessage.in_progress_message path_to_script
                           ++ AddFinishSshLoginMessage.finish_message))).
Proof.
  intros ->%in_progress_prepare_ok.
  unfold AddFinishSshLoginMessage._post_action, M.bind. rewrite restore_file_run.
  unfold AddFinishSshLoginMessage.motd_path.
  pose proof (bak_ne "/etc/motd") as Hne.
  set (motd := "/etc/motd") in *. set (backup := Files.bak motd) in *.
  intros Hpost. split.
  - intros text Hn. revert Hpost. cbn [fs with_fs]. rewrite Hn.
    rewrite lookup_insert_ne, lookup_insert_eq by (by apply not_eq_sym).
    intros ->%append_text_ok. unfold file_text. cbn [fs with_fs]. rewrite Hn.
    rewrite lookup_delete_ne, !lookup_insert_eq by done.
    split; [done|]. rewrite lookup_insert_ne by done. apply lookup_delete_eq.
  - intros Hnone Hbak. revert Hpost. cbn [fs with_fs]. rewrite Hnone.
    rewrite lookup_insert_ne, Hbak by (by apply not_eq_sym).
    intros ->%append_text_ok. unfold file_text. cbn [fs with_fs]. rewrite Hnone.
    by rewrite !lookup_insert_eq.
Qed.

Lemma finish_message_replaces_in_progress_witness :
  let h1 := snd (AddInProgressSshLoginMessage._prepare_action "/root/centos2alma" motd_host) in
  let h2 := snd (AddFinishSshLoginMessage._post_action h1) in
  AddInProgressSshLoginMessage._prepare_action "/root/centos2alma" motd_host = (Ok tt, h1)
  /\ AddFinishSshLoginMessage._post_action h1 = (Ok tt, h2)
  /\ fs h2 !! "/etc/motd"
     = Some (RegularFile (("Authorized use only." ++ Str.nl)
                          ++ AddFinishSshLoginMessage.finish_message))
  /\ fs h2 !! Files.bak "/etc/motd" = None.
Proof.
  intros h1 h2.
  assert (Hprep : AddInProgressSshLoginMessage._prepare_action "/root/centos2alma" motd_host
                  = (Ok tt, h1)) by (vm_compute; reflexivity).
  assert (Hpost : AddFinishSshLoginMessage._post_action h1 = (Ok tt, h2))
    by (vm_compute; reflexivity).
  split; [exact Hprep|]. split; [exact Hpost|].
  apply (proj1 (finish_message_replaces_in_progress _ _ _ _ Hprep Hpost)).
  vm_compute; reflexivity.
Defined.

(** ** Prepare followed by revert of PostgresReinstallModernPackage *)

Section ReinstallRoundTrip.
Import PostgresReinstallModernPackage.

(** X17: [PostgresReinstallModernPackage]: after [_prepare_action] and
    then [_revert_action], for a listed major version without a flag file
    left from an earlier run, a service that was running before is enabled
    and running, a service that was not running is as it was, and no flag
    file is left. *)
Theorem reinstall_prepare_revert (h h1 h2 : Host) (versions : list Z) (v : Z) :
  fst (_get_versions h) = Ok versions ->
  v ∈ versions ->
  flagged h v = false ->
  _prepare_action h = (Ok tt, h1) ->
  _revert_action h1 = (Ok tt, h2) ->
  (service_active h (_get_service_name v) = true ->
   units h2 !! _get_service_name v = Some (UnitState true true))
  /\ (service_active h (_get_service_name v) = false ->
      units h2 !! _get_service_name v = units h !! _get_service_name v)
  /\ fs h2 !! flag_path h v = None.
Proof.
  rewrite get_versions_run. simpl. intros Hversions Hv Hflag.
  assert (Hnone : fs h !! flag_path h v = None).
  { unfold flagged in Hflag. by destruct (fs h !! flag_path h v). }
  unfold _prepare_action, LeappConfigs.add_repositories_mapping.
  intros (h0 & (Hfs & Hunits & Hpg)%opaque_call_ok & Hloop)%seq_ok; [|done].
  revert Hloop. unfold M.bind. rewrite get_versions_run, Hpg, Hversions. simpl.
  intros [Hpg1 Hprep]%prepare_loop. destruct (Hprep v) as [Hon Hoff].
  assert (Hpath0 : flag_path h0 v = flag_path h v) by (unfold flag_path; by rewrite Hpg).
  assert (Hact : service_active h0 (_get_service_name v)
                 = service_active h (_get_service_name v))
    by (unfold service_active; by rewrite Hunits).
  rewrite ?Hpath0, ?Hact, ?Hfs, ?Hunits in Hon, Hoff.
  unfold _revert_action, M.bind. rewrite get_versions_run, Hpg1, Hpg, Hversions. simpl.
  intros Hloop.
  assert (Hpath1 : flag_path h1 v = flag_path h v)
    by (unfold flag_path; by rewrite Hpg1, Hpg).
  destruct (service_active h (_get_service_name v)) eqn:Hactive.
  - destruct (Hon Hv eq_refl) as [Hf1 Hu1].
    destruct (revert_loop v _ _ _ Hloop) as (_ & Ron & _).
    { intros target. rewrite Hpath1, Hf1. discriminate. }
    rewrite Hpath1 in Ron. unfold flagged in Ron. rewrite Hpath1, Hf1 in Ron.
    destruct (Ron Hv eq_refl) as [Hf2 Hu2]. done.
  - destruct Hoff as [Hf1 Hu1]; [by right|].
    rewrite ?Hfs in Hf1. rewrite ?Hunits in Hu1. rewrite Hnone in Hf1.
    destruct (revert_loop v _ _ _ Hloop) as (_ & _ & Roff).
    { intros target. rewrite Hpath1, Hf1. discriminate. }
    rewrite Hpath1 in Roff. unfold flagged in Roff. rewrite Hpath1, Hf1 in Roff.
    destruct Roff as [Hf2 Hu2]; [by right|].
    rewrite Hf2, Hu2, Hu1. done.
Qed.

End ReinstallRoundTrip.

Lemma reinstall_prepare_revert_witness :
  let h := postgres12_host in
  let h1 := snd (PostgresReinstallModernPackage._prepare_action h) in
  let h2 := snd (PostgresReinstallModernPackage._revert_action h1) in
  PostgresReinstallModernPackage._prepare_action h = (Ok tt, h1)
  /\ PostgresReinstallModernPackage._revert_action h1 = (Ok tt, h2)
  /\ units h1 !! "postgresql-12" = Some (UnitState false false)
  /\ units h2 !! PostgresReinstallModernPackage._get_service_name 12
     = Some (UnitState true true)
  /\ units h2 !! PostgresReinstallModernPackage._get_service_name 10
     = units h !! PostgresReinstallModernPackage._get_service_name 10.
Proof.
  intros h h1 h2.
  assert (Hv : fst (PostgresReinstallModernPackage._get_versions h) = Ok [10; 12])
    by (vm_compute; reflexivity).
  assert (Hprep : PostgresReinstallModernPackage._prepare_action h = (Ok tt, h1))
    by (vm_compute; reflexivity).
  assert (Hrev : PostgresReinstallModernPackage._revert_action h1 = (Ok tt, h2))
    by (vm_compute; reflexivity).
  assert (H12 : 12 ∈ [10; 12]) by (apply list_elem_of_further, list_elem_of_here).
  assert (H10 : 10 ∈ [10; 12]) by apply list_elem_of_here.
  assert (F12 : flagged h 12 = false) by (vm_compute; reflexivity).
  assert (F10 : flagged h 10 = false) by (vm_compute; reflexivity).
  assert (A12 : service_active h (PostgresReinstallModernPackage._get_service_name 12) = true)
    by (vm_compute; reflexivity).
  assert (A10 : service_active h (PostgresReinstallModernPackage._get_service_name 10) = false)
    by (vm_compute; reflexivity).
  split; [exact Hprep|]. split; [exact Hrev|]. split; [vm_compute; reflexivity|].
  split.
  - exact (proj1 (reinstall_prepare_revert h h1 h2 [10; 12] 12 Hv H12 F12 Hprep Hrev) A12).
  - exact (proj1 (proj2 (reinstall_prepare_revert h h1 h2 [10; 12] 10 Hv H10 F10 Hprep Hrev))
             A10).
Defined.

(** ** The verdict of the locale check (postgres.py) *)

Lemma command_effect_answers argv h h' :
  Os.command_effect argv h = Some h' -> same_answers h h'.
Proof.
  unfold Os.command_effect, Os.systemctl_unit, same_answers.
  destruct argv as [|prog [|verb [|u [|x rest]]]]; try by intros [= <-].
  - destruct (_ && _); by intros [= <-].
  - destruct (Os.is_systemctl prog); [|by intros [= <-]].
    destruct (units h !! u); [|done].
    repeat (destruct (String.eqb verb _); [by intros [= <-]|]). done.
Qed.

Lemma check_output_ok argv h output h' :
  Os.check_output argv h = (Ok output, h') ->
  programs h !! argv = Some (0, output) /\ h' = h.
Proof.
  unfold Os.check_output, M.bind, Os.subprocess_run.
  destruct (programs h !! argv) as [[returncode out]|]; [|done]. simpl.
  destruct (Z.eqb_spec returncode 0) as [->|]; [|done]. by intros [= <- <-].
Qed.

Lemma try_finally_ok {A} (body : M A) (handler : M unit) h a h' :
  M.try_finally body handler h = (Ok a, h') ->
  exists h1, body h = (Ok a, h1).
Proof.
  unfold M.try_finally. destruct (body h) as [r h1].
  destruct (handler h1) as [[[]|e] h2]; [|done]. intros [= -> _]. eauto.
Qed.

Lemma push_front_answers p strings h r h' :
  Files.push_front_strings p strings h = (r, h') -> same_answers h h'.
Proof.
  unfold Files.push_front_strings, M.bind, Os.read_text, Os.write_text, same_answers.
  destruct (fs h !! p) as [[text|target]|] eqn:Hp; try by intros [= _ <-].
  rewrite Hp. by intros [= _ <-].
Qed.

Lemma backup_answers p h : same_answers h (snd (Files.backup_file p h)).
Proof. rewrite backup_file_run. simpl. by destruct (fs h !! p). Qed.

Lemma one_locale (reported : list string) (values : list string) (current : string) :
  size (list_to_set reported : gset string) = 1%nat ->
  size (list_to_set values ∪ {[current]} : gset string) = 1%nat ->
  (list_to_set reported : gset string) = list_to_set values ∪ {[current]} ->
  reported <> [] /\ Forall (fun r => r = current) reported.
Proof.
  intros Hone Hsys Heq. split.
  - intros ->. rewrite list_to_set_nil, size_empty in Hone. done.
  - apply Forall_forall. intros r Hr.
    apply (size_singleton_inv (list_to_set values ∪ {[current]} : gset string)); [done| |].
    + rewrite <- Heq. by apply elem_of_list_to_set.
    + apply elem_of_union_r. by apply elem_of_singleton.
Qed.

(** X18: [AssertPostgresLocaleMatchesSystemOne] answers True only when
    [psql] reported at least one locale and every locale it reported is the
    locale of the Python process. *)
Theorem locale_check_true_is_sound (h h' : Host) :
  AssertPostgresLocaleMatchesSystemOne._do_check h = (Ok true, h') ->
  exists output,
    programs h !! AssertPostgresLocaleMatchesSystemOne.cmd = Some (0, output)
    /\ Str.split_ws output <> []
    /\ Forall (fun reported => reported = python_locale h) (Str.split_ws output).
Proof.
  unfold AssertPostgresLocaleMatchesSystemOne._do_check.
  unfold M.bind at 1. unfold M.gets at 1.
  intros (h1 & Hbody)%try_finally_ok. revert Hbody.
  unfold AssertPostgresLocaleMatchesSystemOne.compare_locales, Util.logged_check_call.
  intros (ha & Hbackup
          & (hb & Hpush
             & (hc & Hcall%check_call_ok%command_effect_answers
                & (output & hc' & [Hout ->]%check_output_ok & Hrest)%bind_ok)%seq_ok)%seq_ok)%seq_ok.
  pose proof (backup_answers (AssertPostgresLocaleMatchesSystemOne.config_path h) h) as Ha.
  rewrite Hbackup in Ha. simpl in Ha.
  apply push_front_answers in Hpush as Hb.
  destruct Ha as [Pa La], Hb as [Pb Lb], Hcall as [Pc Lc].
  exists output. split; [by rewrite <- Pa, <- Pb, <- Pc|].
  destruct (size (list_to_set (Str.split_ws output) : gset string) =? 1)%nat eqn:Hone;
    simpl in Hrest; [|discriminate].
  apply Nat.eqb_eq in Hone.
  apply bind_ok in Hrest as (lines & hd & Hlines & Hrest).
  pose proof (readonly_find_file_substrings "/etc/locale.conf" "LANG=" hc) as Hro.
  rewrite Hlines in Hro. simpl in Hro. subst hd.
  apply bind_ok in Hrest as (values & he & Hvalues & Hrest).
  unfold M.lift in Hvalues. injection Hvalues as _ <-.
  unfold M.bind, M.gets, M.ret in Hrest.
  destruct (size (list_to_set values ∪ {[python_locale hc]} : gset string) =? 1)%nat
    eqn:Hsys; simpl in Hrest; [|discriminate].
  apply Nat.eqb_eq in Hsys. injection Hrest as Hdec _.
  apply bool_decide_eq_true in Hdec.
  rewrite <- La, <- Lb, <- Lc. by apply (one_locale _ values).
Qed.

Lemma locale_check_true_is_sound_witness :
  let h' := snd (AssertPostgresLocaleMatchesSystemOne._do_check postgres_stopped_host) in
  AssertPostgresLocaleMatchesSystemOne._do_check postgres_stopped_host = (Ok true, h')
  /\ exists output,
       programs postgres_stopped_host !! AssertPostgresLocaleMatchesSystemOne.cmd
       = Some (0, output)
       /\ Str.split_ws output <> []
       /\ Forall (fun reported => reported = "en_US.UTF-8") (Str.split_ws output).
Proof.
  intros h'.
  assert (Hcheck : AssertPostgresLocaleMatchesSystemOne._do_check postgres_stopped_host
                   = (Ok true, h')) by (vm_compute; reflexivity).
  split; [exact Hcheck|].
  exact (locale_check_true_is_sound postgres_stopped_host h' Hcheck).
Defined.

(** ** Failures of the MariaDB actions (src/actions/mariadb.py) *)

(** X19: [UpdateMariadbDatabase._post_action] on a host without
    /etc/psa/.psa.shadow raises [FileNotFoundError], but only after it has
    started the unit mariadb: the failed action leaves the server
    running. *)
Theorem mariadb_upgrade_needs_shadow_file (h : Host) (st : unit_state) :
  units h !! "mariadb" = Some st ->
  ["systemctl"; "start"; "mariadb"] ∉ broken h ->
  fs h !! "/etc/psa/.psa.shadow" = None ->
  UpdateMariadbDatabase._post_action h
  = (Raise (FileNotFoundError "/etc/psa/.psa.shadow"),
     with_units (insert "mariadb" (UnitState (enabled st) true)) h).
Proof.
  intros Hunit Hstart Hshadow.
  unfold UpdateMariadbDatabase._post_action, M.bind, Os.check_call.
  rewrite bool_decide_eq_false_2 by done.
  simpl. unfold Os.systemctl_unit. rewrite Hunit. simpl.
  unfold Os.read_text. simpl. by rewrite Hshadow.
Qed.

Lemma mariadb_upgrade_needs_shadow_file_witness :
  UpdateMariadbDatabase._post_action mariadb_stopped_host
  = (Raise (FileNotFoundError "/etc/psa/.psa.shadow"),
     with_units (insert "mariadb" (UnitState true true)) mariadb_stopped_host)
  /\ service_active mariadb_stopped_host "mariadb" = false
  /\ service_active (snd (UpdateMariadbDatabase._post_action mariadb_stopped_host)) "mariadb"
     = true.
Proof.
  split; [|split; vm_compute; reflexivity].
  apply (mariadb_upgrade_needs_shadow_file mariadb_stopped_host (UnitState true false));
    [reflexivity | | reflexivity].
  intros H. by apply elem_of_nil in H.
Defined.

(** ** Every listed suspicious module is unloaded (src/actions/common.py) *)

Lemma find_char_at c m rest :
  Str.find_char c m = None -> Str.find_char c (m ++ String c rest) = Some (String.length m).
Proof.
  induction m as [|x m IH]; intros Hm.
  - simpl. by rewrite Ascii.eqb_refl.
  - apply SplitFacts.find_char_cons in Hm as [Hx Hm].
    change (String x m ++ String c rest) with (String x (m ++ String c rest)). simpl.
    destruct (Ascii.eqb_spec x c); [done|]. by rewrite (IH Hm).
Qed.

Lemma take_app m rest : Str.take (String.length m) (m ++ rest) = m.
Proof.
  induction m as [|x m IH]; [by destruct rest|].
  change (String x m ++ rest) with (String x (m ++ rest)). simpl. by rewrite IH.
Qed.

Lemma rmmod_loop_ok modules : forall h h',
  M.for_each modules (fun m => Util.logged_check_call ["rmmod"; m]) h = (Ok tt, h') ->
  journal h' = (map (fun m => ["rmmod"; m]) (rev modules) ++ journal h)%list.
Proof.
  induction modules as [|m modules IH]; intros h h'; [by intros [= <-]|].
  simpl. unfold Util.logged_check_call at 1.
  intros (h1 & Hcall & Hrest)%seq_ok.
  destruct (rmmod_call m h) as [[e He]|Hok]; [congruence|].
  rewrite Hok in Hcall. injection Hcall as <-.
  rewrite (IH _ _ Hrest), map_app, <- app_assoc. done.
Qed.

(** X21: a module [m] of the list looked up that [lsmod] lists, on a line
    made of the name, a space and anything, is among the modules
    [_get_enabled_modules] returns, whatever the exit status of [lsmod]
    is; when [DisableSuspiciousKernelModules._prepare_action] returns, it
    has run [rmmod] for each such suspicious module. *)
Theorem listed_suspicious_module_is_unloaded
    (h : Host) (returncode : Z) (stdout m rest : string) :
  programs h !! ["lsmod"] = Some (returncode, stdout) ->
  m ++ String " " rest ∈ Str.splitlines stdout ->
  Str.find_char " " m = None ->
  (forall lookup_modules,
     m ∈ lookup_modules ->
     exists modules,
       DisableSuspiciousKernelModules._get_enabled_modules lookup_modules h = (Ok modules, h)
       /\ m ∈ modules)
  /\ (forall h',
        m ∈ DisableSuspiciousKernelModules.suspicious_modules ->
        DisableSuspiciousKernelModules._prepare_action h = (Ok tt, h') ->
        ["rmmod"; m] ∈ journal h').
Proof.
  intros Hrun Hline Hm.
  assert (Hname : Str.slice_to (Str.find_char " " (m ++ String " " rest))
                    (m ++ String " " rest) = m).
  { rewrite (find_char_at _ _ _ Hm). simpl. apply take_app. }
  assert (Hfound : forall lookup_modules h0,
             programs h0 !! ["lsmod"] = Some (returncode, stdout) ->
             m ∈ lookup_modules ->
             exists modules,
               DisableSuspiciousKernelModules._get_enabled_modules lookup_modules h0
               = (Ok modules, h0) /\ m ∈ modules).
  { intros lookup_modules h0 Hrun0 Hin.
    unfold DisableSuspiciousKernelModules._get_enabled_modules, M.bind, Os.subprocess_run.
    rewrite Hrun0. eexists. split; [reflexivity|]. simpl.
    apply list_elem_of_omap. exists (m ++ String " " rest). split; [done|].
    rewrite Hname. by rewrite bool_decide_eq_true_2. }
  split; [intros lookup_modules; by apply Hfound|].
  intros h' Hin. unfold DisableSuspiciousKernelModules._prepare_action.
  intros (h0 & ->%append_text_ok & (modules & h1 & Hmods & Hloop)%bind_ok)%seq_ok.
  match type of Hmods with _ _ ?hw = _ =>
    destruct (Hfound DisableSuspiciousKernelModules.suspicious_modules hw Hrun Hin)
      as (modules' & Hmods' & Hmem) end.
  rewrite Hmods' in Hmods. injection Hmods as <- <-.
  rewrite (rmmod_loop_ok _ _ _ Hloop). apply elem_of_app. left.
  apply (list_elem_of_fmap_2 (fun m => ["rmmod"; m])).
  by rewrite list_elem_of_In, <- in_rev, <- list_elem_of_In.
Qed.

Lemma listed_suspicious_module_is_unloaded_witness :
  let h' := snd (DisableSuspiciousKernelModules._prepare_action modules_host) in
  DisableSuspiciousKernelModules._prepare_action modules_host = (Ok tt, h')
  /\ ["rmmod"; "floppy"] ∈ journal h'
  /\ exists modules,
       DisableSuspiciousKernelModules._get_enabled_modules ["floppy"; "ext4"] modules_host
       = (Ok modules, modules_host)
       /\ "floppy" ∈ modules.
Proof.
  intros h'.
  assert (Hprep : DisableSuspiciousKernelModules._prepare_action modules_host = (Ok tt, h'))
    by (vm_compute; reflexivity).
  destruct (listed_suspicious_module_is_unloaded modules_host 0
              ("Module                  Size  Used by" ++ Str.nl
               ++ "floppy                 69432  0" ++ Str.nl
               ++ "ext4                  579979  1" ++ Str.nl)
              "floppy" "                69432  0")
    as [Hfound Hunloaded].
  - vm_compute; reflexivity.
  - apply list_elem_of_further, list_elem_of_here.
  - reflexivity.
  - split; [exact Hprep|]. split.
    + apply (Hunloaded h'); [|exact Hprep].
      apply list_elem_of_further, list_elem_of_further, list_elem_of_here.
    + apply Hfound. apply list_elem_of_here.
Defined.
